(** * queuectl: the job-queue engine, embedded and verified

    A shallow embedding of the persistence layer ([storage.py]), the worker
    loop ([worker.py]) and the [enqueue] / [delete] commands ([cli.py]) of
    queuectl, followed by the properties of the engine.

    Conventions of the embedding:
    - the [jobs] table is a finite map from the primary key [id] to the
      remaining ten columns; the [config] table maps a key to its value;
    - a Python [str] is a Rocq [string] read as a sequence of code points,
      one [ascii] per code point from U+0000 to U+00FF; a text with a code
      point beyond U+00FF is outside the model.  SQLite compares TEXT with
      its BINARY collation, the byte order of the UTF-8 encoding, which is
      the order of the code points: [String.compare] on these strings;
    - a Python [int] is a [Z]; SQLite stores an INTEGER in 64 bits, and the
      [sqlite3] module raises [OverflowError] when it is given another;
    - a Python [float] is an IEEE 754 double: a finite one is given by its
      value, a rational ([Q]); the infinities and NaN are separate values,
      and products are rounded as the machine rounds them.  The sign of a
      zero is not kept: nothing in the program observes it;
    - an aware UTC [datetime] is its number of microseconds since
      1970-01-01T00:00:00Z;
    - effects (the database, the wall clock, [uuid4], the worker's log file)
      live in a [world] that every operation threads through a state and
      exception monad;
    - two things the sources leave to the platform are read from the [world]
      as well, so that every theorem holds whatever the platform does: what
      the C library's [pow] returns, and what [datetime.fromisoformat] makes
      of a timestamp in another shape than the program writes, which differs
      between the versions of Python. *)

From Stdlib Require Import ZArith QArith Qabs Qround Qpower Lia Lqa List String
  Ascii DecimalString.
From stdpp Require Import gmap strings.

Open Scope string_scope.
Open Scope Z_scope.

(** ** Exceptions and the monad of effects *)

Inductive exn : Type :=
| BadParameter (msg : string)     (* typer.BadParameter *)
| IntegrityError (msg : string)   (* sqlite3.IntegrityError *)
| KeyError (key : string)
| ValueError (msg : string)
| OverflowError (msg : string)
| ZeroDivisionError (msg : string)
| AttributeError (msg : string)
| UnicodeDecodeError (msg : string).

Inductive result (A : Type) : Type :=
| Ok (a : A)
| Raise (e : exn).
Arguments Ok {A} a.
Arguments Raise {A} e.

(** ** Python's [float], as far as [worker.py] and [storage.py] use it *)

Module Float.

Inductive float : Type :=
| Finite (x : Q)           (* a double, by its value *)
| Infinity (negative : bool)
| NaN.

(** [errno] after a call of the C library: not set, [ERANGE], or another
    value, with the text of its error. *)
Inductive errno : Type :=
| E0
| ERANGE
| EOTHER (text : string).

(** Nearest integer, ties to the even one. *)
Definition round_half_even (q : Q) : Z :=
  let n := Qnum q in
  let d := Zpos (Qden q) in
  let f := n / d in
  let r2 := 2 * (n mod d) in
  if r2 <? d then f
  else if d <? r2 then f + 1
  else if Z.even f then f else f + 1.

(** The integer part, towards zero ([modf]). *)
Definition truncate (x : Q) : Z := Z.quot (Qnum x) (Zpos (Qden x)).

Definition pow2 (k : Z) : Q := Qpower (2 # 1) k.

(** The exponent [e] of a positive [a]: [2^e <= a < 2^(e+1)]. *)
Definition floor_log2 (a : Q) : Z :=
  let l := Z.log2 (Qnum a) - Z.log2 (Zpos (Qden a)) in
  if Qle_bool (pow2 l) a then l else l - 1.

(** The double nearest to [q], ties to the even mantissa, were the exponent
    unbounded above: 53 bits of mantissa, the last bit worth [2^-1074] at
    least (subnormal numbers). *)
Definition round_double_value (q : Q) : Q :=
  if Qeq_bool q 0 then 0%Q
  else
    let a := Qabs q in
    let k := Z.max (floor_log2 a - 52) (-1074) in
    let m := round_half_even (a / pow2 k) in
    let v := Qred (inject_Z m * pow2 k) in
    if Qle_bool 0 q then v else (- v)%Q.

(** Rounding to a double: beyond the largest double the result is an
    infinity. *)
Definition round_double (q : Q) : float :=
  let v := round_double_value q in
  if Qle_bool (pow2 1024) (Qabs v) then Infinity (negb (Qle_bool 0 q))
  else Finite v.

(** The value of [float(n)] for an integer, as [**] converts its exponent;
    none when [n] is too large for a double. *)
Definition of_int (n : Z) : option Q :=
  match round_double (inject_Z n) with
  | Finite v => Some v
  | _ => None
  end.

(** [x <= 0]. *)
Definition le_zero (x : float) : bool :=
  match x with
  | Finite q => Qle_bool q 0
  | Infinity negative => negative
  | NaN => false
  end.

(** [-x]. *)
Definition neg (x : float) : float :=
  match x with
  | Finite q => Finite (- q)
  | Infinity negative => Infinity (negb negative)
  | NaN => NaN
  end.

End Float.

(** ** Python's [datetime], as far as [utils.py] and [storage.py] use it *)

Module Time.

(** An aware UTC datetime: microseconds since the epoch. *)
Definition datetime : Type := Z.

Definition us_per_second : Z := 1000000.
Definition us_per_day : Z := 86400 * us_per_second.

(** Proleptic Gregorian calendar: day number of a civil date and back. *)
Definition days_from_civil (y m d : Z) : Z :=
  let y' := if m <=? 2 then y - 1 else y in
  let era := y' / 400 in
  let yoe := y' - era * 400 in
  let mp := if 2 <? m then m - 3 else m + 9 in
  let doy := (153 * mp + 2) / 5 + d - 1 in
  let doe := yoe * 365 + yoe / 4 - yoe / 100 + doy in
  era * 146097 + doe - 719468.

Definition civil_from_days (days : Z) : Z * Z * Z :=
  let z := days + 719468 in
  let era := z / 146097 in
  let doe := z - era * 146097 in
  let yoe := (doe - doe / 1460 + doe / 36524 - doe / 146096) / 365 in
  let doy := doe - (365 * yoe + yoe / 4 - yoe / 100) in
  let mp := (5 * doy + 2) / 153 in
  let d := doy - (153 * mp + 2) / 5 + 1 in
  let m := if mp <? 10 then mp + 3 else mp - 9 in
  let y := yoe + era * 400 in
  ((if m <=? 2 then y + 1 else y), m, d).

Definition is_leap (y : Z) : bool :=
  ((y mod 4 =? 0) && negb (y mod 100 =? 0)) || (y mod 400 =? 0).

Definition days_in_month (y m : Z) : Z :=
  if m =? 2 then (if is_leap y then 29 else 28)
  else if (m =? 4) || (m =? 6) || (m =? 9) || (m =? 11) then 30 else 31.

(** [datetime.min] and [datetime.max] (years 1 to 9999). *)
Definition datetime_min : datetime := days_from_civil 1 1 1 * us_per_day.
Definition datetime_max : datetime :=
  (days_from_civil 9999 12 31 + 1) * us_per_day - 1.

Definition in_range (dt : Z) : bool :=
  (datetime_min <=? dt) && (dt <=? datetime_max).

(** *** Printing *)

Definition digit_char (d : Z) : ascii := ascii_of_nat (48 + Z.to_nat d).

(** The last [width] decimal digits of [n], zero padded. *)
Fixpoint zero_padded (width : nat) (n : Z) (acc : string) : string :=
  match width with
  | O => acc
  | S w => zero_padded w (n / 10) (String (digit_char (n mod 10)) acc)
  end.

(** [dt.isoformat()] of an aware UTC datetime: the fraction is printed only
    when the microsecond field is not zero. *)
Definition isoformat (dt : datetime) : string :=
  let days := dt / us_per_day in
  let rest := dt mod us_per_day in
  let '(y, m, d) := civil_from_days days in
  let secs := rest / us_per_second in
  let us := rest mod us_per_second in
  zero_padded 4 y "" ++ "-" ++ zero_padded 2 m "" ++ "-" ++ zero_padded 2 d ""
    ++ "T" ++ zero_padded 2 (secs / 3600) ""
    ++ ":" ++ zero_padded 2 (secs / 60 mod 60) ""
    ++ ":" ++ zero_padded 2 (secs mod 60) ""
    ++ (if us =? 0 then "" else "." ++ zero_padded 6 us "")
    ++ "+00:00".

(** [s.replace("+00:00", "Z")]; [skip] counts the characters of a match
    that are still to be dropped. *)
Fixpoint replace_offset (skip : nat) (s : string) : string :=
  match s with
  | EmptyString => EmptyString
  | String c s' =>
      match skip with
      | S k => replace_offset k s'
      | O => if String.prefix "+00:00" s
             then String "Z" (replace_offset 5 s')
             else String c (replace_offset 0 s')
      end
  end.

(** [s.replace("Z", "+00:00")]. *)
Fixpoint replace_Z (s : string) : string :=
  match s with
  | EmptyString => EmptyString
  | String c s' =>
      if Ascii.eqb c "Z" then "+00:00" ++ replace_Z s'
      else String c (replace_Z s')
  end.

(** *** Parsing *)

Definition digit_value (c : ascii) : option Z :=
  let n := Z.of_nat (nat_of_ascii c) in
  if (48 <=? n) && (n <=? 57) then Some (n - 48) else None.

(** Exactly [k] decimal digits. *)
Fixpoint read_digits (k : nat) (acc : Z) (s : string) : option (Z * string) :=
  match k with
  | O => Some (acc, s)
  | S k' =>
      match s with
      | EmptyString => None
      | String c s' =>
          match digit_value c with
          | Some d => read_digits k' (10 * acc + d) s'
          | None => None
          end
      end
  end.

Definition expect (c : ascii) (s : string) : option string :=
  match s with
  | String c' s' => if Ascii.eqb c c' then Some s' else None
  | EmptyString => None
  end.

(** [datetime.fromisoformat], on the two shapes [isoformat] prints for an
    aware UTC datetime: [YYYY-MM-DDTHH:MM:SS+00:00] and
    [YYYY-MM-DDTHH:MM:SS.ffffff+00:00].  Python accepts further shapes
    (other offsets, naive values, shorter fractions); they are rejected
    here, which is [ValueError] to the caller. *)
Definition fromisoformat (s : string) : option datetime :=
  '(y, s) ← read_digits 4 0 s;
  s ← expect "-" s;
  '(m, s) ← read_digits 2 0 s;
  s ← expect "-" s;
  '(d, s) ← read_digits 2 0 s;
  s ← expect "T" s;
  '(hh, s) ← read_digits 2 0 s;
  s ← expect ":" s;
  '(mm, s) ← read_digits 2 0 s;
  s ← expect ":" s;
  '(ss, s) ← read_digits 2 0 s;
  '(us, s) ← match expect "." s with
              | Some s' => read_digits 6 0 s'
              | None => Some (0, s)
              end;
  if String.eqb s "+00:00"
     && (1 <=? y) && (1 <=? m) && (m <=? 12)
     && (1 <=? d) && (d <=? days_in_month y m)
     && (hh <=? 23) && (mm <=? 59) && (ss <=? 59)
  then Some (days_from_civil y m d * us_per_day
             + ((hh * 60 + mm) * 60 + ss) * us_per_second + us)
  else None.

(** [dt.isoformat().replace("+00:00", "Z")], the form of every timestamp
    the program writes. *)
Definition isoformat_z (dt : datetime) : string :=
  replace_offset 0 (isoformat dt).

(** [datetime.fromisoformat(s.replace("Z", "+00:00"))]. *)
Definition fromisoformat_z (s : string) : option datetime :=
  fromisoformat (replace_Z s).

(** *** Durations *)

(** [timedelta(seconds=s)] for a float, in microseconds.  The whole seconds
    are converted exactly; the fraction is multiplied by a million in
    floating point, and what is left of a microsecond is rounded to the
    nearest one, ties to even.  A [timedelta] holds up to 999999999 days
    either way. *)
Definition microseconds (x : Q) : Z :=
  let intpart := Float.truncate x in
  let fracpart := (x - inject_Z intpart)%Q in
  Float.round_half_even
    (inject_Z (intpart * 1000000)
     + Float.round_double_value ((1000000 # 1) * fracpart))%Q.

Definition timedelta (seconds : Float.float) : result Z :=
  match seconds with
  | Float.NaN => Raise (ValueError "cannot convert float NaN to integer")
  | Float.Infinity _ =>
      Raise (OverflowError "cannot convert float infinity to integer")
  | Float.Finite x =>
      let us := microseconds x in
      let days := us / us_per_day in
      if (days <? - 2 ^ 31) || (2 ^ 31 <=? days)
      then Raise (OverflowError "Python int too large to convert to C int")
      else if (days <? -999999999) || (999999999 <? days)
      then Raise (OverflowError
                    ("days=" ++ NilZero.string_of_int (Z.to_int days)
                       ++ "; must have magnitude <= 999999999"))
      else Ok us
  end.

(** [dt + delta]: [OverflowError] outside the years 1 to 9999. *)
Definition datetime_add (dt : datetime) (delta : Z) : result datetime :=
  if in_range (dt + delta) then Ok (dt + delta)
  else Raise (OverflowError "date value out of range").

End Time.

(** ** constants.py *)

Module Constants.
Definition STATE_PENDING : string := "pending".
Definition STATE_PROCESSING : string := "processing".
Definition STATE_COMPLETED : string := "completed".
Definition STATE_FAILED : string := "failed".
Definition STATE_DEAD : string := "dead".

Definition CONFIG_MAX_RETRIES : string := "max_retries_default".
Definition CONFIG_BACKOFF_BASE : string := "backoff_base".
Definition CONFIG_POLL_INTERVAL : string := "poll_interval".

Definition DEFAULT_MAX_RETRIES : Z := 3.
End Constants.

(** ** The world: database, clock, entropy, log and platform *)

(** A row of [jobs] without its primary key. *)
Record job : Type := Job {
  command : string;
  state : string;
  attempts : Z;
  max_retries : Z;
  created_at : string;
  updated_at : string;
  available_at : string;
  processing_started_at : option string;
  completed_at : option string;
  last_error : option string
}.

Record world : Type := World {
  jobs : gmap string job;                 (* table jobs, by id *)
  config : gmap string (string * string); (* table config: value, updated_at *)
  clock : nat -> Z;      (* the readings the wall clock will give, in order *)
  ticks : nat;           (* how many readings were taken *)
  uuids : nat -> string; (* the values uuid4().hex will give, in order *)
  drawn : nat;           (* how many were drawn *)
  log : list string;     (* what the worker wrote to its log file *)
  (* pow(x, y) of the C library, for doubles x and y, and errno after it *)
  libm_pow : Q -> Q -> Float.float * Float.errno;
  (* what _add_seconds(s, seconds) does when s has another shape than the
     timestamps the program writes *)
  other_timestamps : string -> Float.float -> result string
}.

Definition set_jobs (js : gmap string job) (w : world) : world :=
  World js (config w) (clock w) (ticks w) (uuids w) (drawn w) (log w)
        (libm_pow w) (other_timestamps w).

(** State and exception monad: an exception leaves the world as it was when
    it was raised. *)
Definition M (A : Type) : Type := world -> result A * world.

Definition ret {A} (a : A) : M A := fun w => (Ok a, w).
Definition raise {A} (e : exn) : M A := fun w => (Raise e, w).
Definition bind {A B} (m : M A) (k : A -> M B) : M B :=
  fun w => match m w with
           | (Ok a, w') => k a w'
           | (Raise e, w') => (Raise e, w')
           end.
Definition lift {A} (r : result A) : M A := fun w => (r, w).

(** [try: m except Exception as exc: h exc]; what [m] did before it raised
    stays done. *)
Definition catch {A} (m : M A) (h : exn -> M A) : M A :=
  fun w => match m w with
           | (Ok a, w') => (Ok a, w')
           | (Raise e, w') => h e w'
           end.

(** [str(exc)]. *)
Definition str_of_exn (e : exn) : string :=
  match e with
  | BadParameter msg | IntegrityError msg | ValueError msg
  | OverflowError msg | ZeroDivisionError msg | AttributeError msg
  | UnicodeDecodeError msg => msg
  | KeyError key => "'" ++ key ++ "'"
  end.

Notation "'let*' x ':=' m 'in' k" := (bind m (fun x => k))
  (at level 10, x name, m at level 100, k at level 200).
Notation "'let*' ' p ':=' m 'in' k" :=
  (bind m (fun x => match x with p => k end))
  (at level 10, p pattern, m at level 100, k at level 200).
Notation "m1 ';;' m2" := (bind m1 (fun _ => m2))
  (at level 100, m2 at level 200, right associativity).

(** ** utils.py *)

Module Utils.

(** [utc_now()]: the next reading of the clock. *)
Definition utc_now : M Time.datetime :=
  fun w => (Ok (clock w (ticks w)),
            World (jobs w) (config w) (clock w) (S (ticks w))
                  (uuids w) (drawn w) (log w)
                  (libm_pow w) (other_timestamps w)).

Definition utc_now_str : M string :=
  let* dt := utc_now in
  ret (Time.isoformat_z dt).

Definition uuid4_hex : M string :=
  fun w => (Ok (uuids w (drawn w)),
            World (jobs w) (config w) (clock w) (ticks w)
                  (uuids w) (S (drawn w)) (log w)
                  (libm_pow w) (other_timestamps w)).

Definition generate_job_id : M string :=
  let* hex := uuid4_hex in
  ret ("job-" ++ substring 0 8 hex).

End Utils.
Import Constants Utils.

(** ** storage.py *)

Module AcquiredJob.
(** A job record obtained for processing. *)
Record t : Type := Make {
  id : string;
  command : string;
  attempts : Z;
  max_retries : Z
}.
End AcquiredJob.

Module Storage.

(** What [enqueue_job] reads from its [job] dictionary: one optional entry
    per column, each of the column's declared type. *)
Record job_dict : Type := JobDict {
  d_id : option string;
  d_command : option string;
  d_state : option string;
  d_attempts : option Z;
  d_max_retries : option Z;
  d_created_at : option string;
  d_updated_at : option string;
  d_available_at : option string;
  d_processing_started_at : option string;
  d_completed_at : option string;
  d_last_error : option string
}.

(** [d.get(key, default)]. *)
Definition get_or {A} (o : option A) (default : A) : A :=
  match o with Some a => a | None => default end.

(** [x or y] on strings: the empty string is falsy. *)
Definition str_or (o : option string) (other : string) : string :=
  match o with
  | Some s => if String.eqb s "" then other else s
  | None => other
  end.

Definition query_jobs {A} (f : gmap string job -> A) : M A :=
  fun w => (Ok (f (jobs w)), w).

Definition modify_jobs (f : gmap string job -> gmap string job) : M unit :=
  fun w => (Ok tt, set_jobs (f (jobs w)) w).

(** SQLite keeps an INTEGER in 64 bits: [sqlite3] raises when a statement
    is given an [int] outside them, before the statement runs. *)
Definition int64 (n : Z) : bool := (- 2 ^ 63 <=? n) && (n <? 2 ^ 63).

Definition bind_int (n : Z) : M unit :=
  if int64 n then ret tt
  else raise (OverflowError
                "Python int too large to convert to SQLite INTEGER").

(** [INSERT INTO jobs]: the primary key must be new. *)
Definition insert_job (job_id : string) (record : job) : M unit :=
  let* existing := query_jobs (lookup job_id) in
  match existing with
  | Some _ => raise (IntegrityError "UNIQUE constraint failed: jobs.id")
  | None => modify_jobs (insert job_id record)
  end.

(** [UPDATE jobs SET ... WHERE id = ?]: the rows that match are rewritten,
    none when the id is absent. *)
Definition update_where_id (job_id : string) (set : job -> job) : M unit :=
  modify_jobs (alter set job_id).

Definition get_config (key : string) : M (option string) :=
  fun w => (Ok (fst <$> config w !! key), w).

Definition enqueue_job (d : job_dict) : M unit :=
  let* now := utc_now_str in
  let available_at := str_or (d_available_at d) now in
  match d_id d, d_command d with
  | Some job_id, Some cmd =>
      let record := Job cmd
                        (get_or (d_state d) STATE_PENDING)
                        (get_or (d_attempts d) 0)
                        (get_or (d_max_retries d) DEFAULT_MAX_RETRIES)
                        (get_or (d_created_at d) now)
                        (get_or (d_updated_at d) now)
                        available_at
                        (d_processing_started_at d)
                        (d_completed_at d)
                        (d_last_error d) in
      bind_int (attempts record) ;;
      bind_int (max_retries record) ;;
      insert_job job_id record
  | None, _ => raise (KeyError "id")
  | _, None => raise (KeyError "command")
  end.

Definition get_job (job_id : string) : M (option job) :=
  query_jobs (lookup job_id).

(** [WHERE state IN (pending, failed) AND available_at <= now], on TEXT. *)
Definition eligible (now : string) (j : job) : bool :=
  (String.eqb (state j) STATE_PENDING || String.eqb (state j) STATE_FAILED)
  && String.leb (available_at j) now.

(** [ORDER BY created_at LIMIT 1]: a row whose [created_at] is least; among
    equal ones the first in scan order, an order SQLite does not promise. *)
Fixpoint first_by_created_at (rows : list (string * job))
  : option (string * job) :=
  match rows with
  | [] => None
  | r :: rest =>
      match first_by_created_at rest with
      | None => Some r
      | Some r' =>
          if String.leb (created_at (snd r)) (created_at (snd r'))
          then Some r else Some r'
      end
  end.

Definition select_next (now : string) (js : gmap string job)
  : option (string * job) :=
  first_by_created_at
    (List.filter (fun r => eligible now (snd r)) (map_to_list js)).

Definition claim (now : string) (j : job) : job :=
  Job (command j) STATE_PROCESSING (attempts j) (max_retries j)
      (created_at j) now (available_at j)
      (Some now) (completed_at j) (last_error j).

Definition acquire_next_job (now : string) : M (option AcquiredJob.t) :=
  let* selected := query_jobs (select_next now) in
  match selected with
  | None => ret None
  | Some (row_id, row) =>
      update_where_id row_id (claim now) ;;
      ret (Some (AcquiredJob.Make row_id (command row)
                   (attempts row) (max_retries row)))
  end.

Definition complete (attempts' : Z) (now : string) (j : job) : job :=
  Job (command j) STATE_COMPLETED attempts' (max_retries j)
      (created_at j) now (available_at j)
      (processing_started_at j) (Some now) (last_error j).

Definition mark_job_completed (job_id : string) (attempts' : Z)
    (now : string) : M unit :=
  bind_int attempts' ;;
  update_where_id job_id (complete attempts' now).

(** On a timestamp of one of the two shapes the program writes, with [Z]
    or [+00:00] for the offset; what Python makes of any other text is
    read from the world. *)
Definition _add_seconds (iso_timestamp : string) (seconds : Float.float)
  : M string :=
  match Time.fromisoformat_z iso_timestamp with
  | None => fun w => (other_timestamps w iso_timestamp seconds, w)
  | Some dt =>
      let* delta := lift (Time.timedelta seconds) in
      let* dt' := lift (Time.datetime_add dt delta) in
      ret (Time.isoformat_z dt')
  end.

Definition fail (new_state : string) (attempts' : Z) (now next_available : string)
    (error : string) (j : job) : job :=
  Job (command j) new_state attempts' (max_retries j)
      (created_at j) now next_available
      (processing_started_at j) (completed_at j)
      (Some (substring 0 512 error)).

(** [backoff_seconds] is a float, or the integer [0] that the worker passes
    for a job it will not retry: [Finite 0] here, the function only
    compares it with [0]. *)
Definition mark_job_failed (job_id : string) (attempts' max_retries' : Z)
    (error now : string) (backoff_seconds : Float.float) : M unit :=
  let* next_available :=
    if Float.le_zero backoff_seconds then utc_now_str
    else _add_seconds now backoff_seconds in
  let new_state :=
    if attempts' <? max_retries' then STATE_FAILED else STATE_DEAD in
  bind_int attempts' ;;
  update_where_id job_id
    (fail new_state attempts' now next_available error).

Definition reset (now : string) (j : job) : job :=
  Job (command j) STATE_PENDING 0 (max_retries j)
      (created_at j) now now
      (processing_started_at j) (completed_at j) (last_error j).

Definition reset_job (job_id now : string) : M unit :=
  update_where_id job_id (reset now).

Definition delete_job (job_id : string) : M unit :=
  modify_jobs (delete job_id).

End Storage.
Import Storage.

(** ** worker.py *)

Module Worker.

Record WorkerSettings : Type := Settings {
  worker_id : string;
  poll_interval : Float.float;
  backoff_base : Float.float
}.

(** *** The stop check *)

(** A JSON document as [json.load] returns it. *)
#[local] Unset Elimination Schemes.
Inductive json : Type :=
| JNull
| JBool (b : bool)
| JInt (n : Z)
| JFloat (q : Q)
| JString (s : string)
| JArray (items : list json)
| JObject (members : list (string * json)).
#[local] Set Elimination Schemes.

(** The control file as [_should_stop] finds it: absent, bytes that are not
    UTF-8, text that is not JSON, or a JSON document. *)
Inductive control_file : Type :=
| Missing
| NotUtf8
| NotJson
| Document (payload : json).

(** [d.get(key)] on the dictionary built from an object: a repeated name
    keeps its last value. *)
Fixpoint dict_get (key : string) (members : list (string * json))
  : option json :=
  match members with
  | [] => None
  | (k, v) :: rest =>
      match dict_get key rest with
      | Some v' => Some v'
      | None => if String.eqb k key then Some v else None
      end
  end.

(** [bool(v)]. *)
Definition truthy (v : json) : bool :=
  match v with
  | JNull => false
  | JBool b => b
  | JInt n => negb (n =? 0)
  | JFloat q => negb (Qeq_bool q 0)
  | JString s => negb (String.eqb s "")
  | JArray items => match items with [] => false | _ => true end
  | JObject members => match members with [] => false | _ => true end
  end.

Definition _should_stop (_stop_requested : bool) (file : control_file)
  : result bool :=
  if _stop_requested then Ok true
  else match file with
       | Missing => Ok false
       | NotUtf8 =>
           Raise (UnicodeDecodeError "'utf-8' codec can't decode byte")
       | NotJson => Ok false                    (* except JSONDecodeError *)
       | Document (JObject members) =>
           Ok (match dict_get "stop" members with
               | Some v => truthy v
               | None => false
               end)
       | Document _ =>
           Raise (AttributeError "object has no attribute 'get'")
       end.

(** *** One turn of the loop in [Worker.run] *)

(** What [subprocess.run] did with the command. *)
Inductive run_outcome : Type :=
| Returned (returncode : Z) (stdout stderr : string)
| TimeoutExpired
| FileNotFoundError
| PermissionError
| OtherException (text : string).      (* str(exc) of any other exception *)

Definition nl : string := String (ascii_of_nat 10) "".

(** [str(n)] of an integer. *)
Definition str_of_int (n : Z) : string := NilZero.string_of_int (Z.to_int n).

(** [c.isspace()] for a code point below U+0100: the ASCII white space,
    NEXT LINE (U+0085) and NO-BREAK SPACE (U+00A0). *)
Definition isspace (c : ascii) : bool :=
  let n := nat_of_ascii c in
  (((9 <=? n) && (n <=? 13)) || ((28 <=? n) && (n <=? 32))
   || (n =? 133) || (n =? 160))%nat.

(** [not s.strip()]: nothing but white space. *)
Fixpoint blank (s : string) : bool :=
  match s with
  | EmptyString => true
  | String c s' => isspace c && blank s'
  end.

(** [a or b] on strings. *)
Definition or_else (a b : string) : string :=
  if String.eqb a "" then b else a.

Definition write_log (line : string) : M unit :=
  fun w => (Ok tt, World (jobs w) (config w) (clock w) (ticks w)
                         (uuids w) (drawn w) (log w ++ [line])
                         (libm_pow w) (other_timestamps w)).

Definition when (b : bool) (m : M unit) : M unit := if b then m else ret tt.

(** The [try] statement: runs the command, settles a success at once and
    returns [exit_code] and [error_message].  An exception of
    [mark_job_completed] is caught by [except Exception] like one of the
    command. *)
Definition execute (job : AcquiredJob.t) (attempts' : Z) (out : run_outcome)
  : M (Z * option string) :=
  match out with
  | Returned exit_code stdout stderr =>
      if exit_code =? 0 then
        catch
          (let* now := utc_now_str in
           mark_job_completed (AcquiredJob.id job) attempts' now ;;
           let* t := utc_now_str in
           write_log ("[" ++ t ++ "] job " ++ AcquiredJob.id job
                          ++ " completed" ++ nl) ;;
           when (negb (String.eqb stdout "")) (write_log (stdout ++ nl)) ;;
           ret (exit_code, None))
          (fun exc =>
             ret (-1, Some ("Error executing command: " ++ str_of_exn exc)))
      else
        let error_message :=
          or_else stderr
            (or_else stdout
               ("Command exited with code " ++ str_of_int exit_code)) in
        let error_message :=
          if blank error_message
          then "Command failed with exit code " ++ str_of_int exit_code
                 ++ " (no error output)"
          else error_message in
        ret (exit_code, Some error_message)
  | TimeoutExpired =>
      ret (-1, Some "Command execution timed out after 1 hour")
  | FileNotFoundError =>
      ret (127, Some ("Command not found: '" ++ AcquiredJob.command job
                        ++ "'. The command or executable does not exist."))
  | PermissionError =>
      ret (126, Some ("Permission denied executing command: '"
                        ++ AcquiredJob.command job ++ "'"))
  | OtherException text =>
      ret (-1, Some ("Error executing command: " ++ text))
  end.

(** [base ** n] for a float and an integer: the exponent is converted to
    a float, the cases with an infinity, a zero or a one are settled at
    once, and the C library's [pow] does the rest, on the absolute value
    of the base; an overflow it reports is raised, an underflow to zero is
    not. *)
Definition float_pow (base : Float.float) (n : Z) : M Float.float :=
  match Float.of_int n with
  | None => raise (OverflowError "int too large to convert to float")
  | Some iw =>
      if Qeq_bool iw 0 then ret (Float.Finite 1)
      else
        let odd := Z.odd (Qfloor iw) in
        match base with
        | Float.NaN => ret Float.NaN
        | Float.Infinity negative =>
            if Qle_bool iw 0 then ret (Float.Finite 0)
            else ret (Float.Infinity (negative && odd))
        | Float.Finite iv =>
            if Qeq_bool iv 0 then
              if Qle_bool 0 iw then ret (Float.Finite 0)
              else raise (ZeroDivisionError
                            "0.0 cannot be raised to a negative power")
            else
              let negate_result := negb (Qle_bool 0 iv) && odd in
              let iv := Qabs iv in
              if Qeq_bool iv 1
              then ret (Float.Finite (if negate_result then -1 else 1))
              else
                fun w =>
                  let '(ix, errno) := libm_pow w iv iw in
                  let errno :=
                    match errno, ix with
                    | Float.E0, Float.Infinity _ => Float.ERANGE
                    | Float.ERANGE, Float.Finite z =>
                        if Qeq_bool z 0 then Float.E0 else Float.ERANGE
                    | _, _ => errno
                    end in
                  let ix := if negate_result then Float.neg ix else ix in
                  match errno with
                  | Float.E0 => (Ok ix, w)
                  | Float.ERANGE =>
                      (Raise (OverflowError
                                "(34, 'Numerical result out of range')"), w)
                  | Float.EOTHER text => (Raise (ValueError text), w)
                  end
        end
  end.

(** The error text handed to [mark_job_failed]. *)
Definition error_text (exit_code : Z) (error_message : option string)
  : string :=
  or_else (Storage.get_or error_message "")
          ("Command failed with exit code " ++ str_of_int exit_code).

(** The lines the worker logs once [mark_job_failed] has returned. *)
Definition log_failure (job : AcquiredJob.t) (attempts' : Z)
    (should_retry : bool) (error_message : option string) : M unit :=
  let state' := if should_retry then STATE_FAILED else STATE_DEAD in
  let* t := utc_now_str in
  write_log ("[" ++ t ++ "] job " ++ AcquiredJob.id job ++ " " ++ state'
                 ++ " (attempt " ++ str_of_int attempts' ++ "/"
                 ++ str_of_int (AcquiredJob.max_retries job) ++ ")" ++ nl) ;;
  when (negb (String.eqb (Storage.get_or error_message "") ""))
       (write_log ("Error: " ++ Storage.get_or error_message "" ++ nl)) ;;
  when (String.eqb state' STATE_DEAD)
       (let* t' := utc_now_str in
        write_log ("[" ++ t' ++ "] job " ++ AcquiredJob.id job
                       ++ " moved to Dead Letter Queue (DLQ) after "
                       ++ str_of_int attempts' ++ " failed attempts" ++ nl)).

(** The branch [if exit_code != 0]. *)
Definition handle_failure (settings : WorkerSettings) (job : AcquiredJob.t)
    (attempts' exit_code : Z) (error_message : option string) : M unit :=
  let* backoff_seconds := float_pow (backoff_base settings) attempts' in
  let should_retry := attempts' <? AcquiredJob.max_retries job in
  let* now := utc_now_str in
  mark_job_failed (AcquiredJob.id job) attempts' (AcquiredJob.max_retries job)
    (error_text exit_code error_message) now
    (if should_retry then backoff_seconds else Float.Finite 0) ;;
  log_failure job attempts' should_retry error_message.

(** What follows [picked job]: run the command, settle the job. *)
Definition process (settings : WorkerSettings) (job : AcquiredJob.t)
    (out : run_outcome) : M unit :=
  let attempts' := AcquiredJob.attempts job + 1 in
  let* '(exit_code, error_message) := execute job attempts' out in
  when (negb (exit_code =? 0))
       (handle_failure settings job attempts' exit_code error_message).

(** The body of the [while] loop; [out] is what the command does in case
    a job is picked.  With no job the worker sleeps and polls again. *)
Definition iteration (settings : WorkerSettings) (out : run_outcome)
  : M unit :=
  let* now := utc_now_str in
  let* job := acquire_next_job now in
  match job with
  | None => ret tt
  | Some job =>
      let* t := utc_now_str in
      write_log ("[" ++ t ++ "] picked job " ++ AcquiredJob.id job ++ nl) ;;
      process settings job out
  end.

End Worker.
Import Worker.

(** ** cli.py and web.py: the commands that the claims concern *)

Module Cli.

(** The positional [job_json] argument after [parse_json_argument]. *)
Inductive json_argument : Type :=
| NoPayload                       (* absent or empty *)
| InvalidJson (msg : string)      (* json.JSONDecodeError *)
| Payload (d : job_dict).

Definition empty_dict : job_dict :=
  JobDict None None None None None None None None None None None.

(** [if s:] for an optional string. *)
Definition given (o : option string) : bool :=
  match o with Some s => negb (String.eqb s "") | None => false end.

(** [payload[key] = v] and [payload.setdefault(key, v)], per key. *)
Definition set_id (v : string) (d : job_dict) : job_dict :=
  JobDict (Some v) (d_command d) (d_state d) (d_attempts d) (d_max_retries d)
    (d_created_at d) (d_updated_at d) (d_available_at d)
    (d_processing_started_at d) (d_completed_at d) (d_last_error d).
Definition set_command (v : string) (d : job_dict) : job_dict :=
  JobDict (d_id d) (Some v) (d_state d) (d_attempts d) (d_max_retries d)
    (d_created_at d) (d_updated_at d) (d_available_at d)
    (d_processing_started_at d) (d_completed_at d) (d_last_error d).
Definition set_max_retries (v : Z) (d : job_dict) : job_dict :=
  JobDict (d_id d) (d_command d) (d_state d) (d_attempts d) (Some v)
    (d_created_at d) (d_updated_at d) (d_available_at d)
    (d_processing_started_at d) (d_completed_at d) (d_last_error d).
Definition default {A} (o : option A) (v : A) : option A :=
  match o with Some a => Some a | None => Some v end.
Definition setdefaults (state' : string) (attempts' max_retries' : Z)
    (now : string) (d : job_dict) : job_dict :=
  let created := default (d_created_at d) now in
  JobDict (d_id d) (d_command d) (default (d_state d) state')
    (default (d_attempts d) attempts') (default (d_max_retries d) max_retries')
    created
    (default (d_updated_at d) (Storage.get_or created now))
    (default (d_available_at d) (Storage.get_or created now))
    (d_processing_started_at d) (d_completed_at d) (d_last_error d).

(** [int(s)] for a string, in base 10: white space, an optional sign,
    decimal digits with single underscores between them, white space.  The
    white space [int] passes over is not all that [str.isspace] knows: the
    separators U+001C to U+001F are no part of it.  Since Python 3.11 a
    literal of more than 4300 digits is refused.  (The messages of Python go
    on with the literal or its length.) *)
Definition int_space (c : ascii) : bool :=
  let n := nat_of_ascii c in
  (((9 <=? n) && (n <=? 13)) || (n =? 32) || (n =? 133) || (n =? 160))%nat.

Fixpoint int_spaces (s : string) : bool :=
  match s with
  | EmptyString => true
  | String c s' => int_space c && int_spaces s'
  end.

Fixpoint int_lstrip (s : string) : string :=
  match s with
  | String c s' => if int_space c then int_lstrip s' else s
  | EmptyString => s
  end.

(** The value and the number of the digits; [after_digit] tells whether the
    character before was a digit. *)
Fixpoint digits_value (acc : Z) (count : nat) (after_digit : bool)
    (s : string) : option (Z * nat) :=
  match s with
  | EmptyString => if after_digit then Some (acc, count) else None
  | String c s' =>
      match Time.digit_value c with
      | Some d => digits_value (10 * acc + d) (S count) true s'
      | None =>
          if negb after_digit then None
          else if Ascii.eqb c "_" then digits_value acc count false s'
          else if int_spaces s then Some (acc, count)
          else None
      end
  end.

Definition int_of_str (s : string) : result Z :=
  let s := int_lstrip s in
  let '(negative, digits) :=
    match s with
    | String "-" r => (true, r)
    | String "+" r => (false, r)
    | _ => (false, s)
    end in
  match digits_value 0 0 false digits with
  | Some (n, count) =>
      if (4300 <? count)%nat
      then Raise (ValueError
                    "Exceeds the limit (4300 digits) for integer string conversion")
      else Ok (if negative then - n else n)
  | None => Raise (ValueError "invalid literal for int() with base 10")
  end.

(** [int(get_config(CONFIG_MAX_RETRIES) or DEFAULT_MAX_RETRIES)]. *)
Definition configured_max_retries : M Z :=
  let* value := get_config CONFIG_MAX_RETRIES in
  if given value then lift (int_of_str (Storage.get_or value ""))
  else ret DEFAULT_MAX_RETRIES.

Definition enqueue (job_json : json_argument) (id command : option string)
    (max_retries : option Z) : M unit :=
  let* payload :=
    match job_json with
    | NoPayload => ret empty_dict
    | InvalidJson msg => raise (ValueError ("Invalid JSON payload: " ++ msg))
    | Payload d => ret d
    end in
  let payload :=
    if given id then set_id (Storage.get_or id "") payload else payload in
  let payload :=
    if given command then set_command (Storage.get_or command "") payload
    else payload in
  match d_command payload with
  | None => raise (BadParameter "Command is required")
  | Some _ =>
      let* payload :=
        match d_id payload with
        | Some _ => ret payload
        | None => let* fresh := generate_job_id in ret (set_id fresh payload)
        end in
      let job_id := Storage.get_or (d_id payload) "" in
      let* existing := get_job job_id in
      match existing with
      | Some _ => raise (BadParameter ("Job " ++ job_id ++ " already exists"))
      | None =>
          let* retries :=
            match max_retries with
            | Some n => ret n
            | None => configured_max_retries
            end in
          let payload :=
            match max_retries with
            | Some n => set_max_retries n payload
            | None => payload
            end in
          let* now := utc_now_str in
          enqueue_job (setdefaults STATE_PENDING 0 retries now payload)
      end
  end.

Definition delete_job_cli (job_id : string) : M unit :=
  let* job := get_job job_id in
  match job with
  | None => raise (BadParameter ("Job " ++ job_id ++ " not found"))
  | Some _ => delete_job job_id
  end.

Definition dlq_retry (job_id : string) : M unit :=
  let* job := get_job job_id in
  match job with
  | Some j =>
      if String.eqb (state j) STATE_DEAD
      then let* now := utc_now_str in reset_job job_id now
      else raise (BadParameter "Job not found in DLQ")
  | None => raise (BadParameter "Job not found in DLQ")
  end.

End Cli.

Module Web.

(** [POST /api/jobs]: the HTTP status of the answer.  [data] holds the
    [id], [command] and [max_retries] entries of the request body. *)
Definition api_enqueue_job (id command : option string)
    (max_retries : option Z) : M Z :=
  let* job_id :=
    if Cli.given id then ret (Storage.get_or id "") else generate_job_id in
  if negb (Cli.given command) then ret 400
  else
    let* existing := get_job job_id in
    match existing with
    | Some _ => ret 400
    | None =>
        let* now := utc_now_str in
        let* retries :=
          match max_retries with
          | Some n => if n =? 0 then Cli.configured_max_retries else ret n
          | None => Cli.configured_max_retries
          end in
        enqueue_job
          (JobDict (Some job_id) command (Some STATE_PENDING) (Some 0)
             (Some retries) (Some now) (Some now) (Some now) None None None) ;;
        ret 200
    end.

End Web.

(** ** storage.py: the [config] table *)

Module ConfigTable.

Definition DEFAULT_BACKOFF_BASE : Z := 2.
(** [str(constants.DEFAULT_POLL_INTERVAL)], the float [2.0]. *)
Definition DEFAULT_POLL_INTERVAL_str : string := "2.0".

Definition query_config {A} (f : gmap string (string * string) -> A) : M A :=
  fun w => (Ok (f (config w)), w).

Definition modify_config
    (f : gmap string (string * string) -> gmap string (string * string))
  : M unit :=
  fun w => (Ok tt, World (jobs w) (f (config w)) (clock w) (ticks w)
                         (uuids w) (drawn w) (log w)
                         (libm_pow w) (other_timestamps w)).

(** Ensure a config key exists; set default if missing. *)
Definition ensure_config_default (key value : string) : M unit :=
  let* existing := query_config (lookup key) in
  match existing with
  | None =>
      let* now := utc_now_str in
      modify_config (insert key (value, now))
  | Some _ => ret tt
  end.

(** [INSERT ... ON CONFLICT(key) DO UPDATE]. *)
Definition set_config (key value : string) : M unit :=
  let* now := utc_now_str in
  modify_config (insert key (value, now)).

(** [CREATE TABLE IF NOT EXISTS] leaves tables that exist alone, and the
    world always has both; what remains are the three defaults. *)
Definition init_db : M unit :=
  ensure_config_default CONFIG_MAX_RETRIES
    (Worker.str_of_int DEFAULT_MAX_RETRIES) ;;
  ensure_config_default CONFIG_BACKOFF_BASE
    (Worker.str_of_int DEFAULT_BACKOFF_BASE) ;;
  ensure_config_default CONFIG_POLL_INTERVAL DEFAULT_POLL_INTERVAL_str.

End ConfigTable.

(** ** cli.py: the dead letter queue and the stop request *)

Module Dlq.

Definition dlq_delete (job_id : string) : M unit :=
  let* job := get_job job_id in
  match job with
  | Some j =>
      if String.eqb (state j) STATE_DEAD
      then delete_job job_id
      else raise (BadParameter "Job not found in DLQ")
  | None => raise (BadParameter "Job not found in DLQ")
  end.

End Dlq.

Module Control.

(** What reading or rewriting a JSON side file can raise. *)
Inductive file_error : Type :=
| JSONDecodeError
| NotUtf8Error
| TypeError.

(** [json.dump(..., sort_keys=True)] writes the entries of a dictionary in
    the order of their keys; a dictionary holds one value per key, the last
    one given. *)
Fixpoint put_sorted (key : string) (v : json) (members : list (string * json))
  : list (string * json) :=
  match members with
  | [] => [(key, v)]
  | (k, v') :: rest =>
      if String.eqb key k then (key, v) :: rest
      else if String.ltb key k then (key, v) :: members
      else (k, v') :: put_sorted key v rest
  end.

Definition sort_members (members : list (string * json))
  : list (string * json) :=
  fold_left (fun acc kv => put_sorted (fst kv) (snd kv) acc) members [].

(** The document a reader finds after [write_json(path, payload)]. *)
Fixpoint dumped (v : json) : json :=
  match v with
  | JArray items => JArray (List.map dumped items)
  | JObject members =>
      JObject (sort_members
                 (List.map (fun kv => (fst kv, dumped (snd kv))) members))
  | _ => v
  end.

Definition write_json (payload : json) : control_file :=
  Document (dumped payload).

(** Load JSON from path or return default. *)
Definition load_json (file : control_file) (default : json)
  : file_error + json :=
  match file with
  | Missing => inr default
  | NotUtf8 => inl NotUtf8Error
  | NotJson => inl JSONDecodeError
  | Document v => inr v
  end.

(** [payload[key] = v]: on a dictionary the entry is set, on anything else
    Python raises [TypeError]. *)
Definition setitem (key : string) (v : json) (payload : json)
  : file_error + json :=
  match payload with
  | JObject members => inr (JObject (members ++ [(key, v)]))
  | _ => inl TypeError
  end.

(** The control file after [_request_worker_stop(worker_id)]; without a
    worker id nothing is read or written. *)
Definition _request_worker_stop (worker_id : option string)
    (file : control_file) : file_error + control_file :=
  if negb (Cli.given worker_id) then inr file
  else
    match load_json file
            (JObject [("id", JString (Storage.get_or worker_id ""))]) with
    | inl e => inl e
    | inr payload =>
        match setitem "stop" (JBool true) payload with
        | inl e => inl e
        | inr payload' => inr (write_json payload')
        end
    end.

(** The control file [_spawn_worker] writes before it starts the process. *)
Definition spawned_control (worker_id now : string) : control_file :=
  write_json (JObject [("id", JString worker_id); ("stop", JBool false);
                       ("created_at", JString now)]).

End Control.

(** ** worker.py: the loop of [Worker.run] *)

Module Loop.

(** What one turn of the loop meets: whether a signal has set the stop flag,
    the control file, and what the command does in case a job is picked. *)
Definition turn : Type := (bool * control_file * run_outcome)%type.

(** [while not self._should_stop(): ...] over the turns of a script: [true]
    when the loop was left, [false] when the script ended first.  An
    exception of the stop check ends the worker. *)
Fixpoint run_loop (settings : WorkerSettings) (script : list turn) : M bool :=
  match script with
  | [] => ret false
  | (flag, file, out) :: rest =>
      match _should_stop flag file with
      | Raise e => raise e
      | Ok true => ret true
      | Ok false => iteration settings out ;; run_loop settings rest
      end
  end.

End Loop.

(** ** web.py: a request as Flask serves it *)

Module Routes.

(** [_initialise()]: the paths and directories are no part of the world;
    what is left of it is [init_db]. *)
Definition _initialise : M unit := ConfigTable.init_db.

(** [POST /api/jobs], the whole handler: [_initialise()], then the body. *)
Definition api_enqueue_job (id command : option string)
    (max_retries : option Z) : M Z :=
  _initialise ;;
  Web.api_enqueue_job id command max_retries.

End Routes.

(** * Properties *)

(** ** Vocabulary *)

(** The order SQLite puts on TEXT. *)
Definition text_le (a b : string) : Prop := String.leb a b = true.

(** A row that [acquire_next_job] may pick at [now]. *)
Definition claimable (now : string) (j : job) : Prop :=
  (state j = STATE_PENDING \/ state j = STATE_FAILED)
  /\ text_le (available_at j) now.

(** The arguments with which [mark_job_failed] gets a retry time: no
    positive delay, for which it reads the clock, or a timestamp and a delay
    for which [_add_seconds] returns. *)
Definition timed (now : string) (backoff_seconds : Float.float) (w : world)
  : Prop :=
  Float.le_zero backoff_seconds = true
  \/ exists next, fst (_add_seconds now backoff_seconds w) = Ok next.

(** The world after one more reading of the clock. *)
Definition ticked (w : world) : world :=
  World (jobs w) (config w) (clock w) (S (ticks w)) (uuids w) (drawn w) (log w)
        (libm_pow w) (other_timestamps w).

(** The double with the given mantissa and exponent, as [float.hex] shows
    it: [double 0x1000001ad7f29b (-52)] is the float [1.0000001]. *)
Definition double (mantissa exponent : Z) : Q :=
  Qred (inject_Z mantissa * Float.pow2 exponent).

(** The state the specification gives a job after a failure: [failed] while
    [attempts <= max_retries], [dead] beyond. *)
Definition spec_failure_state (attempts' max_retries' : Z) : string :=
  if attempts' <=? max_retries' then STATE_FAILED else STATE_DEAD.

(** The state [mark_job_failed] writes. *)
Definition failure_state (attempts' max_retries' : Z) : string :=
  if attempts' <? max_retries' then STATE_FAILED else STATE_DEAD.

(** No character of [s] is [+] or [Z]: the two replacements pass over it. *)
Fixpoint plainb (s : string) : bool :=
  match s with
  | EmptyString => true
  | String c s' =>
      negb (Ascii.eqb c "+") && negb (Ascii.eqb c "Z") && plainb s'
  end.

(** A computation that cannot raise and leaves both tables alone. *)
Definition quiet {A} (m : M A) : Prop :=
  forall w, exists a w',
    m w = (Ok a, w') /\ jobs w' = jobs w /\ config w' = config w.

(** The command did not succeed: a non-zero exit code or an exception. *)
Definition failed_run (out : run_outcome) : Prop :=
  match out with
  | Returned returncode _ _ => returncode <> 0
  | _ => True
  end.

(** The instant at which a job that failed at [now] is available again,
    when the delay passed to [mark_job_failed] is [backoff_seconds] and the
    next reading of the clock is [next_reading]; an exception when the
    delay or the instant cannot be had. *)
Definition retry_instant (now next_reading : Z) (backoff_seconds : Float.float)
  : result Z :=
  if Float.le_zero backoff_seconds then Ok next_reading
  else match Time.timedelta backoff_seconds with
       | Ok delta => Time.datetime_add now delta
       | Raise e => Raise e
       end.

(** A world for examples: the clock starts at 2024-01-02T03:04:05.678901Z
    and advances by a quarter of a second per reading; the C library rounds
    the powers it is asked for correctly (integral exponents), and no other
    shape of timestamp is read. *)
Definition example_clock (n : nat) : Z := 1704164645678901 + 250000 * Z.of_nat n.
Definition example_uuids (n : nat) : string :=
  "3f2a9c0e5b7d4e1f8a6b0c2d4e6f8a1" ++ Worker.str_of_int (Z.of_nat n).
Definition example_pow (x y : Q) : Float.float * Float.errno :=
  match Float.round_double (Qpower x (Qfloor y)) with
  | Float.Infinity negative => (Float.Infinity negative, Float.ERANGE)
  | v => (v, Float.E0)
  end.
Definition example_other (s : string) (seconds : Float.float) : result string :=
  Raise (ValueError "Invalid isoformat string").
Definition example_job (st : string) (n m : Z) (created available : string)
  : job :=
  Job "exit 1" st n m created created available None None None.
Definition example_world (js : gmap string job) : world :=
  World js ∅ example_clock 0 example_uuids 0 [] example_pow example_other.

(** A queue with nothing to do at 03:04:05: one job is done, the other is
    backing off until 03:04:07. *)
Definition idle_jobs : gmap string job :=
  <["j1" := example_job STATE_COMPLETED 1 3
              "2024-01-02T03:00:00Z" "2024-01-02T03:00:00Z"]>
    (<["j2" := example_job STATE_FAILED 1 3
                 "2024-01-02T03:00:01Z" "2024-01-02T03:04:07Z"]> ∅).

(** A queue with one job being processed, on its first attempt. *)
Definition busy_jobs : gmap string job :=
  <["j1" := example_job STATE_PROCESSING 0 3
              "2024-01-02T03:00:00Z" "2024-01-02T03:00:00Z"]> ∅.

(** A world with an empty queue whose clock shows 03:04:05 exactly, then
    half a second more at each reading. *)
Definition whole_second_clock (n : nat) : Z :=
  1704164645000000 + 500000 * Z.of_nat n.
Definition whole_second_world : world :=
  World ∅ ∅ whole_second_clock 0 example_uuids 0 [] example_pow example_other.

(** The dictionary [{"id": job_id, "command": cmd}]. *)
Definition id_and_command (job_id cmd : string) : job_dict :=
  JobDict (Some job_id) (Some cmd) None None None None None None None None None.

(** A queue with one job, backing off until half past 03:04:05. *)
Definition backing_off_jobs : gmap string job :=
  <["j2" := example_job STATE_FAILED 1 3
              "2024-01-02T03:00:01Z" "2024-01-02T03:04:05.500000Z"]> ∅.

(** The queue [idle_jobs] with a configured default for the retry limit. *)
Definition configured_world (value : string) : world :=
  World idle_jobs
        (<[CONFIG_MAX_RETRIES := (value, "2024-01-01T00:00:00Z")]> ∅)
        example_clock 0 example_uuids 0 [] example_pow example_other.

(** No row is being processed. *)
Definition none_processing (js : gmap string job) : Prop :=
  forall id j, js !! id = Some j -> state j <> STATE_PROCESSING.

(** A row the worker will not pick: neither pending nor failed. *)
Definition out_of_queue (j : job) : Prop :=
  state j <> STATE_PENDING /\ state j <> STATE_FAILED.

(** A row the worker may pick sooner or later: pending or failed. *)
Definition in_queue (j : job) : bool :=
  String.eqb (state j) STATE_PENDING || String.eqb (state j) STATE_FAILED.

(** How high the attempts of a row can get while workers run it: a row in
    the queue is run once more at least, and failures requeue it only while
    its attempts stay below [max_retries]. *)
Definition attempts_bound (j : job) : Z :=
  Z.max (attempts j + (if in_queue j then 1 else 0)) (max_retries j).

(** The state of a job the worker has settled. *)
Definition settled (j : job) : Prop :=
  state j = STATE_COMPLETED \/ state j = STATE_FAILED \/ state j = STATE_DEAD.

(** The columns no update writes. *)
Definition same_identity (j j' : job) : Prop :=
  command j' = command j /\ max_retries j' = max_retries j
  /\ created_at j' = created_at j.

(** The rows of [w'] are those of [w], each with the identity it had. *)
Definition same_rows (w w' : world) : Prop :=
  (forall id, jobs w' !! id = None <-> jobs w !! id = None)
  /\ (forall id j, jobs w !! id = Some j ->
        exists j', jobs w' !! id = Some j' /\ same_identity j j').

(** A computation that, raise or not, changes no row but that of [job_id]
    and nothing of the [config] table. *)
Definition touches_only {A} (job_id : string) (m : M A) : Prop :=
  forall w,
    (forall other, other <> job_id ->
                   jobs (snd (m w)) !! other = jobs w !! other)
    /\ config (snd (m w)) = config w.

(** The keys of a list of entries rise strictly. *)
Fixpoint keys_rise (members : list (string * json)) : Prop :=
  match members with
  | [] => True
  | (k, _) :: rest =>
      match rest with
      | [] => True
      | (k', _) :: _ => String.ltb k k' = true
      end /\ keys_rise rest
  end.

(** A queue with three jobs waiting, the oldest first in [created_at]. *)
Definition waiting_jobs : gmap string job :=
  <["a" := example_job STATE_PENDING 0 3
             "2024-01-02T03:00:00Z" "2024-01-02T03:00:00Z"]>
    (<["b" := example_job STATE_FAILED 1 3
                "2024-01-02T03:00:01Z" "2024-01-02T03:00:03Z"]>
       (<["c" := example_job STATE_DEAD 3 3
                   "2024-01-02T03:00:02Z" "2024-01-02T03:00:02Z"]> ∅)).

(** ** The monad *)

Lemma bind_ok {A B} (m : M A) (k : A -> M B) w a w' :
  m w = (Ok a, w') -> bind m k w = k a w'.
Proof. intros H. unfold bind. now rewrite H. Qed.

Lemma bind_raise {A B} (m : M A) (k : A -> M B) w e w' :
  m w = (Raise e, w') -> bind m k w = (Raise e, w').
Proof. intros H. unfold bind. now rewrite H. Qed.

Lemma set_jobs_same w : set_jobs (jobs w) w = w.
Proof. now destruct w. Qed.

Lemma update_where_id_run job_id f w :
  update_where_id job_id f w = (Ok tt, set_jobs (alter f job_id (jobs w)) w).
Proof. reflexivity. Qed.

Lemma update_where_id_absent job_id f w :
  jobs w !! job_id = None -> update_where_id job_id f w = (Ok tt, w).
Proof.
  intros Habsent. rewrite update_where_id_run.
  assert (alter f job_id (jobs w) = jobs w) as ->.
  { apply map_eq. intros i. rewrite lookup_alter. case_decide; [|done].
    subst i. now rewrite Habsent. }
  now rewrite set_jobs_same.
Qed.

Lemma utc_now_str_run w :
  utc_now_str w = (Ok (Time.isoformat_z (clock w (ticks w))), ticked w).
Proof. reflexivity. Qed.

(** ** The text order is a total preorder *)

Lemma ascii_compare_refl c : Ascii.compare c c = Eq.
Proof. unfold Ascii.compare. apply N.compare_refl. Qed.

Lemma string_compare_refl s : String.compare s s = Eq.
Proof.
  induction s as [|c s IH]; simpl; [reflexivity|].
  now rewrite ascii_compare_refl.
Qed.

Lemma ascii_compare_trans_lt a b c :
  Ascii.compare a b = Lt -> Ascii.compare b c = Lt -> Ascii.compare a c = Lt.
Proof.
  unfold Ascii.compare. rewrite !N.compare_lt_iff. lia.
Qed.

Lemma string_compare_trans_lt s1 : forall s2 s3,
  String.compare s1 s2 = Lt -> String.compare s2 s3 = Lt ->
  String.compare s1 s3 = Lt.
Proof.
  induction s1 as [|c1 s1 IH]; intros [|c2 s2] [|c3 s3]; simpl; try discriminate;
    try reflexivity.
  destruct (Ascii.compare c1 c2) eqn:H12; try discriminate;
    destruct (Ascii.compare c2 c3) eqn:H23; try discriminate; intros Ha Hb.
  - apply Ascii.compare_eq_iff in H12, H23. subst.
    rewrite ascii_compare_refl. eauto.
  - apply Ascii.compare_eq_iff in H12. subst. now rewrite H23.
  - apply Ascii.compare_eq_iff in H23. subst. now rewrite H12.
  - now rewrite (ascii_compare_trans_lt _ _ _ H12 H23).
Qed.

Lemma text_le_refl s : text_le s s.
Proof. unfold text_le, String.leb. now rewrite string_compare_refl. Qed.

Lemma text_le_trans a b c : text_le a b -> text_le b c -> text_le a c.
Proof.
  unfold text_le, String.leb. intros Hab Hbc.
  destruct (String.compare a b) eqn:E1; try discriminate;
    destruct (String.compare b c) eqn:E2; try discriminate.
  - apply String.compare_eq_iff in E1, E2. subst.
    now rewrite string_compare_refl.
  - apply String.compare_eq_iff in E1. subst. now rewrite E2.
  - apply String.compare_eq_iff in E2. subst. now rewrite E1.
  - now rewrite (string_compare_trans_lt _ _ _ E1 E2).
Qed.

Lemma text_le_total a b : text_le a b \/ text_le b a.
Proof. apply String.leb_total. Qed.

(** ** Selecting the next job *)

Lemma eligible_claimable now j : eligible now j = true <-> claimable now j.
Proof.
  unfold eligible, claimable, text_le.
  rewrite andb_true_iff, orb_true_iff, !String.eqb_eq. tauto.
Qed.

Lemma first_by_created_at_None rows :
  first_by_created_at rows = None -> rows = [].
Proof.
  destruct rows as [|r rest]; [reflexivity|]. simpl.
  destruct (first_by_created_at rest) as [r'|]; [|discriminate].
  destruct (String.leb _ _); discriminate.
Qed.

Lemma first_by_created_at_least rows : forall r,
  first_by_created_at rows = Some r ->
  In r rows
  /\ forall r', In r' rows -> text_le (created_at (snd r)) (created_at (snd r')).
Proof.
  induction rows as [|r0 rest IH]; intros r; simpl; [discriminate|].
  destruct (first_by_created_at rest) as [r1|] eqn:Hrest.
  - destruct (IH r1 eq_refl) as [Hin Hmin].
    destruct (String.leb (created_at (snd r0)) (created_at (snd r1))) eqn:Hle;
      intros [= <-]; (split; [auto|]); intros r' [<-|Hr'].
    + apply text_le_refl.
    + eapply text_le_trans; [exact Hle|auto].
    + destruct (text_le_total (created_at (snd r0)) (created_at (snd r1)))
        as [Habs|]; [|assumption].
      unfold text_le in Habs. congruence.
    + auto.
  - apply first_by_created_at_None in Hrest. subst rest.
    intros [= <-]. split; [auto|]. intros r' [<-|[]]. apply text_le_refl.
Qed.

Lemma select_next_Some now (js : gmap string job) row_id row :
  select_next now js = Some (row_id, row) ->
  js !! row_id = Some row
  /\ claimable now row
  /\ forall id' j', js !! id' = Some j' -> claimable now j' ->
                    text_le (created_at row) (created_at j').
Proof.
  unfold select_next. intros Hsel.
  apply first_by_created_at_least in Hsel as [Hin Hmin].
  apply filter_In in Hin as [Hin Hel]. simpl in Hel.
  apply list_elem_of_In, elem_of_map_to_list in Hin.
  split; [assumption|]. split; [now apply eligible_claimable|].
  intros id' j' Hj' Hc'.
  apply (Hmin (id', j')). apply filter_In. split.
  - now apply list_elem_of_In, elem_of_map_to_list.
  - now apply eligible_claimable.
Qed.

Lemma select_next_None now (js : gmap string job) :
  select_next now js = None ->
  forall id j, js !! id = Some j -> ~ claimable now j.
Proof.
  unfold select_next. intros Hsel id j Hj Hc.
  apply first_by_created_at_None in Hsel.
  assert (In (id, j) (List.filter (fun r => eligible now (snd r))
                                  (map_to_list js))) as Hin.
  { apply filter_In. split.
    - now apply list_elem_of_In, elem_of_map_to_list.
    - now apply eligible_claimable. }
  rewrite Hsel in Hin. destruct Hin.
Qed.

Lemma alter_present (f : job -> job) (js : gmap string job) i j :
  js !! i = Some j -> alter f i js = <[i := f j]> js.
Proof.
  intros Hj. apply map_eq. intros k.
  rewrite lookup_alter, lookup_insert. case_decide; [|done].
  subst k. now rewrite Hj.
Qed.

Lemma acquire_next_job_run now w :
  acquire_next_job now w =
    match select_next now (jobs w) with
    | None => (Ok None, w)
    | Some (row_id, row) =>
        (Ok (Some (AcquiredJob.Make row_id (command row) (attempts row)
                     (max_retries row))),
         set_jobs (alter (claim now) row_id (jobs w)) w)
    end.
Proof.
  unfold acquire_next_job, bind, query_jobs.
  destruct (select_next now (jobs w)) as [[row_id row]|]; reflexivity.
Qed.

(** The order on timestamps is the order of their text.  It is the order of
    the instants they name, except between two timestamps of one second of
    which one has no fraction: the dot sorts before [Z]. *)
Example text_order_of_timestamps :
  text_le "2024-01-02T03:04:05.500000Z" "2024-01-02T03:04:05Z"
  /\ Time.fromisoformat_z "2024-01-02T03:04:05.500000Z" = Some 1704164645500000
  /\ Time.fromisoformat_z "2024-01-02T03:04:05Z" = Some 1704164645000000.
Proof. repeat split; vm_compute; reflexivity. Qed.

(** C2. [acquire_next_job] does not serve the jobs first in, first out: of
    two jobs enqueued half a second apart, the first when the clock shows a
    whole second, it hands out the second one.  The timestamp of a whole
    second is printed without a fraction, and the query compares the text
    of [created_at]: the dot of the later timestamp sorts before the [Z] of
    the earlier one. *)
Theorem acquire_next_job_is_not_first_in_first_out :
  let w1 := snd (enqueue_job (id_and_command "first" "echo 1")
                   whole_second_world) in
  let w2 := snd (enqueue_job (id_and_command "second" "echo 2") w1) in
  fst (enqueue_job (id_and_command "first" "echo 1") whole_second_world)
  = Ok tt
  /\ fst (enqueue_job (id_and_command "second" "echo 2") w1) = Ok tt
  /\ created_at <$> jobs w2 !! "first" = Some "2024-01-02T03:04:05Z"
  /\ created_at <$> jobs w2 !! "second" = Some "2024-01-02T03:04:05.500000Z"
  /\ Time.fromisoformat_z "2024-01-02T03:04:05Z" = Some 1704164645000000
  /\ Time.fromisoformat_z "2024-01-02T03:04:05.500000Z"
     = Some 1704164645500000
  /\ fst (acquire_next_job "2024-01-02T03:05:00Z" w2)
     = Ok (Some (AcquiredJob.Make "second" "echo 2" 0 3)).
Proof. cbv zeta. repeat split; vm_compute; reflexivity. Qed.

(** X27. [acquire_next_job now] picks a row whose state is pending or failed
    and whose [available_at] is at most [now], with the least [created_at]
    among such rows, both in the order of the text of the timestamps; it
    rewrites that row alone, setting [state] to processing and
    [processing_started_at] and [updated_at] to [now], and returns the
    row's id, command, attempts and max_retries.  When it returns no job
    there was no such row, and it never raises. *)
Theorem acquire_next_job_claims_oldest (now : string) (w : world) :
  match acquire_next_job now w with
  | (Ok (Some a), w') =>
      exists j,
        jobs w !! AcquiredJob.id a = Some j
        /\ claimable now j
        /\ (forall id' j', jobs w !! id' = Some j' -> claimable now j' ->
                           text_le (created_at j) (created_at j'))
        /\ a = AcquiredJob.Make (AcquiredJob.id a) (command j) (attempts j)
                 (max_retries j)
        /\ w' = set_jobs (<[AcquiredJob.id a :=
                   Job (command j) STATE_PROCESSING (attempts j) (max_retries j)
                       (created_at j) now (available_at j) (Some now)
                       (completed_at j) (last_error j)]> (jobs w)) w
  | (Ok None, w') =>
      w' = w /\ forall id j, jobs w !! id = Some j -> ~ claimable now j
  | (Raise _, _) => False
  end.
Proof.
  rewrite acquire_next_job_run.
  destruct (select_next now (jobs w)) as [[row_id row]|] eqn:Hsel.
  - apply select_next_Some in Hsel as (Hrow & Hclaim & Hmin).
    rewrite (alter_present _ _ _ _ Hrow).
    exists row. simpl.
    split; [exact Hrow|]. split; [exact Hclaim|]. split; [exact Hmin|].
    split; reflexivity.
  - split; [reflexivity|]. now apply select_next_None.
Qed.

(** C4. [acquire_next_job] hands out a job when none is due: at 03:04:05
    exactly, a timestamp printed without a fraction, the only job of the
    queue is backing off until half a second later; the query compares the
    text of [available_at] with that of [now], finds it smaller, and the row
    is rewritten to processing. *)
Theorem acquire_next_job_claims_a_job_that_is_not_due :
  (forall id j, backing_off_jobs !! id = Some j ->
     exists t, Time.fromisoformat_z (available_at j) = Some t
               /\ 1704164645000000 < t)
  /\ Time.fromisoformat_z "2024-01-02T03:04:05Z" = Some 1704164645000000
  /\ fst (acquire_next_job "2024-01-02T03:04:05Z"
            (example_world backing_off_jobs))
     = Ok (Some (AcquiredJob.Make "j2" "exit 1" 1 3))
  /\ jobs (snd (acquire_next_job "2024-01-02T03:04:05Z"
                  (example_world backing_off_jobs))) !! "j2"
     = Some (Job "exit 1" STATE_PROCESSING 1 3 "2024-01-02T03:00:01Z"
                 "2024-01-02T03:04:05Z" "2024-01-02T03:04:05.500000Z"
                 (Some "2024-01-02T03:04:05Z") None None).
Proof.
  split.
  - intros id j Hj. unfold backing_off_jobs in Hj.
    apply lookup_insert_Some in Hj as [[_ <-]|[_ Hj]].
    + exists 1704164645500000. split; [vm_compute; reflexivity|lia].
    + rewrite lookup_empty in Hj. discriminate.
  - repeat split; vm_compute; reflexivity.
Qed.

(** X28. When no row is pending or failed with [available_at] at most [now]
    in the order of the text of the timestamps, [acquire_next_job now]
    returns no job and the world, every row of every table included, is the
    one it started from. *)
Theorem acquire_next_job_nothing_claimable (now : string) (w : world) :
  (forall id j, jobs w !! id = Some j -> ~ claimable now j) ->
  acquire_next_job now w = (Ok None, w).
Proof.
  intros Hnone. rewrite acquire_next_job_run.
  destruct (select_next now (jobs w)) as [[row_id row]|] eqn:Hsel;
    [|reflexivity].
  apply select_next_Some in Hsel as (Hrow & Hclaim & _).
  destruct (Hnone _ _ Hrow Hclaim).
Qed.

Lemma acquire_next_job_nothing_claimable_witness :
  acquire_next_job "2024-01-02T03:04:05Z" (example_world idle_jobs)
  = (Ok None, example_world idle_jobs).
Proof.
  apply acquire_next_job_nothing_claimable.
  intros id j Hj [Hstate Hle]. simpl in Hj. unfold idle_jobs in Hj.
  apply lookup_insert_Some in Hj as [[_ <-]|[_ Hj]].
  - destruct Hstate; discriminate.
  - apply lookup_insert_Some in Hj as [[_ <-]|[_ Hj]].
    + vm_compute in Hle. discriminate.
    + rewrite lookup_empty in Hj. discriminate.
Defined.

(** ** Updates by id *)

Lemma alter_twice (f : job -> job) (js : gmap string job) i :
  (forall j, f (f j) = f j) -> alter f i (alter f i js) = alter f i js.
Proof.
  intros Hf. apply map_eq. intros k.
  destruct (decide (i = k)) as [->|Hne].
  - rewrite !lookup_alter_eq. destruct (js !! k); simpl; [|reflexivity].
    now rewrite Hf.
  - now rewrite !lookup_alter_ne.
Qed.

(** C6. On a job that exists, [reset_job id now] sets [state] to pending,
    [attempts] to 0 and [updated_at] and [available_at] to [now]; it leaves
    [last_error] and every other column as they were, and doing it a second
    time with the same [now] changes nothing any more. *)
Theorem reset_job_requeues_and_is_idempotent
    (w : world) (job_id now : string) (j : job) :
  jobs w !! job_id = Some j ->
  exists w',
    reset_job job_id now w = (Ok tt, w')
    /\ jobs w' !! job_id
       = Some (Job (command j) STATE_PENDING 0 (max_retries j) (created_at j)
                   now now (processing_started_at j) (completed_at j)
                   (last_error j))
    /\ (forall other, other <> job_id -> jobs w' !! other = jobs w !! other)
    /\ reset_job job_id now w' = (Ok tt, w').
Proof.
  intros Hj. eexists. split; [reflexivity|]. simpl. split; [|split].
  - rewrite lookup_alter_eq, Hj. reflexivity.
  - intros other Hne. now rewrite lookup_alter_ne.
  - unfold reset_job. rewrite update_where_id_run. simpl.
    rewrite alter_twice; [reflexivity|]. now intros [].
Qed.

Lemma reset_job_requeues_and_is_idempotent_witness :
  exists w',
    reset_job "j2" "2024-01-02T03:10:00Z" (example_world idle_jobs) = (Ok tt, w')
    /\ jobs w' !! "j2"
       = Some (Job "exit 1" "pending" 0 3 "2024-01-02T03:00:01Z"
                   "2024-01-02T03:10:00Z" "2024-01-02T03:10:00Z" None None None)
    /\ (forall other, other <> "j2" -> jobs w' !! other = idle_jobs !! other)
    /\ reset_job "j2" "2024-01-02T03:10:00Z" w' = (Ok tt, w').
Proof.
  apply (reset_job_requeues_and_is_idempotent (example_world idle_jobs) "j2"
           "2024-01-02T03:10:00Z"
           (example_job STATE_FAILED 1 3
              "2024-01-02T03:00:01Z" "2024-01-02T03:04:07Z")).
  reflexivity.
Defined.

(** C9. After [delete_job id], [get_job id] finds nothing, and deleting the
    same id once more returns normally and leaves the world as it is. *)
Theorem delete_job_then_absent (w : world) (job_id : string) :
  exists w',
    delete_job job_id w = (Ok tt, w')
    /\ get_job job_id w' = (Ok None, w')
    /\ delete_job job_id w' = (Ok tt, w').
Proof.
  eexists. split; [reflexivity|]. split.
  - unfold get_job, query_jobs. simpl. now rewrite lookup_delete_eq.
  - unfold delete_job, modify_jobs. simpl. now rewrite delete_delete_eq.
Qed.

(** [_add_seconds] computes a text: the world stays as it is. *)
Lemma _add_seconds_world now seconds w :
  snd (_add_seconds now seconds w) = w.
Proof.
  unfold _add_seconds. destruct (Time.fromisoformat_z now); [|reflexivity].
  unfold bind, lift, ret. destruct (Time.timedelta seconds); [|reflexivity].
  destruct (Time.datetime_add _ _); reflexivity.
Qed.

(** [mark_job_failed], by the retry time it gets and the width of
    [attempts]. *)
Lemma mark_job_failed_run job_id attempts' max_retries' error now b w :
  mark_job_failed job_id attempts' max_retries' error now b w
  = match (if Float.le_zero b then utc_now_str w else _add_seconds now b w)
    with
    | (Ok next, w1) =>
        if int64 attempts'
        then (Ok tt,
              set_jobs (alter (fail (failure_state attempts' max_retries')
                                    attempts' now next error)
                              job_id (jobs w1)) w1)
        else (Raise (OverflowError
                       "Python int too large to convert to SQLite INTEGER"),
              w1)
    | (Raise e, w1) => (Raise e, w1)
    end.
Proof.
  unfold mark_job_failed, bind, bind_int.
  destruct (Float.le_zero b).
  - rewrite utc_now_str_run. destruct (int64 attempts'); reflexivity.
  - destruct (_add_seconds now b w) as [[next|e] w1]; [|reflexivity].
    destruct (int64 attempts'); reflexivity.
Qed.

Lemma mark_job_completed_run job_id attempts' now w :
  mark_job_completed job_id attempts' now w
  = if int64 attempts'
    then (Ok tt,
          set_jobs (alter (complete attempts' now) job_id (jobs w)) w)
    else (Raise (OverflowError
                   "Python int too large to convert to SQLite INTEGER"), w).
Proof.
  unfold mark_job_completed, bind, bind_int. now destruct (int64 attempts').
Qed.

(** C10, as stated, fails: [mark_job_failed] computes the retry time before
    it looks for the row, and raises when there is none, here for a job
    that failed in the last second of the year 9999; and [sqlite3] refuses
    an [attempts] that does not fit 64 bits before it runs the UPDATE of
    [mark_job_completed]. *)
Lemma update_of_absent_id_raises :
  jobs (example_world idle_jobs) !! "nope" = None
  /\ fst (mark_job_failed "nope" 1 3 "boom" "9999-12-31T23:59:59Z"
            (Float.Finite 2) (example_world idle_jobs))
     = Raise (OverflowError "date value out of range")
  /\ fst (mark_job_completed "nope" (2 ^ 63) "2024-01-02T03:04:06Z"
            (example_world idle_jobs))
     = Raise (OverflowError
                "Python int too large to convert to SQLite INTEGER").
Proof. split; [reflexivity|]. split; vm_compute; reflexivity. Qed.

(** C10, amended.  For an id that is not in the table: [reset_job] returns
    normally and leaves the world as it was; so does [mark_job_completed]
    when [attempts] fits 64 bits, and it raises [OverflowError] otherwise,
    the world still as it was; [mark_job_failed] leaves every row and every
    setting as it was whether it returns or raises (it may have read the
    clock), and it returns normally when [attempts] fits 64 bits and the
    retry time can be had: there is no positive delay, or [_add_seconds]
    returns on [now] and the delay. *)
Theorem updates_of_absent_id_change_no_row
    (w : world) (job_id : string) (attempts' max_retries' : Z)
    (error now : string) (backoff_seconds : Float.float) :
  jobs w !! job_id = None ->
  reset_job job_id now w = (Ok tt, w)
  /\ mark_job_completed job_id attempts' now w
     = (if int64 attempts' then Ok tt
        else Raise (OverflowError
                      "Python int too large to convert to SQLite INTEGER"),
        w)
  /\ (let after :=
        snd (mark_job_failed job_id attempts' max_retries' error now
               backoff_seconds w) in
      jobs after = jobs w /\ config after = config w)
  /\ (int64 attempts' = true -> timed now backoff_seconds w ->
      fst (mark_job_failed job_id attempts' max_retries' error now
             backoff_seconds w) = Ok tt).
Proof.
  intros Habsent.
  assert (forall f, alter f job_id (jobs w) = jobs w) as Hsame.
  { intros f. apply map_eq. intros k. destruct (decide (job_id = k)) as [<-|Hne].
    - now rewrite lookup_alter_eq, Habsent.
    - now rewrite lookup_alter_ne. }
  split; [now apply update_where_id_absent|].
  split.
  { rewrite mark_job_completed_run. destruct (int64 attempts'); [|reflexivity].
    now rewrite Hsame, set_jobs_same. }
  rewrite mark_job_failed_run.
  pose proof (_add_seconds_world now backoff_seconds w) as Hworld.
  split.
  - cbv zeta. destruct (Float.le_zero backoff_seconds).
    + rewrite utc_now_str_run. destruct (int64 attempts'); cbn; [|auto].
      now rewrite Hsame.
    + destruct (_add_seconds now backoff_seconds w) as [[next|e] w1];
        cbn [snd] in Hworld; subst w1; [|auto].
      destruct (int64 attempts'); cbn; [|auto]. now rewrite Hsame.
  - intros Hwide Htimed. rewrite Hwide.
    destruct (Float.le_zero backoff_seconds) eqn:Hsign.
    + now rewrite utc_now_str_run.
    + destruct Htimed as [Hle|(next & Hnext)]; [congruence|].
      destruct (_add_seconds now backoff_seconds w) as [[next'|e] w1];
        [reflexivity|discriminate Hnext].
Qed.

Lemma updates_of_absent_id_change_no_row_witness :
  reset_job "nope" "2024-01-02T03:04:05.678901Z" (example_world idle_jobs)
  = (Ok tt, example_world idle_jobs)
  /\ mark_job_completed "nope" 1 "2024-01-02T03:04:05.678901Z"
       (example_world idle_jobs)
     = (Ok tt, example_world idle_jobs)
  /\ (let after :=
        snd (mark_job_failed "nope" 1 3 "boom" "2024-01-02T03:04:05.678901Z"
               (Float.Finite 4) (example_world idle_jobs)) in
      jobs after = idle_jobs /\ config after = ∅)
  /\ fst (mark_job_failed "nope" 1 3 "boom" "2024-01-02T03:04:05.678901Z"
            (Float.Finite 4) (example_world idle_jobs)) = Ok tt.
Proof.
  destruct (updates_of_absent_id_change_no_row (example_world idle_jobs)
              "nope" 1 3 "boom" "2024-01-02T03:04:05.678901Z" (Float.Finite 4)
              eq_refl) as (Hreset & Hdone & Hrows & Hreturns).
  split; [exact Hreset|]. split; [exact Hdone|]. split; [exact Hrows|].
  apply Hreturns; [reflexivity|].
  right. exists "2024-01-02T03:04:09.678901Z". vm_compute. reflexivity.
Defined.

(** ** Timestamps print and parse back *)

Import Time.

Lemma digit_char_cases x : 0 <= x < 10 ->
  In (digit_char x) ["0"; "1"; "2"; "3"; "4"; "5"; "6"; "7"; "8"; "9"]%char.
Proof.
  intros H.
  assert (x = 0 \/ x = 1 \/ x = 2 \/ x = 3 \/ x = 4 \/ x = 5 \/ x = 6
          \/ x = 7 \/ x = 8 \/ x = 9) as Hx by lia.
  repeat (destruct Hx as [->|Hx]; [simpl; tauto|]). subst. simpl. tauto.
Qed.

Lemma digit_value_char x : 0 <= x < 10 -> digit_value (digit_char x) = Some x.
Proof.
  intros H.
  assert (x = 0 \/ x = 1 \/ x = 2 \/ x = 3 \/ x = 4 \/ x = 5 \/ x = 6
          \/ x = 7 \/ x = 8 \/ x = 9) as Hx by lia.
  repeat (destruct Hx as [->|Hx]; [reflexivity|]). subst. reflexivity.
Qed.

Lemma digit_char_plain x : 0 <= x < 10 ->
  negb (Ascii.eqb (digit_char x) "+") && negb (Ascii.eqb (digit_char x) "Z") = true.
Proof.
  intros H. pose proof (digit_char_cases x H) as Hc. simpl in Hc.
  repeat (destruct Hc as [<-|Hc]; [reflexivity|]). destruct Hc.
Qed.

Lemma plainb_zero_padded k : forall n acc,
  plainb acc = true -> plainb (zero_padded k n acc) = true.
Proof.
  induction k as [|k IH]; intros n acc Hacc; cbn [zero_padded]; [assumption|].
  apply IH. cbn [plainb]. rewrite Hacc, andb_true_r.
  apply digit_char_plain. apply Z.mod_pos_bound. lia.
Qed.

Lemma zero_padded_app k : forall n a b,
  zero_padded k n (a ++ b) = zero_padded k n a ++ b.
Proof.
  induction k as [|k IH]; intros n a b; cbn [zero_padded]; [reflexivity|].
  now rewrite <- IH.
Qed.

Lemma replace_offset_app s1 s2 :
  plainb s1 = true -> replace_offset 0 (s1 ++ s2) = s1 ++ replace_offset 0 s2.
Proof.
  induction s1 as [|c s1 IH]; intros Hp; [reflexivity|].
  cbn [plainb] in Hp. apply andb_true_iff in Hp as [Hc Hp].
  apply andb_true_iff in Hc as [Hplus _].
  apply negb_true_iff, Ascii.eqb_neq in Hplus.
  change (String c s1 ++ s2) with (String c (s1 ++ s2)).
  cbn [replace_offset String.prefix].
  destruct (ascii_dec "+" c) as [Heq|_]; [now symmetry in Heq|].
  now rewrite IH.
Qed.

Lemma replace_Z_app s1 s2 :
  plainb s1 = true -> replace_Z (s1 ++ s2) = s1 ++ replace_Z s2.
Proof.
  induction s1 as [|c s1 IH]; intros Hp; [reflexivity|].
  cbn [plainb] in Hp. apply andb_true_iff in Hp as [Hc Hp].
  apply andb_true_iff in Hc as [_ Hz]. apply negb_true_iff in Hz.
  change (String c s1 ++ s2) with (String c (s1 ++ s2)).
  cbn [replace_Z]. rewrite Hz. now rewrite IH.
Qed.

Lemma read_digits_zero_padded_gen k : forall j n a acc,
  0 <= n < 10 ^ Z.of_nat k ->
  read_digits (k + j) a (zero_padded k n acc)
  = read_digits j (a * 10 ^ Z.of_nat k + n) acc.
Proof.
  induction k as [|k IH]; intros j n a acc Hn.
  - cbn [zero_padded Nat.add]. change (10 ^ Z.of_nat 0) with 1 in *.
    f_equal. lia.
  - rewrite Nat2Z.inj_succ, Z.pow_succ_r in * by lia.
    cbn [zero_padded].
    replace (S k + j)%nat with (k + S j)%nat by lia.
    rewrite IH by (Z.div_mod_to_equations; nia).
    cbn [read_digits].
    rewrite digit_value_char by (apply Z.mod_pos_bound; lia).
    f_equal. Z.div_mod_to_equations. nia.
Qed.

Lemma read_digits_zero_padded k n rest :
  0 <= n < 10 ^ Z.of_nat k ->
  read_digits k 0 (zero_padded k n "" ++ rest) = Some (n, rest).
Proof.
  intros Hn. rewrite <- zero_padded_app. cbn [String.append].
  replace k with (k + 0)%nat at 1 by lia.
  rewrite read_digits_zero_padded_gen by assumption. reflexivity.
Qed.
(** *** The calendar *)

Lemma is_leap_spec y :
  is_leap y = true <-> (y mod 4 = 0 /\ y mod 100 <> 0) \/ y mod 400 = 0.
Proof.
  unfold is_leap. rewrite orb_true_iff, andb_true_iff, negb_true_iff.
  rewrite !Z.eqb_eq, Z.eqb_neq. tauto.
Qed.

Lemma civil_from_days_sound days :
  let '(y, m, d) := civil_from_days days in
  1 <= m <= 12 /\ 1 <= d <= days_in_month y m /\ days_from_civil y m d = days.
Proof.
  unfold civil_from_days.
  set (z := days + 719468).
  set (era := z / 146097).
  set (doe := z - era * 146097).
  set (yoe := (doe - doe / 1460 + doe / 36524 - doe / 146096) / 365).
  set (doy := doe - (365 * yoe + yoe / 4 - yoe / 100)).
  set (mp := (5 * doy + 2) / 153).
  assert (0 <= doe < 146097) as Hdoe by (subst doe era; Z.div_mod_to_equations; lia).
  assert (0 <= yoe <= 399 /\ 0 <= doy <= 365) as [Hyoe Hdoy]
    by (subst yoe doy; Z.div_mod_to_equations; lia).
  assert (0 <= mp <= 11) as Hmp by (subst mp; Z.div_mod_to_equations; lia).
  assert (doy = 365 -> is_leap (yoe + 1 + era * 400) = true) as Hleap.
  { intros H. apply is_leap_spec. subst yoe doy. Z.div_mod_to_equations. lia. }
  split; [destruct (mp <? 10) eqn:E; lia|].
  split.
  - unfold days_in_month.
    destruct (mp <? 10) eqn:E.
    + assert ((mp + 3 <=? 2) = false) as -> by lia.
      assert ((mp + 3 =? 2) = false) as -> by lia.
      destruct ((mp + 3 =? 4) || (mp + 3 =? 6) || (mp + 3 =? 9) || (mp + 3 =? 11)) eqn:E2.
      * subst mp. clearbody doy. Z.div_mod_to_equations. lia.
      * subst mp. clearbody doy. Z.div_mod_to_equations. lia.
    + assert (mp = 10 \/ mp = 11) as [Hm|Hm] by lia; rewrite Hm; simpl.
      * subst mp. clearbody doy. Z.div_mod_to_equations. lia.
      * destruct (is_leap (yoe + era * 400 + 1)) eqn:El.
        -- subst mp. clearbody doy. Z.div_mod_to_equations. lia.
        -- assert (doy <> 365).
           { intros H. apply Hleap in H.
             replace (yoe + 1 + era * 400) with (yoe + era * 400 + 1) in H by lia.
             congruence. }
           subst mp. clearbody doy. Z.div_mod_to_equations. lia.
  - unfold days_from_civil.
    destruct (mp <? 10) eqn:E.
    + assert ((mp + 3 <=? 2) = false) as -> by lia.
      assert ((2 <? mp + 3) = true) as -> by lia.
      replace (mp + 3 - 3) with mp by lia.
      replace ((yoe + era * 400) / 400) with era by (Z.div_mod_to_equations; lia).
      replace (yoe + era * 400 - era * 400) with yoe by lia.
      subst doy z doe. lia.
    + assert ((mp - 9 <=? 2) = true) as -> by lia.
      assert ((2 <? mp - 9) = false) as -> by lia.
      replace (mp - 9 + 9) with mp by lia.
      replace (yoe + era * 400 + 1 - 1) with (yoe + era * 400) by lia.
      replace ((yoe + era * 400) / 400) with era by (Z.div_mod_to_equations; lia).
      replace (yoe + era * 400 - era * 400) with yoe by lia.
      subst doy z doe. lia.
Qed.

Lemma string_app_assoc (a b c : string) : (a ++ b) ++ c = a ++ (b ++ c).
Proof.
  induction a as [|x a IH]; [reflexivity|].
  change (String x ((a ++ b) ++ c) = String x (a ++ (b ++ c))). now rewrite IH.
Qed.

Lemma bind_some {A B} (a : A) (k : A -> option B) : (Some a ≫= k) = k a.
Proof. reflexivity. Qed.

Lemma expect_here c rest : expect c (String c "" ++ rest) = Some rest.
Proof.
  change (String c "" ++ rest) with (String c rest). unfold expect.
  now rewrite Ascii.eqb_refl.
Qed.

Lemma days_from_civil_year y m d :
  1 <= m <= 12 -> 1 <= d <= 31 ->
  -719162 <= days_from_civil y m d <= 2932896 -> 1 <= y <= 9999.
Proof.
  unfold days_from_civil. intros Hm Hd.
  destruct (m <=? 2) eqn:E1; destruct (2 <? m) eqn:E2; try lia;
    intros H; Z.div_mod_to_equations; lia.
Qed.

Lemma days_in_month_le y m : days_in_month y m <= 31.
Proof.
  unfold days_in_month.
  destruct (m =? 2); [destruct (is_leap y); lia|].
  destruct ((m =? 4) || (m =? 6) || (m =? 9) || (m =? 11)); lia.
Qed.

Lemma in_range_days t : in_range t = true ->
  -719162 <= t / us_per_day <= 2932896.
Proof.
  unfold in_range. rewrite andb_true_iff, !Z.leb_le.
  change datetime_min with (-62135596800000000).
  change datetime_max with 253402300799999999.
  change us_per_day with 86400000000.
  intros H. Z.div_mod_to_equations. lia.
Qed.

Lemma fromisoformat_isoformat t :
  in_range t = true -> fromisoformat (isoformat t) = Some t.
Proof.
  intros Hrange. pose proof (in_range_days t Hrange) as Hdays.
  unfold isoformat.
  pose proof (civil_from_days_sound (t / us_per_day)) as Hcivil.
  destruct (civil_from_days (t / us_per_day)) as [[y m] d].
  destruct Hcivil as (Hm & Hd & Hback).
  pose proof (days_in_month_le y m) as Hdim.
  assert (1 <= y <= 9999) as Hy.
  { apply (days_from_civil_year y m d); [lia|lia|]. now rewrite Hback. }
  set (rest := t mod us_per_day).
  assert (0 <= rest < 86400000000) as Hrest
    by (subst rest; apply Z.mod_pos_bound; reflexivity).
  set (secs := rest / us_per_second).
  set (us := rest mod us_per_second).
  assert (0 <= secs < 86400) as Hsecs
    by (subst secs; unfold us_per_second; Z.div_mod_to_equations; lia).
  assert (0 <= us < 1000000) as Hus
    by (subst us; apply Z.mod_pos_bound; reflexivity).
  unfold fromisoformat.
  assert (forall u s,
    (if String.eqb s "+00:00" && (1 <=? y) && (1 <=? m) && (m <=? 12)
        && (1 <=? d) && (d <=? days_in_month y m)
        && (secs / 3600 <=? 23) && (secs / 60 mod 60 <=? 59)
        && (secs mod 60 <=? 59)
     then Some (days_from_civil y m d * us_per_day
                + ((secs / 3600 * 60 + secs / 60 mod 60) * 60 + secs mod 60)
                  * us_per_second + u)
     else None)
    = if String.eqb s "+00:00"
      then Some (t - us + u) else None) as Hfinal.
  { intros u s. destruct (String.eqb s "+00:00"); [|reflexivity].
    cbn [andb].
    rewrite !(proj2 (Z.leb_le _ _)) by (Z.div_mod_to_equations; lia).
    cbn [andb]. f_equal. rewrite Hback.
    subst us secs rest. unfold us_per_day, us_per_second.
    Z.div_mod_to_equations. lia. }
  rewrite read_digits_zero_padded by (change (10 ^ Z.of_nat 4) with 10000; lia).
  rewrite bind_some; cbv beta iota. rewrite expect_here, bind_some.
  rewrite read_digits_zero_padded by (change (10 ^ Z.of_nat 2) with 100; lia).
  rewrite bind_some; cbv beta iota. rewrite expect_here, bind_some.
  rewrite read_digits_zero_padded by (change (10 ^ Z.of_nat 2) with 100; lia).
  rewrite bind_some; cbv beta iota. rewrite expect_here, bind_some.
  rewrite read_digits_zero_padded
    by (change (10 ^ Z.of_nat 2) with 100; Z.div_mod_to_equations; lia).
  rewrite bind_some; cbv beta iota. rewrite expect_here, bind_some.
  rewrite read_digits_zero_padded
    by (change (10 ^ Z.of_nat 2) with 100; Z.div_mod_to_equations; lia).
  rewrite bind_some; cbv beta iota. rewrite expect_here, bind_some.
  rewrite read_digits_zero_padded
    by (change (10 ^ Z.of_nat 2) with 100; Z.div_mod_to_equations; lia).
  rewrite bind_some; cbv beta iota.
  destruct (us =? 0) eqn:Hzero.
  - apply Z.eqb_eq in Hzero.
    change ("" ++ "+00:00") with "+00:00".
    change (expect "." "+00:00") with (@None string). cbv beta iota.
    rewrite bind_some; cbv beta iota.
    rewrite Hfinal. change (String.eqb "+00:00" "+00:00") with true.
    cbv iota. f_equal. lia.
  - rewrite string_app_assoc, expect_here. cbv beta iota.
    rewrite read_digits_zero_padded
      by (change (10 ^ Z.of_nat 6) with 1000000; lia).
    rewrite bind_some; cbv beta iota. rewrite Hfinal.
    change (String.eqb "+00:00" "+00:00") with true.
    cbv iota. f_equal. lia.
Qed.

Lemma isoformat_z_roundtrip t :
  in_range t = true -> fromisoformat_z (isoformat_z t) = Some t.
Proof.
  intros Hrange. unfold fromisoformat_z, isoformat_z.
  rewrite <- (fromisoformat_isoformat t Hrange). f_equal.
  unfold isoformat.
  destruct (civil_from_days (t / us_per_day)) as [[y m] d].
  repeat (rewrite replace_offset_app
            by (first [apply plainb_zero_padded; reflexivity | reflexivity])).
  destruct (t mod us_per_day mod us_per_second =? 0).
  - cbn [String.append]. 
    change (replace_offset 0 "+00:00") with "Z".
    repeat (rewrite replace_Z_app
              by (first [apply plainb_zero_padded; reflexivity | reflexivity])).
    reflexivity.
  - rewrite (string_app_assoc "." _ "+00:00").
    repeat (rewrite replace_offset_app
              by (first [apply plainb_zero_padded; reflexivity | reflexivity])).
    change (replace_offset 0 "+00:00") with "Z".
    repeat (rewrite replace_Z_app
              by (first [apply plainb_zero_padded; reflexivity | reflexivity])).
    reflexivity.
Qed.

(** ** Durations are rounded to the nearest microsecond *)

Import Float.

Lemma pow2_pos k : (0 < pow2 k)%Q.
Proof. now apply Qpower_0_lt. Qed.

Lemma pow2_le k k' : k <= k' -> (pow2 k <= pow2 k')%Q.
Proof. intros H. now apply Qpower_le_compat_l. Qed.

Lemma floor_log2_below (a : Q) :
  (0 < a)%Q -> (a < pow2 20)%Q -> floor_log2 a <= 19.
Proof.
  intros Hpos Hlt. unfold floor_log2.
  set (l := Z.log2 (Qnum a) - Z.log2 (Zpos (Qden a))).
  assert (l <= 20) as Hl.
  { destruct a as [n d]. unfold Qlt in Hpos, Hlt. cbn in Hpos, Hlt.
    subst l. cbn [Qnum Qden].
    destruct (Z.log2_spec (Zpos d) ltac:(lia)) as [_ Hd].
    assert (n < 2 ^ (21 + Z.log2 (Zpos d))) as Hn.
    { rewrite Z.pow_add_r by (try lia; apply Z.log2_nonneg).
      rewrite Z.pow_succ_r in Hd by apply Z.log2_nonneg.
      change (2 ^ 21) with 2097152. lia. }
    apply Z.log2_lt_pow2 in Hn; lia. }
  destruct (Qle_bool (pow2 l) a) eqn:Hcheck; [|lia].
  apply Qle_bool_iff in Hcheck.
  destruct (Z.eq_dec l 20) as [->|]; [|lia].
  exfalso. apply (Qlt_irrefl a).
  eapply Qlt_le_trans; [exact Hlt|exact Hcheck].
Qed.

Lemma round_half_even_near (q : Q) :
  (q - (1 # 2) <= inject_Z (round_half_even q) <= q + (1 # 2))%Q.
Proof.
  destruct q as [n d]. unfold round_half_even, Qle, Qminus, Qplus, Qopp,
    inject_Z. cbn [Qnum Qden].
  pose proof (Z.div_mod n (Zpos d) ltac:(lia)) as Hdiv.
  pose proof (Z.mod_pos_bound n (Zpos d) ltac:(lia)) as Hmod.
  rewrite !Pos2Z.inj_mul.
  set (f := n / Zpos d) in *. set (r := n mod Zpos d) in *.
  destruct (2 * r <? Zpos d) eqn:E1; [|destruct (Zpos d <? 2 * r) eqn:E2;
    [|destruct (Z.even f)]]; nia.
Qed.

Lemma round_half_even_nonneg (q : Q) :
  (0 <= q)%Q -> 0 <= round_half_even q.
Proof.
  destruct q as [n d]. unfold Qle, round_half_even. cbn [Qnum Qden].
  intros Hn. assert (0 <= n) as Hn' by lia.
  pose proof (Z.div_pos n (Zpos d) Hn' ltac:(lia)) as Hf.
  destruct (2 * (n mod Zpos d) <? Zpos d); [assumption|].
  destruct (Zpos d <? 2 * (n mod Zpos d)); [lia|].
  destruct (Z.even (n / Zpos d)); lia.
Qed.

(** The mantissa and the unit of the last place with which a positive
    number is rounded. *)
Lemma rounded_magnitude_near (a : Q) (k : Z) :
  (Qabs (inject_Z (round_half_even (a / pow2 k)) * pow2 k - a)
   <= (1 # 2) * pow2 k)%Q.
Proof.
  pose proof (round_half_even_near (a / pow2 k)) as [Hlo Hhi].
  pose proof (pow2_pos k) as Hk.
  set (m := inject_Z (round_half_even (a / pow2 k))) in *.
  assert (a == (a / pow2 k) * pow2 k)%Q as Ha.
  { field. intros H. rewrite H in Hk. now apply Qlt_irrefl in Hk. }
  set (c := (a / pow2 k)%Q) in *. set (p := pow2 k) in *.
  apply Qabs_Qle_condition. rewrite Ha. split; nra.
Qed.

Lemma Qle_bool_false (x y : Q) : Qle_bool x y = false <-> (y < x)%Q.
Proof. unfold Qle_bool, Qlt. apply Z.leb_gt. Qed.

(** Below [2^20] a double is less than [2^-34] from the number it rounds. *)
Lemma round_double_value_near (q : Q) :
  (Qabs q < pow2 20)%Q ->
  (Qabs (round_double_value q - q) <= pow2 (-34))%Q.
Proof.
  intros Hsmall. unfold round_double_value.
  destruct (Qeq_bool q 0) eqn:Hzero.
  { apply Qeq_bool_eq in Hzero. rewrite Hzero. discriminate. }
  apply Qeq_bool_neq in Hzero.
  assert (0 < Qabs q)%Q as Hpos.
  { destruct (Qlt_le_dec 0 (Qabs q)) as [|Hle]; [assumption|].
    exfalso. apply Hzero.
    pose proof (Qabs_nonneg q) as Hge.
    assert (Qabs q == 0)%Q as H0 by (now apply Qle_antisym).
    apply Qabs_Qle_condition in Hle. destruct Hle as [Hlo Hhi].
    apply Qle_antisym; [exact Hhi|exact Hlo]. }
  pose proof (floor_log2_below _ Hpos Hsmall) as He.
  set (k := Z.max (floor_log2 (Qabs q) - 52) (-1074)).
  assert (k <= -33) as Hk by lia.
  pose proof (rounded_magnitude_near (Qabs q) k) as Hnear.
  pose proof (pow2_le _ _ Hk) as Hulp.
  assert ((1 # 2) * pow2 (-33) == pow2 (-34))%Q as Hhalf by reflexivity.
  set (m := inject_Z (round_half_even (Qabs q / pow2 k))) in *.
  assert (Qabs (m * pow2 k - Qabs q) <= pow2 (-34))%Q as Hbound.
  { eapply Qle_trans; [exact Hnear|]. rewrite <- Hhalf.
    apply Qmult_le_l; [reflexivity|exact Hulp]. }
  clearbody m k. 
  destruct (Qle_bool 0 q) eqn:Hsign.
  - apply Qle_bool_iff in Hsign. rewrite Qred_correct.
    rewrite (Qabs_pos q Hsign) in Hbound. exact Hbound.
  - apply Qle_bool_false in Hsign. rewrite Qred_correct.
    rewrite (Qabs_neg q) in Hbound by (now apply Qlt_le_weak).
    setoid_replace (- (m * pow2 k) - q)%Q with (- (m * pow2 k - - q))%Q
      using relation Qeq by ring.
    now rewrite Qabs_opp.
Qed.

Lemma round_double_value_nonneg (q : Q) :
  (0 <= q)%Q -> (0 <= round_double_value q)%Q.
Proof.
  intros Hq. unfold round_double_value.
  destruct (Qeq_bool q 0); [discriminate|].
  apply Qle_bool_iff in Hq as Hb. rewrite Hb, Qred_correct.
  apply Qmult_le_0_compat; [|apply Qlt_le_weak, pow2_pos].
  change 0%Q with (inject_Z 0). rewrite <- Zle_Qle.
  apply round_half_even_nonneg.
  apply Qle_shift_div_l; [apply pow2_pos|]. rewrite Qmult_0_l.
  apply Qabs_nonneg.
Qed.

(** The integer and the fractional part of a number, as [modf] gives
    them. *)
Lemma truncate_spec (x : Q) :
  (Qabs (x - inject_Z (truncate x)) < 1)%Q
  /\ ((0 <= x)%Q -> 0 <= truncate x /\ (0 <= x - inject_Z (truncate x))%Q).
Proof.
  destruct x as [n d]. unfold truncate. cbn [Qnum Qden].
  pose proof (Z.quot_rem' n (Zpos d)) as Hqr.
  split.
  - apply Qabs_case; intros _; unfold Qlt, Qminus, Qplus, Qopp, inject_Z;
      cbn [Qnum Qden]; Z.quot_rem_to_equations; nia.
  - unfold Qle, Qminus, Qplus, Qopp, inject_Z. cbn [Qnum Qden].
    intros Hn. Z.quot_rem_to_equations. nia.
Qed.

Lemma timedelta_Ok x us : timedelta (Finite x) = Ok us -> us = microseconds x.
Proof.
  unfold timedelta. cbv zeta.
  destruct (_ || _); [discriminate|]. destruct (_ || _); [discriminate|].
  now intros [= <-].
Qed.

Lemma timedelta_near x us :
  timedelta (Finite x) = Ok us ->
  (Qabs (inject_Z us - x * (1000000 # 1)) <= (1 # 2) + pow2 (-34))%Q.
Proof.
  intros Hus. apply timedelta_Ok in Hus. subst us. unfold microseconds. cbv zeta.
  destruct (truncate_spec x) as [Hfrac _].
  set (i := truncate x) in *. set (f := (x - inject_Z i)%Q) in *.
  assert (Qabs ((1000000 # 1) * f) < pow2 20)%Q as Hsmall.
  { rewrite Qabs_Qmult. change (Qabs (1000000 # 1)) with (1000000 # 1)%Q.
    apply Qlt_trans with ((1000000 # 1) * 1)%Q; [|reflexivity].
    apply Qmult_lt_l; [reflexivity|exact Hfrac]. }
  pose proof (round_double_value_near _ Hsmall) as Hr.
  set (r := round_double_value ((1000000 # 1) * f)) in *.
  pose proof (round_half_even_near (inject_Z (i * 1000000) + r)) as [Hlo Hhi].
  set (u := inject_Z (round_half_even (inject_Z (i * 1000000) + r))) in *.
  assert (x == inject_Z i + f)%Q as Hx by (subst f; ring).
  rewrite inject_Z_mult in Hlo, Hhi.
  change (inject_Z 1000000) with (1000000 # 1)%Q in Hlo, Hhi.
  apply Qabs_Qle_condition in Hr. destruct Hr as [Hr1 Hr2].
  apply Qabs_Qle_condition. rewrite Hx.
  clearbody u r f i. split; lra.
Qed.

Lemma timedelta_nonneg x us :
  (0 <= x)%Q -> timedelta (Finite x) = Ok us -> 0 <= us.
Proof.
  intros Hx Hus. apply timedelta_Ok in Hus. subst us. unfold microseconds. cbv zeta.
  destruct (truncate_spec x) as [_ Hpos]. destruct (Hpos Hx) as [Hi Hf].
  apply round_half_even_nonneg.
  rewrite <- (Qplus_0_r 0). apply Qplus_le_compat.
  - change 0%Q with (inject_Z 0). rewrite <- Zle_Qle. lia.
  - apply round_double_value_nonneg.
    apply Qmult_le_0_compat; [discriminate|exact Hf].
Qed.

(** A delay that [mark_job_failed] adds is positive. *)
Lemma positive_delay b us :
  le_zero b = false -> timedelta b = Ok us ->
  exists x, b = Finite x /\ (0 < x)%Q /\ 0 <= us.
Proof.
  destruct b as [x| |]; [|discriminate|discriminate].
  cbn [le_zero]. intros Hsign Hus. apply Qle_bool_false in Hsign.
  exists x. split; [reflexivity|]. split; [exact Hsign|].
  apply (timedelta_nonneg x); [now apply Qlt_le_weak|exact Hus].
Qed.

(** ** Quiet computations *)

Lemma quiet_ret {A} (a : A) : quiet (ret a).
Proof. intros w. now exists a, w. Qed.

Lemma quiet_bind {A B} (m : M A) (k : A -> M B) :
  quiet m -> (forall a, quiet (k a)) -> quiet (bind m k).
Proof.
  intros Hm Hk w. destruct (Hm w) as (a & w1 & Hrun & Hj & Hc).
  destruct (Hk a w1) as (b & w2 & Hrun' & Hj' & Hc').
  exists b, w2. rewrite (bind_ok _ _ _ _ _ Hrun). repeat split; congruence.
Qed.

Lemma quiet_utc_now_str : quiet utc_now_str.
Proof. intros w. eexists _, _. now rewrite utc_now_str_run. Qed.

Lemma quiet_write_log line : quiet (write_log line).
Proof. intros w. now eexists _, _. Qed.

Lemma quiet_when b (m : M unit) : quiet m -> quiet (when b m).
Proof. intros Hm. destruct b; [exact Hm|apply quiet_ret]. Qed.

Create HintDb quiet.
#[local] Hint Resolve quiet_ret quiet_utc_now_str quiet_write_log quiet_when
  : quiet.
#[local] Hint Resolve quiet_bind | 5 : quiet.

Lemma quiet_log_failure picked attempts' should_retry error_message :
  quiet (log_failure picked attempts' should_retry error_message).
Proof. unfold log_failure. cbv zeta. auto 20 with quiet. Qed.

(** A step that returns, followed by a quiet computation. *)
Lemma then_quiet (m k : M unit) w w1 :
  m w = (Ok tt, w1) -> quiet k ->
  exists w', bind m (fun _ => k) w = (Ok tt, w')
             /\ jobs w' = jobs w1 /\ config w' = config w1.
Proof.
  intros Hm Hk. rewrite (bind_ok _ _ _ _ _ Hm).
  destruct (Hk w1) as ([] & w' & Hrun & Hjobs & Hconfig). now exists w'.
Qed.

(** ** Failing a job *)

(** [**] computes a float: the world stays as it is. *)
Lemma float_pow_world base n w : snd (float_pow base n w) = w.
Proof.
  unfold float_pow. destruct (of_int n) as [iw|]; [|reflexivity].
  destruct (Qeq_bool iw 0); [reflexivity|].
  destruct base as [iv|negative|];
    [|destruct (Qle_bool iw 0); reflexivity|reflexivity].
  destruct (Qeq_bool iv 0); [destruct (Qle_bool 0 iw); reflexivity|].
  destruct (Qeq_bool (Qabs iv) 1); [reflexivity|].
  destruct (libm_pow w (Qabs iv) iw) as [ix errno].
  destruct errno as [| |text], ix as [z|negative|]; cbn;
    try destruct (Qeq_bool z 0); reflexivity.
Qed.

(** The retry time that [mark_job_failed] gets at an instant [t]. *)
Lemma retry_time_run t b w :
  in_range t = true ->
  (if le_zero b then utc_now_str w else _add_seconds (isoformat_z t) b w)
  = match retry_instant t (clock w (ticks w)) b with
    | Ok due => (Ok (isoformat_z due), if le_zero b then ticked w else w)
    | Raise e => (Raise e, w)
    end.
Proof.
  intros Hrange. unfold retry_instant. destruct (le_zero b).
  - apply utc_now_str_run.
  - unfold _add_seconds. rewrite (isoformat_z_roundtrip t Hrange).
    unfold bind, lift, ret. destruct (timedelta b) as [delta|e]; [|reflexivity].
    destruct (datetime_add t delta); reflexivity.
Qed.

(** The two ways [handle_failure] ends: it returns, and the row is
    rewritten by [fail]; or it raises, and no row is. *)
Lemma handle_failure_cases settings picked attempts' exit_code error_message w :
  (exists w' next,
      handle_failure settings picked attempts' exit_code error_message w
      = (Ok tt, w')
      /\ jobs w'
         = alter (fail (failure_state attempts' (AcquiredJob.max_retries picked))
                       attempts' (isoformat_z (clock w (ticks w))) next
                       (error_text exit_code error_message))
                 (AcquiredJob.id picked) (jobs w)
      /\ config w' = config w
      /\ int64 attempts' = true)
  \/ (exists e w',
        handle_failure settings picked attempts' exit_code error_message w
        = (Raise e, w')
        /\ jobs w' = jobs w /\ config w' = config w).
Proof.
  unfold handle_failure.
  pose proof (float_pow_world (backoff_base settings) attempts' w) as Hworld.
  destruct (float_pow (backoff_base settings) attempts' w) as [[b|e] w1] eqn:Hpow;
    cbn [snd] in Hworld; subst w1.
  2:{ right. exists e, w. now rewrite (bind_raise _ _ _ _ _ Hpow). }
  rewrite (bind_ok _ _ _ _ _ Hpow). cbv zeta.
  rewrite (bind_ok _ _ _ _ _ (utc_now_str_run w)).
  set (delay := if attempts' <? AcquiredJob.max_retries picked then b
                else Finite 0).
  set (now := isoformat_z (clock w (ticks w))).
  pose proof (quiet_log_failure picked attempts'
                (attempts' <? AcquiredJob.max_retries picked) error_message)
    as Htail.
  pose proof (mark_job_failed_run (AcquiredJob.id picked) attempts'
                (AcquiredJob.max_retries picked)
                (error_text exit_code error_message) now delay (ticked w))
    as Hmark.
  assert (exists r w1,
             (if le_zero delay then utc_now_str (ticked w)
              else _add_seconds now delay (ticked w)) = (r, w1)
             /\ jobs w1 = jobs w /\ config w1 = config w)
    as (r & w1 & Htime & Hjobs1 & Hconfig1).
  { destruct (le_zero delay).
    - rewrite utc_now_str_run. now eexists _, _.
    - pose proof (_add_seconds_world now delay (ticked w)) as Hsame.
      destruct (_add_seconds now delay (ticked w)) as [r w1].
      cbn [snd] in Hsame. subst w1. now eexists _, _. }
  rewrite Htime in Hmark. destruct r as [next|e].
  - destruct (int64 attempts') eqn:Hwide.
    + destruct (then_quiet _ _ _ _ Hmark Htail) as (w' & Hrun & Hjobs & Hconfig).
      left. exists w', next. split; [exact Hrun|].
      split; [rewrite Hjobs; cbn [set_jobs jobs]; now rewrite Hjobs1|].
      split; [now rewrite Hconfig|reflexivity].
    + right. eexists _, w1. now rewrite (bind_raise _ _ _ _ _ Hmark).
  - right. exists e, w1. now rewrite (bind_raise _ _ _ _ _ Hmark).
Qed.

(** [handle_failure] once the delay [b] is computed, at an instant of the
    calendar. *)
Lemma handle_failure_run settings picked attempts' exit_code error_message w b :
  fst (float_pow (backoff_base settings) attempts' w) = Ok b ->
  in_range (clock w (ticks w)) = true ->
  match retry_instant (clock w (ticks w)) (clock w (S (ticks w)))
          (if attempts' <? AcquiredJob.max_retries picked then b
           else Finite 0) with
  | Ok due =>
      if int64 attempts'
      then exists w',
          handle_failure settings picked attempts' exit_code error_message w
          = (Ok tt, w')
          /\ jobs w'
             = alter (fail (failure_state attempts'
                              (AcquiredJob.max_retries picked))
                           attempts' (isoformat_z (clock w (ticks w)))
                           (isoformat_z due)
                           (error_text exit_code error_message))
                     (AcquiredJob.id picked) (jobs w)
      else exists w',
          handle_failure settings picked attempts' exit_code error_message w
          = (Raise (OverflowError
                      "Python int too large to convert to SQLite INTEGER"), w')
          /\ jobs w' = jobs w
  | Raise e =>
      exists w',
        handle_failure settings picked attempts' exit_code error_message w
        = (Raise e, w')
        /\ jobs w' = jobs w
  end.
Proof.
  intros Hb Hrange. unfold handle_failure.
  pose proof (float_pow_world (backoff_base settings) attempts' w) as Hworld.
  destruct (float_pow (backoff_base settings) attempts' w) as [[b'|e] w1] eqn:Hpow;
    cbn [fst snd] in Hb, Hworld; [|discriminate]. injection Hb as ->. subst w1.
  rewrite (bind_ok _ _ _ _ _ Hpow). cbv zeta.
  rewrite (bind_ok _ _ _ _ _ (utc_now_str_run w)).
  set (delay := if attempts' <? AcquiredJob.max_retries picked then b
                else Finite 0).
  pose proof (quiet_log_failure picked attempts'
                (attempts' <? AcquiredJob.max_retries picked) error_message)
    as Htail.
  pose proof (mark_job_failed_run (AcquiredJob.id picked) attempts'
                (AcquiredJob.max_retries picked)
                (error_text exit_code error_message)
                (isoformat_z (clock w (ticks w))) delay (ticked w))
    as Hmark.
  rewrite (retry_time_run _ delay (ticked w) Hrange) in Hmark.
  change (clock (ticked w) (ticks (ticked w))) with (clock w (S (ticks w)))
    in Hmark.
  destruct (retry_instant (clock w (ticks w)) (clock w (S (ticks w))) delay)
    as [due|e].
  - destruct (int64 attempts').
    + destruct (then_quiet _ _ _ _ Hmark Htail) as (w' & Hrun & Hjobs & _).
      exists w'. split; [exact Hrun|]. rewrite Hjobs. cbn [set_jobs jobs].
      now destruct (le_zero delay).
    + eexists. rewrite (bind_raise _ _ _ _ _ Hmark). split; [reflexivity|].
      now destruct (le_zero delay).
  - eexists. rewrite (bind_raise _ _ _ _ _ Hmark). now split.
Qed.

(** A run that failed leaves [execute] with a non-zero exit code and a
    message, and the world untouched. *)
Lemma execute_failed job attempts' out w :
  failed_run out ->
  exists exit_code msg,
    execute job attempts' out w = (Ok (exit_code, Some msg), w)
    /\ exit_code <> 0.
Proof.
  destruct out as [code stdout stderr| | | |text]; simpl; intros Hfail.
  - apply Z.eqb_neq in Hfail. rewrite Hfail. eexists _, _. split; [reflexivity|].
    now apply Z.eqb_neq.
  - eexists _, _. split; [reflexivity|discriminate].
  - eexists _, _. split; [reflexivity|discriminate].
  - eexists _, _. split; [reflexivity|discriminate].
  - eexists _, _. split; [reflexivity|discriminate].
Qed.

(** After a run that failed, [process] is [handle_failure]. *)
Lemma process_failed_run settings job out w :
  failed_run out ->
  exists exit_code msg,
    process settings job out w
    = handle_failure settings job (AcquiredJob.attempts job + 1) exit_code
        (Some msg) w.
Proof.
  intros Hfail. unfold process.
  destruct (execute_failed job (AcquiredJob.attempts job + 1) out w Hfail)
    as (code & msg & Hexec & Hcode).
  rewrite (bind_ok _ _ _ _ _ Hexec). apply Z.eqb_neq in Hcode.
  rewrite Hcode. cbn [negb when]. now exists code, msg.
Qed.

(** ** The error text *)

Lemma length_substring_le n : forall s, (String.length (substring 0 n s) <= n)%nat.
Proof.
  induction n as [|n IH]; intros [|c s]; cbn [substring String.length]; try lia.
  specialize (IH s). lia.
Qed.

Lemma substring_nonempty n s : s <> "" -> substring 0 (S n) s <> "".
Proof. destruct s; [congruence|]. cbn [substring]. discriminate. Qed.

Lemma or_else_nonempty a b : b <> "" -> or_else a b <> "".
Proof.
  intros Hb. unfold or_else. destruct (String.eqb_spec a ""); assumption.
Qed.

Lemma error_text_nonempty exit_code error_message :
  error_text exit_code error_message <> "".
Proof. unfold error_text. apply or_else_nonempty. discriminate. Qed.

(** ** The state after a failure *)

(** C1, as stated, fails: the third failure of a job with [max_retries = 3]
    has [attempts <= max_retries], for which the specification says
    [failed], and [mark_job_failed] writes [dead]; the job is dead although
    its attempts do not exceed [max_retries]. *)
Lemma mark_job_failed_at_the_limit_is_dead :
  3 <= 3
  /\ spec_failure_state 3 3 = STATE_FAILED
  /\ state <$> jobs (snd (mark_job_failed "j1" 3 3 "boom"
                            "2024-01-02T03:04:06Z" (Finite 0)
                            (example_world busy_jobs))) !! "j1"
     = Some STATE_DEAD.
Proof. split; [lia|]. split; [reflexivity|]. vm_compute. reflexivity. Qed.

(** C1, amended.  On a job that exists, [mark_job_failed] with a
    post-increment [attempts] that fits the 64 bits of an SQLite INTEGER,
    and with a retry time that can be had (no positive delay, or
    [_add_seconds] returns on [now] and the delay), writes [failed] when
    [attempts < max_retries] and [dead] when [attempts >= max_retries]; so
    a job becomes dead exactly when its attempts have reached
    [max_retries]. *)
Theorem mark_job_failed_state
    (w : world) (job_id : string) (attempts' max_retries' : Z)
    (error now : string) (backoff_seconds : Float.float) (j : job) :
  jobs w !! job_id = Some j ->
  int64 attempts' = true ->
  timed now backoff_seconds w ->
  exists w' j',
    mark_job_failed job_id attempts' max_retries' error now backoff_seconds w
    = (Ok tt, w')
    /\ jobs w' !! job_id = Some j'
    /\ attempts j' = attempts'
    /\ (attempts' < max_retries' -> state j' = STATE_FAILED)
    /\ (max_retries' <= attempts' -> state j' = STATE_DEAD)
    /\ (state j' = STATE_DEAD <-> max_retries' <= attempts').
Proof.
  intros Hj Hwide Htimed.
  assert (forall na w1, jobs w1 = jobs w ->
    let j' := fail (failure_state attempts' max_retries') attempts' now na
                   error j in
    jobs (set_jobs (alter (fail (failure_state attempts' max_retries')
                                attempts' now na error) job_id (jobs w1)) w1)
         !! job_id = Some j'
    /\ attempts j' = attempts'
    /\ (attempts' < max_retries' -> state j' = STATE_FAILED)
    /\ (max_retries' <= attempts' -> state j' = STATE_DEAD)
    /\ (state j' = STATE_DEAD <-> max_retries' <= attempts')) as Hrow.
  { intros na w1 Hw1. cbn [set_jobs jobs]. rewrite Hw1, lookup_alter_eq, Hj.
    cbn [fail state attempts]. unfold failure_state.
    destruct (Z.ltb_spec attempts' max_retries');
      repeat split; intros; try reflexivity; try lia; discriminate. }
  rewrite mark_job_failed_run, Hwide.
  destruct (le_zero backoff_seconds) eqn:Hsign.
  - rewrite utc_now_str_run. eexists _, _. split; [reflexivity|].
    exact (Hrow _ (ticked w) eq_refl).
  - destruct Htimed as [Hle|(next & Hnext)]; [congruence|].
    pose proof (_add_seconds_world now backoff_seconds w) as Hworld.
    destruct (_add_seconds now backoff_seconds w) as [[next'|e] w1];
      cbn [fst snd] in Hnext, Hworld; [|discriminate]. subst w1.
    eexists _, _. split; [reflexivity|]. exact (Hrow _ w eq_refl).
Qed.

Lemma mark_job_failed_state_witness :
  exists w' j',
    mark_job_failed "j1" 2 3 "boom" "2024-01-02T03:04:06Z" (Finite 4)
      (example_world busy_jobs) = (Ok tt, w')
    /\ jobs w' !! "j1" = Some j'
    /\ attempts j' = 2
    /\ (2 < 3 -> state j' = STATE_FAILED)
    /\ (3 <= 2 -> state j' = STATE_DEAD)
    /\ (state j' = STATE_DEAD <-> 3 <= 2).
Proof.
  apply (mark_job_failed_state (example_world busy_jobs) "j1" 2 3 "boom"
           "2024-01-02T03:04:06Z" (Finite 4)
           (example_job STATE_PROCESSING 0 3
              "2024-01-02T03:00:00Z" "2024-01-02T03:00:00Z")).
  - reflexivity.
  - reflexivity.
  - right. exists "2024-01-02T03:04:10Z". vm_compute. reflexivity.
Defined.

(** ** The retry time *)




(** ** The recorded error *)




(** A command that exits with a non-zero code and prints nothing leaves
    the synthetic text; blank output leaves the other synthetic text. *)
Example silent_failure_text :
  last_error <$>
    jobs (snd (process (Settings "w1" (Finite 2) (Finite 2))
                 (AcquiredJob.Make "j1" "exit 1" 0 3)
                 (Returned 1 "" "") (example_world busy_jobs))) !! "j1"
  = Some (Some "Command exited with code 1").
Proof. vm_compute. reflexivity. Qed.

Example blank_failure_text :
  last_error <$>
    jobs (snd (process (Settings "w1" (Finite 2) (Finite 2))
                 (AcquiredJob.Make "j1" "exit 1" 0 3)
                 (Returned (-9) "" "  ") (example_world busy_jobs))) !! "j1"
  = Some (Some "Command failed with exit code -9 (no error output)").
Proof. vm_compute. reflexivity. Qed.

(** A command that succeeds completes the job on its first attempt. *)
Example happy_path :
  jobs (snd (iteration (Settings "w1" (Finite 2) (Finite 2))
               (Returned 0 "ok" "")
               (example_world
                  (<["j3" := example_job STATE_PENDING 0 3
                               "2024-01-02T03:00:02Z" "2024-01-02T03:00:02Z"]>
                     idle_jobs)))) !! "j3"
  = Some (Job "exit 1" STATE_COMPLETED 1 3 "2024-01-02T03:00:02Z"
              "2024-01-02T03:04:06.178901Z" "2024-01-02T03:00:02Z"
              (Some "2024-01-02T03:04:05.678901Z")
              (Some "2024-01-02T03:04:06.178901Z") None).
Proof. vm_compute. reflexivity. Qed.

(** ** The stop check *)

(** Where the check returns, it says stop only for the flag or a truthy
    [stop] entry, and a missing file or text that is not JSON means go on. *)
Lemma should_stop_returns (flag : bool) (file : control_file) (b : bool) :
  _should_stop flag file = Ok b ->
  b = true ->
  flag = true
  \/ exists members v,
       file = Document (JObject members)
       /\ dict_get "stop" members = Some v /\ truthy v = true.
Proof.
  unfold _should_stop. destruct flag; [now left|].
  destruct file as [| | |[| | | | | |members]]; try discriminate;
    try (intros [= <-]; discriminate).
  intros [= <-] Hb. right.
  destruct (dict_get "stop" members) as [v|] eqn:Hget; [|discriminate].
  now exists members, v.
Qed.

Lemma should_stop_tolerates_bad_json (file : control_file) :
  file = Missing \/ file = NotJson -> _should_stop false file = Ok false.
Proof. now intros [-> | ->]. Qed.

(** The check raises only with the flag unset, on bytes that are not UTF-8
    or on a JSON document that is not an object. *)
Lemma should_stop_raises (flag : bool) (file : control_file) (e : exn) :
  _should_stop flag file = Raise e ->
  flag = false
  /\ (file = NotUtf8
      \/ exists v, file = Document v /\ forall members, v <> JObject members).
Proof.
  unfold _should_stop. destruct flag; [discriminate|]. intros Hraise.
  split; [reflexivity|].
  destruct file as [| | |v]; try discriminate; [now left|]. right.
  exists v. split; [reflexivity|]. intros members ->. discriminate.
Qed.

(** C7. The stop check is meant never to crash and to read a control file
    that is not a JSON object with a [stop] entry as stop=false.  The code
    falls short of it: a control file holding the JSON document [[]] is
    well-formed JSON but no object, and the check raises [AttributeError]
    instead of answering false. *)
Theorem should_stop_raises_on_a_json_array :
  _should_stop false (Document (JArray []))
  = Raise (AttributeError "object has no attribute 'get'").
Proof. reflexivity. Qed.

(** ** Enqueueing *)

Lemma enqueue_requires_a_command (job_json : Cli.json_argument)
    (id command : option string) (max_retries : option Z) (w : world) :
  Cli.given command = false ->
  match job_json with
  | Cli.NoPayload => True
  | Cli.InvalidJson _ => False
  | Cli.Payload d => d_command d = None
  end ->
  Cli.enqueue job_json id command max_retries w
  = (Raise (BadParameter "Command is required"), w).
Proof.
  intros Hcmd Hjson. unfold Cli.enqueue. rewrite Hcmd.
  destruct job_json as [|msg|d]; [|destruct Hjson|];
    unfold bind, ret; destruct (Cli.given id); cbn; try rewrite Hjson;
    reflexivity.
Qed.

(** The HTTP route refuses an empty command and inserts nothing. *)
Lemma api_enqueue_job_refuses_an_empty_command (id : option string)
    (max_retries : option Z) (w : world) :
  exists w', Web.api_enqueue_job id (Some "") max_retries w = (Ok 400, w')
             /\ jobs w' = jobs w.
Proof.
  unfold Web.api_enqueue_job.
  destruct (Cli.given id); eexists; split; reflexivity.
Qed.

(** C8. [enqueue] is meant to refuse a command that is absent or empty and
    to store only non-empty commands.  The code falls short of it: the
    command line [enqueue '{"command": ""}'] is accepted, and a job whose
    command is the empty string is inserted. *)
Theorem enqueue_accepts_an_empty_command :
  fst (Cli.enqueue
         (Cli.Payload (JobDict None (Some "") None None None None None None
                         None None None))
         None None None (example_world ∅)) = Ok tt
  /\ command <$>
       jobs (snd (Cli.enqueue
                    (Cli.Payload (JobDict None (Some "") None None None None
                                    None None None None None))
                    None None None (example_world ∅))) !! "job-3f2a9c0e"
     = Some "".
Proof. split; vm_compute; reflexivity. Qed.

(** The command-line [delete] looks the job up first and refuses an id that
    is absent; the store's [delete_job] itself never does. *)
Lemma delete_job_cli_absent (job_id : string) (w : world) :
  jobs w !! job_id = None ->
  Cli.delete_job_cli job_id w
  = (Raise (BadParameter ("Job " ++ job_id ++ " not found")), w).
Proof.
  intros Habsent. unfold Cli.delete_job_cli, get_job, query_jobs, bind.
  now rewrite Habsent.
Qed.

(** ** Enqueueing and looking up *)

Lemma insert_job_fresh job_id record w :
  jobs w !! job_id = None ->
  insert_job job_id record w
  = (Ok tt, set_jobs (<[job_id := record]> (jobs w)) w).
Proof.
  intros Hfresh. unfold insert_job, bind, query_jobs. now rewrite Hfresh.
Qed.

Lemma insert_job_known job_id record w j :
  jobs w !! job_id = Some j ->
  insert_job job_id record w
  = (Raise (IntegrityError "UNIQUE constraint failed: jobs.id"), w).
Proof.
  intros Hknown. unfold insert_job, bind, query_jobs. now rewrite Hknown.
Qed.

Lemma bind_int_then {A} (n : Z) (k : M A) (w : world) :
  bind (bind_int n) (fun _ => k) w
  = if int64 n then k w
    else (Raise (OverflowError
                   "Python int too large to convert to SQLite INTEGER"), w).
Proof. unfold bind, bind_int. now destruct (int64 n). Qed.

(** X1. [enqueue_job] of a dictionary with an id that is not in the table,
    whose [attempts] and [max_retries] (given, or else [0] and
    [DEFAULT_MAX_RETRIES]) fit the 64 bits of an SQLite INTEGER, returns
    normally, and [get_job] of that id then finds the row: the command as
    given, the other columns as given or else [pending], [0] attempts,
    [DEFAULT_MAX_RETRIES] and the time of the call ([available_at] also
    when it is given empty).  No other row and no config entry changes. *)
Theorem enqueue_job_then_get_job
    (d : job_dict) (w : world) (job_id cmd : string) :
  d_id d = Some job_id -> d_command d = Some cmd ->
  int64 (get_or (d_attempts d) 0) = true ->
  int64 (get_or (d_max_retries d) DEFAULT_MAX_RETRIES) = true ->
  jobs w !! job_id = None ->
  exists w',
    enqueue_job d w = (Ok tt, w')
    /\ get_job job_id w'
       = (Ok (Some (Job cmd
                       (get_or (d_state d) STATE_PENDING)
                       (get_or (d_attempts d) 0)
                       (get_or (d_max_retries d) DEFAULT_MAX_RETRIES)
                       (get_or (d_created_at d)
                          (isoformat_z (clock w (ticks w))))
                       (get_or (d_updated_at d)
                          (isoformat_z (clock w (ticks w))))
                       (str_or (d_available_at d)
                          (isoformat_z (clock w (ticks w))))
                       (d_processing_started_at d) (d_completed_at d)
                       (d_last_error d))), w')
    /\ (forall other, other <> job_id -> jobs w' !! other = jobs w !! other)
    /\ config w' = config w.
Proof.
  intros Hid Hcmd Hattempts Hretries Hfresh. unfold enqueue_job.
  rewrite (bind_ok _ _ _ _ _ (utc_now_str_run w)), Hid, Hcmd.
  cbn [attempts max_retries].
  rewrite bind_int_then, Hattempts, bind_int_then, Hretries.
  rewrite insert_job_fresh by exact Hfresh.
  eexists. split; [reflexivity|]. unfold get_job, query_jobs. cbn [jobs set_jobs].
  rewrite lookup_insert_eq. split; [reflexivity|]. split; [|reflexivity].
  intros other Hne. cbn. now rewrite lookup_insert_ne.
Qed.

Lemma enqueue_job_then_get_job_witness :
  exists w',
    enqueue_job (JobDict (Some "j9") (Some "echo hi") None None (Some 5) None
                   None (Some "") None None None) (example_world idle_jobs)
    = (Ok tt, w')
    /\ get_job "j9" w'
       = (Ok (Some (Job "echo hi" "pending" 0 5 "2024-01-02T03:04:05.678901Z"
                       "2024-01-02T03:04:05.678901Z"
                       "2024-01-02T03:04:05.678901Z" None None None)), w')
    /\ (forall other, other <> "j9" -> jobs w' !! other = idle_jobs !! other)
    /\ config w' = ∅.
Proof.
  apply (enqueue_job_then_get_job
           (JobDict (Some "j9") (Some "echo hi") None None (Some 5) None None
              (Some "") None None None) (example_world idle_jobs) "j9"
           "echo hi"); reflexivity.
Defined.

(** X2. [enqueue_job] of a dictionary whose id is already in the table
    raises and leaves the rows and the config as they were, no row is
    overwritten: [IntegrityError], the primary key being unique, when
    [attempts] and [max_retries] (given, or else [0] and
    [DEFAULT_MAX_RETRIES]) fit the 64 bits of an SQLite INTEGER, and
    [OverflowError] before the INSERT is run when one of them does not. *)
Theorem enqueue_job_refuses_a_known_id
    (d : job_dict) (w : world) (job_id cmd : string) (j : job) :
  d_id d = Some job_id -> d_command d = Some cmd ->
  jobs w !! job_id = Some j ->
  exists w',
    enqueue_job d w
    = (Raise (if int64 (get_or (d_attempts d) 0)
                 && int64 (get_or (d_max_retries d) DEFAULT_MAX_RETRIES)
              then IntegrityError "UNIQUE constraint failed: jobs.id"
              else OverflowError
                     "Python int too large to convert to SQLite INTEGER"),
       w')
    /\ jobs w' = jobs w /\ config w' = config w.
Proof.
  intros Hid Hcmd Hknown. unfold enqueue_job.
  rewrite (bind_ok _ _ _ _ _ (utc_now_str_run w)), Hid, Hcmd.
  cbn [attempts max_retries]. rewrite bind_int_then.
  destruct (int64 (get_or (d_attempts d) 0)); [|now eexists].
  rewrite bind_int_then.
  destruct (int64 (get_or (d_max_retries d) DEFAULT_MAX_RETRIES));
    [|now eexists].
  erewrite insert_job_known by exact Hknown. now eexists.
Qed.

Lemma enqueue_job_refuses_a_known_id_witness :
  exists w',
    enqueue_job (JobDict (Some "j1") (Some "echo hi") None None None None None
                   None None None None) (example_world idle_jobs)
    = (Raise (if int64 (get_or None 0)
                 && int64 (get_or None DEFAULT_MAX_RETRIES)
              then IntegrityError "UNIQUE constraint failed: jobs.id"
              else OverflowError
                     "Python int too large to convert to SQLite INTEGER"),
       w')
    /\ jobs w' = idle_jobs /\ config w' = ∅.
Proof.
  apply (enqueue_job_refuses_a_known_id
           (JobDict (Some "j1") (Some "echo hi") None None None None None None
              None None None) (example_world idle_jobs) "j1" "echo hi"
           (example_job STATE_COMPLETED 1 3
              "2024-01-02T03:00:00Z" "2024-01-02T03:00:00Z")); reflexivity.
Defined.

Lemma length_zero_padded k : forall n acc,
  String.length (zero_padded k n acc) = (k + String.length acc)%nat.
Proof.
  induction k as [|k IH]; intros n acc; cbn [zero_padded]; [reflexivity|].
  rewrite IH. cbn [String.length]. lia.
Qed.

Lemma length_append (a b : string) :
  String.length (a ++ b) = (String.length a + String.length b)%nat.
Proof.
  induction a as [|c a IH]; [reflexivity|].
  change (String c a ++ b) with (String c (a ++ b)). cbn [String.length].
  now rewrite IH.
Qed.

(** A timestamp is never the empty string. *)
Lemma isoformat_z_nonempty t : isoformat_z t <> "".
Proof.
  unfold isoformat_z, isoformat.
  destruct (civil_from_days (t / us_per_day)) as [[y m] d].
  rewrite replace_offset_app by (apply plainb_zero_padded; reflexivity).
  intros Hempty. apply (f_equal String.length) in Hempty.
  rewrite length_append, length_zero_padded in Hempty. discriminate.
Qed.

Lemma str_or_timestamp t other : str_or (Some (isoformat_z t)) other = isoformat_z t.
Proof.
  unfold str_or. destruct (String.eqb_spec (isoformat_z t) ""); [|reflexivity].
  now destruct (isoformat_z_nonempty t).
Qed.

Lemma given_true s : s <> "" -> Cli.given (Some s) = true.
Proof. intros H. unfold Cli.given. now apply negb_true_iff, String.eqb_neq. Qed.

Lemma get_job_run job_id w : get_job job_id w = (Ok (jobs w !! job_id), w).
Proof. reflexivity. Qed.

(** X3. The command [enqueue --id ID --command CMD], with an id that is not
    in the table, inserts one row: CMD, [pending], no attempts, all three
    timestamps the time of the call, and [max_retries] as given by
    [--max-retries], a number that fits the 64 bits of an SQLite INTEGER, or
    [DEFAULT_MAX_RETRIES] when neither the option nor a configured default
    is there.  No other row and no config entry changes. *)
Theorem enqueue_inserts_a_pending_job
    (w : world) (job_id cmd : string) (max_retries' : option Z) :
  job_id <> "" -> cmd <> "" ->
  jobs w !! job_id = None ->
  (max_retries' = None -> config w !! CONFIG_MAX_RETRIES = None) ->
  int64 (get_or max_retries' DEFAULT_MAX_RETRIES) = true ->
  exists w',
    Cli.enqueue Cli.NoPayload (Some job_id) (Some cmd) max_retries' w
    = (Ok tt, w')
    /\ jobs w'
       = <[job_id := Job cmd STATE_PENDING 0
                         (get_or max_retries' DEFAULT_MAX_RETRIES)
                         (isoformat_z (clock w (ticks w)))
                         (isoformat_z (clock w (ticks w)))
                         (isoformat_z (clock w (ticks w)))
                         None None None]> (jobs w)
    /\ config w' = config w.
Proof.
  intros Hid Hcmd Hfresh Hconfig Hwide. unfold Cli.enqueue.
  rewrite (given_true _ Hid), (given_true _ Hcmd).
  unfold bind at 1. cbn [ret Cli.empty_dict Cli.set_id Cli.set_command
    Storage.get_or d_command d_id].
  unfold bind at 1. cbn [ret].
  rewrite (bind_ok _ _ _ _ _ (get_job_run job_id w)), Hfresh.
  destruct max_retries' as [n|].
  - unfold bind at 1. cbn [ret].
    rewrite (bind_ok _ _ _ _ _ (utc_now_str_run w)).
    unfold enqueue_job.
    rewrite (bind_ok _ _ _ _ _ (utc_now_str_run (ticked w))).
    cbn [Cli.setdefaults Cli.set_max_retries Cli.set_command Cli.set_id
      Cli.empty_dict Cli.default Storage.get_or
      d_id d_command d_state d_attempts d_max_retries d_created_at
      d_updated_at d_available_at d_processing_started_at d_completed_at
      d_last_error attempts max_retries].
    rewrite bind_int_then. change (int64 0) with true. cbv iota.
    rewrite bind_int_then. cbn [Storage.get_or] in Hwide. rewrite Hwide.
    rewrite str_or_timestamp, insert_job_fresh by exact Hfresh. now eexists.
  - unfold Cli.configured_max_retries, get_config.
    unfold bind at 1. unfold bind at 1.
    rewrite (Hconfig eq_refl). cbn [fmap option_fmap option_map Cli.given ret].
    rewrite (bind_ok _ _ _ _ _ (utc_now_str_run w)).
    unfold enqueue_job.
    rewrite (bind_ok _ _ _ _ _ (utc_now_str_run (ticked w))).
    cbn [Cli.setdefaults Cli.set_max_retries Cli.set_command Cli.set_id
      Cli.empty_dict Cli.default Storage.get_or
      d_id d_command d_state d_attempts d_max_retries d_created_at
      d_updated_at d_available_at d_processing_started_at d_completed_at
      d_last_error attempts max_retries].
    rewrite bind_int_then. change (int64 0) with true. cbv iota.
    rewrite bind_int_then. cbn [Storage.get_or] in Hwide. rewrite Hwide.
    rewrite str_or_timestamp, insert_job_fresh by exact Hfresh. now eexists.
Qed.

Lemma enqueue_inserts_a_pending_job_witness :
  exists w',
    Cli.enqueue Cli.NoPayload (Some "j9") (Some "echo hi") None
      (example_world idle_jobs) = (Ok tt, w')
    /\ jobs w'
       = <["j9" := Job "echo hi" STATE_PENDING 0
                       (Storage.get_or None DEFAULT_MAX_RETRIES)
                       (isoformat_z (example_clock 0))
                       (isoformat_z (example_clock 0))
                       (isoformat_z (example_clock 0))
                       None None None]> idle_jobs
    /\ config w' = ∅.
Proof.
  apply (enqueue_inserts_a_pending_job (example_world idle_jobs) "j9"
           "echo hi" None); [discriminate|discriminate|reflexivity| |reflexivity].
  intros _. reflexivity.
Defined.

(** X4. The command [enqueue --id ID --command CMD] with an id that is in
    the table raises [BadParameter] with the text "Job ID already
    exists", and changes nothing: neither a row nor the clock reading nor
    the log. *)
Theorem enqueue_refuses_a_known_id
    (w : world) (job_id cmd : string) (max_retries' : option Z) (j : job) :
  job_id <> "" -> cmd <> "" ->
  jobs w !! job_id = Some j ->
  Cli.enqueue Cli.NoPayload (Some job_id) (Some cmd) max_retries' w
  = (Raise (BadParameter ("Job " ++ job_id ++ " already exists")), w).
Proof.
  intros Hid Hcmd Hknown. unfold Cli.enqueue.
  rewrite (given_true _ Hid), (given_true _ Hcmd).
  unfold bind at 1. cbn [ret Cli.empty_dict Cli.set_id Cli.set_command
    Storage.get_or d_command d_id].
  unfold bind at 1. cbn [ret].
  rewrite (bind_ok _ _ _ _ _ (get_job_run job_id w)), Hknown. reflexivity.
Qed.

Lemma enqueue_refuses_a_known_id_witness :
  Cli.enqueue Cli.NoPayload (Some "j1") (Some "echo hi") (Some 7)
    (example_world idle_jobs)
  = (Raise (BadParameter ("Job " ++ "j1" ++ " already exists")),
     example_world idle_jobs).
Proof.
  apply (enqueue_refuses_a_known_id (example_world idle_jobs) "j1" "echo hi"
           (Some 7)
           (example_job STATE_COMPLETED 1 3
              "2024-01-02T03:00:00Z" "2024-01-02T03:00:00Z"));
    [discriminate|discriminate|reflexivity].
Defined.

(** Without [--max-retries], the default is read from the config table
    before the row is written. *)
Lemma enqueue_fresh_run (w : world) (job_id cmd : string) :
  job_id <> "" -> cmd <> "" ->
  jobs w !! job_id = None ->
  Cli.enqueue Cli.NoPayload (Some job_id) (Some cmd) None w
  = match fst (Cli.configured_max_retries w) with
    | Ok n =>
        if int64 n
        then (Ok tt,
              set_jobs (<[job_id := Job cmd STATE_PENDING 0 n
                                        (isoformat_z (clock w (ticks w)))
                                        (isoformat_z (clock w (ticks w)))
                                        (isoformat_z (clock w (ticks w)))
                                        None None None]> (jobs w))
                       (ticked (ticked w)))
        else (Raise (OverflowError
                       "Python int too large to convert to SQLite INTEGER"),
              ticked (ticked w))
    | Raise e => (Raise e, w)
    end.
Proof.
  intros Hid Hcmd Hfresh. unfold Cli.enqueue.
  rewrite (given_true _ Hid), (given_true _ Hcmd).
  unfold bind at 1. cbn [ret Cli.empty_dict Cli.set_id Cli.set_command
    Storage.get_or d_command d_id].
  unfold bind at 1. cbn [ret].
  rewrite (bind_ok _ _ _ _ _ (get_job_run job_id w)), Hfresh.
  assert (snd (Cli.configured_max_retries w) = w) as Hworld.
  { unfold Cli.configured_max_retries, get_config, bind.
    cbn [fst snd]. destruct (Cli.given _); [|reflexivity].
    unfold lift. reflexivity. }
  unfold bind at 1.
  destruct (Cli.configured_max_retries w) as [[n|e] w0]; cbn [fst snd] in *;
    subst w0; [|reflexivity].
  rewrite (bind_ok _ _ _ _ _ (utc_now_str_run w)).
  unfold enqueue_job.
  rewrite (bind_ok _ _ _ _ _ (utc_now_str_run (ticked w))).
  cbn [Cli.setdefaults Cli.set_max_retries Cli.set_command Cli.set_id
    Cli.empty_dict Cli.default Storage.get_or
    d_id d_command d_state d_attempts d_max_retries d_created_at
    d_updated_at d_available_at d_processing_started_at d_completed_at
    d_last_error attempts max_retries].
  rewrite bind_int_then. change (int64 0) with true. cbv iota.
  rewrite bind_int_then. destruct (int64 n); [|reflexivity].
  now rewrite str_or_timestamp, insert_job_fresh by exact Hfresh.
Qed.

Lemma configured_max_retries_run (w : world) (value : string) :
  fst <$> config w !! CONFIG_MAX_RETRIES = Some value -> value <> "" ->
  Cli.configured_max_retries w = (Cli.int_of_str value, w).
Proof.
  intros Hconfig Hvalue. unfold Cli.configured_max_retries, get_config.
  unfold bind. rewrite Hconfig. cbn [Storage.get_or].
  rewrite (given_true _ Hvalue). unfold lift. reflexivity.
Qed.

(** X5. Without [--max-retries], the command [enqueue] takes the
    retry limit from the config entry [max_retries_default], read as an
    integer by [int]: the new row gets that number when it fits the 64 bits
    of an SQLite INTEGER, and [enqueue] raises [OverflowError] and inserts
    nothing when it does not; a value that is no integer makes [enqueue]
    raise the [ValueError] of [int] and insert nothing. *)
Theorem enqueue_takes_the_configured_default
    (w : world) (job_id cmd value stamp : string) :
  job_id <> "" -> cmd <> "" ->
  jobs w !! job_id = None ->
  config w !! CONFIG_MAX_RETRIES = Some (value, stamp) ->
  value <> "" ->
  match Cli.int_of_str value with
  | Ok n =>
      exists w',
        Cli.enqueue Cli.NoPayload (Some job_id) (Some cmd) None w
        = (if int64 n then Ok tt
           else Raise (OverflowError
                         "Python int too large to convert to SQLite INTEGER"),
           w')
        /\ jobs w'
           = (if int64 n
              then <[job_id := Job cmd STATE_PENDING 0 n
                                   (isoformat_z (clock w (ticks w)))
                                   (isoformat_z (clock w (ticks w)))
                                   (isoformat_z (clock w (ticks w)))
                                   None None None]> (jobs w)
              else jobs w)
        /\ config w' = config w
  | Raise e =>
      Cli.enqueue Cli.NoPayload (Some job_id) (Some cmd) None w = (Raise e, w)
  end.
Proof.
  intros Hid Hcmd Hfresh Hconfig Hvalue.
  rewrite (enqueue_fresh_run w job_id cmd Hid Hcmd Hfresh).
  rewrite (configured_max_retries_run w value)
    by (first [exact Hvalue|now rewrite Hconfig]).
  cbn [fst]. destruct (Cli.int_of_str value) as [n|e]; [|reflexivity].
  destruct (int64 n); eexists; (split; [reflexivity|]); split; reflexivity.
Qed.

Lemma enqueue_takes_the_configured_default_witness :
  (exists w',
     Cli.enqueue Cli.NoPayload (Some "j9") (Some "echo hi") None
       (configured_world " 1_2 ") = (Ok tt, w')
     /\ jobs w' !! "j9"
        = Some (Job "echo hi" "pending" 0 12 "2024-01-02T03:04:05.678901Z"
                  "2024-01-02T03:04:05.678901Z" "2024-01-02T03:04:05.678901Z"
                  None None None))
  /\ (exists w',
        Cli.enqueue Cli.NoPayload (Some "j9") (Some "echo hi") None
          (configured_world "9223372036854775808")
        = (Raise (OverflowError
                    "Python int too large to convert to SQLite INTEGER"), w')
        /\ jobs w' = idle_jobs)
  /\ Cli.enqueue Cli.NoPayload (Some "j9") (Some "echo hi") None
       (configured_world "3.5")
     = (Raise (ValueError "invalid literal for int() with base 10"),
        configured_world "3.5").
Proof.
  split; [|split].
  - destruct (enqueue_takes_the_configured_default
                (configured_world " 1_2 ")
                "j9" "echo hi" " 1_2 " "2024-01-01T00:00:00Z")
      as (w' & Hrun & Hjobs & _);
      [discriminate|discriminate|reflexivity|reflexivity|discriminate|].
    exists w'. split; [exact Hrun|]. rewrite Hjobs. reflexivity.
  - destruct (enqueue_takes_the_configured_default
                (configured_world "9223372036854775808")
                "j9" "echo hi" "9223372036854775808" "2024-01-01T00:00:00Z")
      as (w' & Hrun & Hjobs & _);
      [discriminate|discriminate|reflexivity|reflexivity|discriminate|].
    exists w'. split; [exact Hrun|exact Hjobs].
  - apply (enqueue_takes_the_configured_default
             (configured_world "3.5")
             "j9" "echo hi" "3.5" "2024-01-01T00:00:00Z");
      [discriminate|discriminate|reflexivity|reflexivity|discriminate].
Defined.

(** ** The config table *)

Import ConfigTable.

Lemma get_config_run key w :
  get_config key w = (Ok (fst <$> config w !! key), w).
Proof. reflexivity. Qed.

(** X6. After [set_config key value], [get_config key] returns that value,
    whether the key was there before or not; the value read under any other
    key is what it was, and no row of the jobs table changes. *)
Theorem set_config_then_get_config (w : world) (key value : string) :
  exists w',
    set_config key value w = (Ok tt, w')
    /\ get_config key w' = (Ok (Some value), w')
    /\ (forall other, other <> key ->
          fst (get_config other w') = fst (get_config other w))
    /\ jobs w' = jobs w.
Proof.
  eexists. split; [reflexivity|]. rewrite !get_config_run. cbn [config].
  rewrite lookup_insert_eq. split; [reflexivity|]. split; [|reflexivity].
  intros other Hne. rewrite !get_config_run. cbn [fst config].
  now rewrite lookup_insert_ne.
Qed.

Lemma ensure_config_default_present key value w existing :
  config w !! key = Some existing ->
  ensure_config_default key value w = (Ok tt, w).
Proof.
  intros Hpresent. unfold ensure_config_default, bind, query_config.
  now rewrite Hpresent.
Qed.

Lemma ensure_config_default_missing key value w :
  config w !! key = None ->
  ensure_config_default key value w
  = (Ok tt, World (jobs w)
                  (<[key := (value, isoformat_z (clock w (ticks w)))]>
                     (config w))
                  (clock w) (S (ticks w)) (uuids w) (drawn w) (log w)
                  (libm_pow w) (other_timestamps w)).
Proof.
  intros Hmissing. unfold ensure_config_default, bind, query_config.
  now rewrite Hmissing.
Qed.

(** What [ensure_config_default] does to the table, whichever case. *)
Lemma ensure_config_default_spec key value w :
  exists w',
    ensure_config_default key value w = (Ok tt, w')
    /\ jobs w' = jobs w
    /\ (forall k v, fst <$> config w !! k = Some v ->
                    fst <$> config w' !! k = Some v)
    /\ (exists v, fst <$> config w' !! key = Some v)
    /\ (config w !! key = None -> fst <$> config w' !! key = Some value).
Proof.
  destruct (config w !! key) as [existing|] eqn:Hkey.
  - exists w. rewrite (ensure_config_default_present _ _ _ _ Hkey).
    split; [reflexivity|]. split; [reflexivity|]. split; [auto|].
    split; [|discriminate]. exists (fst existing). now rewrite Hkey.
  - eexists. rewrite (ensure_config_default_missing _ _ _ Hkey).
    split; [reflexivity|]. split; [reflexivity|]. cbn [config]. split; [|split].
    + intros k v Hk. destruct (decide (key = k)) as [<-|Hne].
      * rewrite Hkey in Hk. discriminate.
      * now rewrite lookup_insert_ne.
    + exists value. now rewrite lookup_insert_eq.
    + intros _. now rewrite lookup_insert_eq.
Qed.

Lemma init_db_spec (w : world) :
  exists w',
    init_db w = (Ok tt, w')
    /\ jobs w' = jobs w
    /\ (forall key value, fst <$> config w !! key = Some value ->
                          fst <$> config w' !! key = Some value)
    /\ (forall key, In key [CONFIG_MAX_RETRIES; CONFIG_BACKOFF_BASE;
                            CONFIG_POLL_INTERVAL] ->
                    exists value, fst <$> config w' !! key = Some value)
    /\ (config w !! CONFIG_MAX_RETRIES = None ->
        fst <$> config w' !! CONFIG_MAX_RETRIES
        = Some (str_of_int DEFAULT_MAX_RETRIES)).
Proof.
  unfold init_db.
  destruct (ensure_config_default_spec CONFIG_MAX_RETRIES
              (str_of_int DEFAULT_MAX_RETRIES) w)
    as (w1 & Hrun1 & Hjobs1 & Hkeep1 & Hset1 & Hnew1).
  destruct (ensure_config_default_spec CONFIG_BACKOFF_BASE
              (str_of_int DEFAULT_BACKOFF_BASE) w1)
    as (w2 & Hrun2 & Hjobs2 & Hkeep2 & Hset2 & _).
  destruct (ensure_config_default_spec CONFIG_POLL_INTERVAL
              DEFAULT_POLL_INTERVAL_str w2)
    as (w3 & Hrun3 & Hjobs3 & Hkeep3 & Hset3 & _).
  exists w3.
  rewrite (bind_ok _ _ _ _ _ Hrun1), (bind_ok _ _ _ _ _ Hrun2), Hrun3.
  split; [reflexivity|]. split; [congruence|]. split; [auto|]. split; [|auto].
  intros key [<-|[<-|[<-|[]]]].
  - destruct Hset1 as [v Hv]. exists v. auto.
  - destruct Hset2 as [v Hv]. exists v. auto.
  - exact Hset3.
Qed.

(** X7. [init_db] returns normally and never overwrites: every config value
    that could be read before reads the same afterwards.  Afterwards the
    three keys [max_retries_default], [backoff_base] and [poll_interval] all
    have a value, the jobs table is as it was, and running [init_db] once
    more changes nothing at all. *)
Theorem init_db_sets_missing_defaults_only (w : world) :
  exists w',
    init_db w = (Ok tt, w')
    /\ jobs w' = jobs w
    /\ (forall key value, fst (get_config key w) = Ok (Some value) ->
                          fst (get_config key w') = Ok (Some value))
    /\ (forall key, In key [CONFIG_MAX_RETRIES; CONFIG_BACKOFF_BASE;
                            CONFIG_POLL_INTERVAL] ->
                    exists value, fst (get_config key w') = Ok (Some value))
    /\ init_db w' = (Ok tt, w').
Proof.
  destruct (init_db_spec w) as (w3 & Hrun & Hjobs & Hkeep & Hall & _).
  exists w3. split; [exact Hrun|]. split; [exact Hjobs|]. split; [|split].
  - intros key value. rewrite !get_config_run. cbn [fst].
    intros [= Hv]. f_equal. auto.
  - intros key Hkey. rewrite get_config_run. cbn [fst].
    destruct (Hall key Hkey) as [v Hv]. exists v. now rewrite Hv.
  - assert (forall key, In key [CONFIG_MAX_RETRIES; CONFIG_BACKOFF_BASE;
                                CONFIG_POLL_INTERVAL] ->
                        exists existing, config w3 !! key = Some existing)
      as Hpresent.
    { intros key Hkey. destruct (Hall key Hkey) as [v Hv].
      destruct (config w3 !! key) as [x|]; [now exists x|discriminate]. }
    destruct (Hpresent CONFIG_MAX_RETRIES) as [x1 Hx1]; [simpl; auto|].
    destruct (Hpresent CONFIG_BACKOFF_BASE) as [x2 Hx2]; [simpl; auto|].
    destruct (Hpresent CONFIG_POLL_INTERVAL) as [x3 Hx3]; [simpl; auto|].
    unfold init_db.
    rewrite (bind_ok _ _ _ _ _ (ensure_config_default_present _ _ _ _ Hx1)).
    rewrite (bind_ok _ _ _ _ _ (ensure_config_default_present _ _ _ _ Hx2)).
    apply (ensure_config_default_present _ _ _ _ Hx3).
Qed.

(** ** What the updates keep *)

Lemma alter_keeps (f : job -> job) (js : gmap string job) job_id :
  (forall j, same_identity j (f j)) ->
  forall id j, js !! id = Some j ->
    exists j', alter f job_id js !! id = Some j' /\ same_identity j j'.
Proof.
  intros Hf id j Hj. destruct (decide (job_id = id)) as [->|Hne].
  - exists (f j). rewrite lookup_alter_eq, Hj. auto.
  - exists j. rewrite lookup_alter_ne by exact Hne. split; [exact Hj|].
    now repeat split.
Qed.

Lemma alter_keeps_ids (f : job -> job) (js : gmap string job) job_id id :
  alter f job_id js !! id = None <-> js !! id = None.
Proof.
  destruct (decide (job_id = id)) as [->|Hne].
  - rewrite lookup_alter_eq. destruct (js !! id); simpl; split; congruence.
  - now rewrite lookup_alter_ne.
Qed.

Lemma mark_job_failed_result job_id attempts' max_retries' error now b w :
  exists next_available w1,
    jobs w1 = jobs w /\ config w1 = config w
    /\ (mark_job_failed job_id attempts' max_retries' error now b w
        = (Ok tt,
           set_jobs (alter (fail (failure_state attempts' max_retries')
                                 attempts' now next_available error)
                           job_id (jobs w1)) w1)
        \/ exists e, mark_job_failed job_id attempts' max_retries' error now b w
                     = (Raise e, w1)).
Proof.
  rewrite mark_job_failed_run.
  assert (exists r w1,
             (if le_zero b then utc_now_str w else _add_seconds now b w)
             = (r, w1)
             /\ jobs w1 = jobs w /\ config w1 = config w)
    as (r & w1 & -> & Hjobs & Hconfig).
  { destruct (le_zero b).
    - rewrite utc_now_str_run. now eexists _, _.
    - pose proof (_add_seconds_world now b w) as Hsame.
      destruct (_add_seconds now b w) as [r w1]. cbn [snd] in Hsame.
      subst w1. now eexists _, _. }
  destruct r as [next|e].
  - exists next, w1. split; [exact Hjobs|]. split; [exact Hconfig|].
    destruct (int64 attempts'); [now left|right; now eexists].
  - exists "", w1. split; [exact Hjobs|]. split; [exact Hconfig|]. right.
    now exists e.
Qed.

(** X8. None of the four updates of the jobs table --- [acquire_next_job],
    [mark_job_completed], [mark_job_failed], [reset_job] --- adds or removes a
    row, whether it returns or raises, and each row keeps its command, its
    [max_retries] and its [created_at]. *)
Theorem updates_keep_ids_and_identity
    (w : world) (job_id now error : string) (attempts' max_retries' : Z)
    (backoff_seconds : Float.float) :
  same_rows w (snd (acquire_next_job now w))
  /\ same_rows w (snd (mark_job_completed job_id attempts' now w))
  /\ same_rows w (snd (mark_job_failed job_id attempts' max_retries' error now
                         backoff_seconds w))
  /\ same_rows w (snd (reset_job job_id now w)).
Proof.
  assert (forall f id0 w1, jobs w1 = jobs w ->
            (forall j, same_identity j (f j)) ->
            same_rows w (set_jobs (alter f id0 (jobs w1)) w1)) as Halter.
  { intros f id0 w1 Hw1 Hf. unfold same_rows. cbn [jobs set_jobs]. rewrite Hw1.
    split; [intros id; apply alter_keeps_ids|now apply alter_keeps]. }
  assert (same_rows w w) as Hsame.
  { split; [tauto|]. intros id j Hj. exists j. now repeat split. }
  split; [|split; [|split]].
  - rewrite acquire_next_job_run.
    destruct (select_next now (jobs w)) as [[row_id row]|]; [|exact Hsame].
    apply (Halter _ _ w eq_refl). now intros [].
  - rewrite mark_job_completed_run. destruct (int64 attempts'); [|exact Hsame].
    apply (Halter _ _ w eq_refl). now intros [].
  - destruct (mark_job_failed_result job_id attempts' max_retries' error now
                backoff_seconds w)
      as (next & w1 & Hjobs & _ & [-> | [e ->]]).
    + apply (Halter _ _ w1 Hjobs). now intros [].
    + cbn [snd]. unfold same_rows. rewrite Hjobs. exact Hsame.
  - apply (Halter _ _ w eq_refl). now intros [].
Qed.

(** ** A job is handed out once, the oldest first *)

(** A run is its result and the world it leaves. *)
Lemma run_eq {A} (m : M A) (w : world) (r : result A) :
  fst (m w) = r -> m w = (r, snd (m w)).
Proof. intros <-. apply surjective_pairing. Qed.

Lemma claimed_is_not_claimable now now' j : ~ claimable now' (claim now j).
Proof. intros [[Hstate|Hstate] _]; discriminate. Qed.

Lemma acquire_next_job_Some now w a w' :
  acquire_next_job now w = (Ok (Some a), w') ->
  exists j,
    jobs w !! AcquiredJob.id a = Some j
    /\ claimable now j
    /\ (forall id' j', jobs w !! id' = Some j' -> claimable now j' ->
                       text_le (created_at j) (created_at j'))
    /\ w' = set_jobs (<[AcquiredJob.id a := claim now j]> (jobs w)) w.
Proof.
  rewrite acquire_next_job_run.
  destruct (select_next now (jobs w)) as [[row_id row]|] eqn:Hsel;
    [|discriminate].
  apply select_next_Some in Hsel as (Hrow & Hclaim & Hmin).
  intros [= <- <-]. exists row. cbn [AcquiredJob.id].
  now rewrite (alter_present _ _ _ _ Hrow).
Qed.

(** X9. A job that [acquire_next_job] has handed out is in state
    [processing], every other row is as it was, and the next call of
    [acquire_next_job], at whatever time, hands out another job or none:
    no job is given to two workers. *)
Theorem acquired_job_is_not_acquired_again
    (now now' : string) (w w1 : world) (a : AcquiredJob.t) :
  acquire_next_job now w = (Ok (Some a), w1) ->
  (exists j, jobs w1 !! AcquiredJob.id a = Some j
             /\ state j = STATE_PROCESSING)
  /\ (forall other, other <> AcquiredJob.id a ->
        jobs w1 !! other = jobs w !! other)
  /\ forall a' w2, acquire_next_job now' w1 = (Ok (Some a'), w2) ->
                   AcquiredJob.id a' <> AcquiredJob.id a.
Proof.
  intros Hfirst.
  apply acquire_next_job_Some in Hfirst as (j & Hj & _ & _ & ->).
  cbn [jobs set_jobs]. split; [|split].
  - eexists. rewrite lookup_insert_eq. split; reflexivity.
  - intros other Hne. now rewrite lookup_insert_ne.
  - intros a' w2 Hsecond Hsame.
    apply acquire_next_job_Some in Hsecond as (j' & Hj' & Hclaim & _).
    cbn [jobs set_jobs] in Hj'. rewrite Hsame, lookup_insert_eq in Hj'.
    injection Hj' as <-. now apply claimed_is_not_claimable in Hclaim.
Qed.

Lemma acquired_job_is_not_acquired_again_witness :
  (exists j, jobs (snd (acquire_next_job "2024-01-02T03:04:05Z"
                          (example_world waiting_jobs))) !! "a" = Some j
             /\ state j = STATE_PROCESSING)
  /\ (forall other, other <> "a" ->
        jobs (snd (acquire_next_job "2024-01-02T03:04:05Z"
                     (example_world waiting_jobs))) !! other
        = waiting_jobs !! other)
  /\ forall a' w2,
       acquire_next_job "2024-01-02T03:04:09Z"
         (snd (acquire_next_job "2024-01-02T03:04:05Z"
                 (example_world waiting_jobs))) = (Ok (Some a'), w2) ->
       AcquiredJob.id a' <> "a".
Proof.
  apply (acquired_job_is_not_acquired_again "2024-01-02T03:04:05Z"
           "2024-01-02T03:04:09Z" (example_world waiting_jobs)
           (snd (acquire_next_job "2024-01-02T03:04:05Z"
                   (example_world waiting_jobs)))
           (AcquiredJob.Make "a" "exit 1" 0 3)).
  apply run_eq. vm_compute. reflexivity.
Defined.

(** X10. Of two jobs handed out by two calls of [acquire_next_job] in a row,
    with no other change between them, both were in the table before the
    first call, and the first one is the older in [created_at] unless the
    second was not yet available at the time of the first call. *)
Theorem jobs_are_acquired_oldest_first
    (now now' : string) (w w1 w2 : world) (a a' : AcquiredJob.t) :
  acquire_next_job now w = (Ok (Some a), w1) ->
  acquire_next_job now' w1 = (Ok (Some a'), w2) ->
  exists j j',
    jobs w !! AcquiredJob.id a = Some j
    /\ jobs w !! AcquiredJob.id a' = Some j'
    /\ (text_le (available_at j') now ->
        text_le (created_at j) (created_at j')).
Proof.
  intros Hfirst Hsecond.
  apply acquire_next_job_Some in Hfirst as (j & Hj & _ & Hmin & ->).
  apply acquire_next_job_Some in Hsecond as (j' & Hj' & [Hstate _] & _).
  cbn [jobs set_jobs] in Hj'.
  destruct (decide (AcquiredJob.id a = AcquiredJob.id a')) as [Heq|Hne].
  - rewrite <- Heq, lookup_insert_eq in Hj'. injection Hj' as <-.
    destruct Hstate; discriminate.
  - rewrite lookup_insert_ne in Hj' by exact Hne.
    exists j, j'. split; [exact Hj|]. split; [exact Hj'|].
    intros Havailable. apply (Hmin _ _ Hj'). now split.
Qed.

Lemma jobs_are_acquired_oldest_first_witness :
  exists j j',
    waiting_jobs !! "a" = Some j
    /\ waiting_jobs !! "b" = Some j'
    /\ (text_le (available_at j') "2024-01-02T03:04:05Z" ->
        text_le (created_at j) (created_at j')).
Proof.
  apply (jobs_are_acquired_oldest_first "2024-01-02T03:04:05Z"
           "2024-01-02T03:04:09Z" (example_world waiting_jobs)
           (snd (acquire_next_job "2024-01-02T03:04:05Z"
                   (example_world waiting_jobs)))
           (snd (acquire_next_job "2024-01-02T03:04:09Z"
                   (snd (acquire_next_job "2024-01-02T03:04:05Z"
                           (example_world waiting_jobs)))))
           (AcquiredJob.Make "a" "exit 1" 0 3)
           (AcquiredJob.Make "b" "exit 1" 1 3));
    apply run_eq; vm_compute; reflexivity.
Defined.

(** ** The dead letter queue and deletion *)

(** X11. [dlq retry ID] requeues dead jobs and nothing else.  On a dead job
    it returns normally: the job is [pending] with no attempts, claimable at
    once, its last error kept for the record, and no other row changes.  On
    an id that is absent or not dead it raises [BadParameter] and changes
    nothing. *)
Theorem dlq_retry_requeues_dead_jobs_only (w : world) (job_id : string) :
  match jobs w !! job_id with
  | Some j =>
      if String.eqb (state j) STATE_DEAD
      then exists w1 j',
             Cli.dlq_retry job_id w = (Ok tt, w1)
             /\ jobs w1 !! job_id = Some j'
             /\ state j' = STATE_PENDING /\ attempts j' = 0
             /\ last_error j' = last_error j
             /\ claimable (isoformat_z (clock w (ticks w))) j'
             /\ (forall other, other <> job_id ->
                   jobs w1 !! other = jobs w !! other)
      else Cli.dlq_retry job_id w
           = (Raise (BadParameter "Job not found in DLQ"), w)
  | None =>
      Cli.dlq_retry job_id w = (Raise (BadParameter "Job not found in DLQ"), w)
  end.
Proof.
  unfold Cli.dlq_retry. rewrite (bind_ok _ _ _ _ _ (get_job_run job_id w)).
  destruct (jobs w !! job_id) as [j|] eqn:Hj; [|reflexivity].
  destruct (String.eqb (state j) STATE_DEAD); [|reflexivity].
  rewrite (bind_ok _ _ _ _ _ (utc_now_str_run w)).
  eexists _, _. split; [reflexivity|]. cbn [jobs set_jobs ticked].
  rewrite lookup_alter_eq, Hj. cbn [fmap option_fmap option_map reset state
    attempts last_error available_at].
  split; [reflexivity|]. split; [reflexivity|]. split; [reflexivity|].
  split; [reflexivity|]. split.
  - split; [now left|apply text_le_refl].
  - intros other Hne. now rewrite lookup_alter_ne.
Qed.

(** X12. [dlq delete ID] removes dead jobs and nothing else: every row with
    another id or another state than [dead] is there afterwards, unchanged;
    a dead job with that id is gone and the command returns normally; and
    when the id is absent or the job not dead, [BadParameter] is raised and
    nothing changes. *)
Theorem dlq_delete_removes_dead_jobs_only (w : world) (job_id : string) :
  (forall other j, jobs w !! other = Some j ->
     other <> job_id \/ state j <> STATE_DEAD ->
     jobs (snd (Dlq.dlq_delete job_id w)) !! other = Some j)
  /\ (forall j, jobs w !! job_id = Some j -> state j = STATE_DEAD ->
        fst (Dlq.dlq_delete job_id w) = Ok tt
        /\ jobs (snd (Dlq.dlq_delete job_id w)) !! job_id = None)
  /\ ((forall j, jobs w !! job_id = Some j -> state j <> STATE_DEAD) ->
      Dlq.dlq_delete job_id w
      = (Raise (BadParameter "Job not found in DLQ"), w)).
Proof.
  unfold Dlq.dlq_delete. rewrite (bind_ok _ _ _ _ _ (get_job_run job_id w)).
  destruct (jobs w !! job_id) as [j0|] eqn:Hj0.
  - destruct (String.eqb_spec (state j0) STATE_DEAD) as [Hdead|Hlive].
    + split; [|split].
      * intros other j Hother [Hne|Hstate]; cbn.
        -- now rewrite lookup_delete_ne.
        -- destruct (decide (job_id = other)) as [Heq|Hne];
             [|now rewrite lookup_delete_ne].
           subst other. rewrite Hj0 in Hother. injection Hother as <-.
           contradiction.
      * intros j _ _. cbn. split; [reflexivity|apply lookup_delete_eq].
      * intros Hnone. now destruct (Hnone j0 eq_refl).
    + split; [|split].
      * intros other j Hother _. exact Hother.
      * intros j [= <-] Hdead. contradiction.
      * reflexivity.
  - split; [|split].
    + intros other j Hother _. exact Hother.
    + discriminate.
    + reflexivity.
Qed.

(** X13. The command [delete ID] removes the row of a known id,
    whatever its state --- also one that is being processed --- and leaves
    every other row; on an unknown id it raises [BadParameter] and changes
    nothing. *)
Theorem delete_job_cli_deletes_known_jobs_only (w : world) (job_id : string) :
  match jobs w !! job_id with
  | Some _ =>
      exists w1,
        Cli.delete_job_cli job_id w = (Ok tt, w1)
        /\ jobs w1 !! job_id = None
        /\ forall other, other <> job_id -> jobs w1 !! other = jobs w !! other
  | None =>
      Cli.delete_job_cli job_id w
      = (Raise (BadParameter ("Job " ++ job_id ++ " not found")), w)
  end.
Proof.
  unfold Cli.delete_job_cli.
  rewrite (bind_ok _ _ _ _ _ (get_job_run job_id w)).
  destruct (jobs w !! job_id) as [j|]; [|reflexivity].
  eexists. split; [reflexivity|]. cbn. split; [apply lookup_delete_eq|].
  intros other Hne. now rewrite lookup_delete_ne.
Qed.

(** ** What the worker touches *)

Lemma touches_ret {A} job_id (a : A) : touches_only job_id (ret a).
Proof. intros w. now split. Qed.

Lemma touches_raise {A} job_id e : touches_only job_id (@raise A e).
Proof. intros w. now split. Qed.

Lemma touches_lift {A} job_id (r : result A) : touches_only job_id (lift r).
Proof. intros w. now split. Qed.

Lemma touches_bind {A B} job_id (m : M A) (k : A -> M B) :
  touches_only job_id m -> (forall a, touches_only job_id (k a)) ->
  touches_only job_id (bind m k).
Proof.
  intros Hm Hk w. unfold bind. specialize (Hm w).
  destruct (m w) as [[a|e] w1]; [|exact Hm].
  destruct Hm as [Hrows Hconfig]. destruct (Hk a w1) as [Hrows' Hconfig'].
  cbn [snd] in *. split; [|congruence]. intros other Hne.
  rewrite Hrows' by exact Hne. now apply Hrows.
Qed.

Lemma touches_utc_now_str job_id : touches_only job_id utc_now_str.
Proof. intros w. now split. Qed.

Lemma touches_write_log job_id line : touches_only job_id (write_log line).
Proof. intros w. now split. Qed.

Lemma touches_when job_id b (m : M unit) :
  touches_only job_id m -> touches_only job_id (when b m).
Proof. intros Hm. destruct b; [exact Hm|apply touches_ret]. Qed.

Lemma touches_update_where_id job_id f :
  touches_only job_id (update_where_id job_id f).
Proof.
  intros w. split; [|reflexivity]. intros other Hne. cbn.
  now rewrite lookup_alter_ne.
Qed.

Lemma touches_catch {A} job_id (m : M A) (h : exn -> M A) :
  touches_only job_id m -> (forall e, touches_only job_id (h e)) ->
  touches_only job_id (catch m h).
Proof.
  intros Hm Hh w. unfold catch. specialize (Hm w).
  destruct (m w) as [[a|e] w1]; [exact Hm|].
  destruct Hm as [Hrows Hconfig]. destruct (Hh e w1) as [Hrows' Hconfig'].
  cbn [snd] in *. split; [|congruence]. intros other Hne.
  rewrite Hrows' by exact Hne. now apply Hrows.
Qed.

Lemma touches_unchanged {A} job_id (m : M A) :
  (forall w, snd (m w) = w) -> touches_only job_id m.
Proof. intros Hm w. now rewrite Hm. Qed.

Lemma touches_bind_int job_id n : touches_only job_id (bind_int n).
Proof.
  unfold bind_int. destruct (int64 n); [apply touches_ret|apply touches_raise].
Qed.

Lemma touches_float_pow job_id base n : touches_only job_id (float_pow base n).
Proof. apply touches_unchanged. apply float_pow_world. Qed.

Lemma touches__add_seconds job_id now seconds :
  touches_only job_id (_add_seconds now seconds).
Proof. apply touches_unchanged. apply _add_seconds_world. Qed.

Create HintDb touches.
#[local] Hint Resolve touches_ret touches_raise touches_lift
  touches_utc_now_str touches_write_log touches_when touches_update_where_id
  touches_bind_int touches_float_pow touches__add_seconds
  : touches.
#[local] Hint Resolve touches_bind touches_catch | 5 : touches.

Lemma touches_mark_job_completed job_id attempts' now :
  touches_only job_id (mark_job_completed job_id attempts' now).
Proof. unfold mark_job_completed. auto with touches. Qed.

Lemma touches_mark_job_failed job_id attempts' max_retries' error now b :
  touches_only job_id
    (mark_job_failed job_id attempts' max_retries' error now b).
Proof.
  unfold mark_job_failed. destruct (le_zero b); auto 10 with touches.
Qed.

#[local] Hint Resolve touches_mark_job_completed touches_mark_job_failed
  : touches.

Lemma touches_process settings picked out :
  touches_only (AcquiredJob.id picked) (process settings picked out).
Proof.
  unfold process, handle_failure, log_failure. cbv zeta.
  apply touches_bind.
  - unfold execute. destruct out as [code stdout stderr| | | |text];
      [destruct (code =? 0)|..]; auto 20 with touches.
  - intros [code msg]. auto 30 with touches.
Qed.

(** ** A successful run *)

(** X14. When the command of a picked job exits with code 0, and the
    attempts of the pick plus one fit the 64 bits of an SQLite INTEGER, the
    worker settles the job in one step: the row is [completed], its
    attempts are the attempts of the pick plus one, [completed_at] and
    [updated_at] are the time of completion, and its schedule, its start
    time and an error of an earlier attempt stay as they were.  No other
    row and no config entry changes. *)
Theorem successful_run_completes_the_job
    (settings : WorkerSettings) (picked : AcquiredJob.t) (stdout stderr : string)
    (w : world) (j : job) :
  jobs w !! AcquiredJob.id picked = Some j ->
  int64 (AcquiredJob.attempts picked + 1) = true ->
  exists w1,
    process settings picked (Returned 0 stdout stderr) w = (Ok tt, w1)
    /\ jobs w1
       = <[AcquiredJob.id picked :=
             Job (command j) STATE_COMPLETED (AcquiredJob.attempts picked + 1)
                 (max_retries j) (created_at j)
                 (isoformat_z (clock w (ticks w))) (available_at j)
                 (processing_started_at j)
                 (Some (isoformat_z (clock w (ticks w))))
                 (last_error j)]> (jobs w)
    /\ config w1 = config w.
Proof.
  intros Hj Hwide. unfold process, execute. cbn [Z.eqb].
  unfold catch, bind at 1. unfold bind at 1. rewrite utc_now_str_run.
  unfold bind at 1. rewrite mark_job_completed_run, Hwide.
  destruct (String.eqb stdout ""); eexists; (split; [reflexivity|]);
    cbn [jobs config set_jobs ticked];
    (split; [|reflexivity]); now rewrite (alter_present _ _ _ _ Hj).
Qed.

Lemma successful_run_completes_the_job_witness :
  exists w1,
    process (Settings "w1" (Finite 2) (Finite 2))
      (AcquiredJob.Make "j1" "exit 1" 0 3)
      (Returned 0 "done" "") (example_world busy_jobs) = (Ok tt, w1)
    /\ jobs w1
       = <["j1" := Job "exit 1" STATE_COMPLETED (0 + 1) 3
                       "2024-01-02T03:00:00Z"
                       (isoformat_z (example_clock 0)) "2024-01-02T03:00:00Z"
                       None (Some (isoformat_z (example_clock 0))) None]>
           busy_jobs
    /\ config w1 = ∅.
Proof.
  apply (successful_run_completes_the_job
           (Settings "w1" (Finite 2) (Finite 2))
           (AcquiredJob.Make "j1" "exit 1" 0 3) "done" ""
           (example_world busy_jobs)
           (example_job STATE_PROCESSING 0 3
              "2024-01-02T03:00:00Z" "2024-01-02T03:00:00Z"));
    reflexivity.
Defined.

(** ** A run that returns leaves the job settled *)

Lemma bind_ok_inv {A B} (m : M A) (k : A -> M B) w b w2 :
  bind m k w = (Ok b, w2) ->
  exists a w1, m w = (Ok a, w1) /\ k a w1 = (Ok b, w2).
Proof.
  unfold bind. destruct (m w) as [[a|e] w1]; [|discriminate].
  intros Hk. now exists a, w1.
Qed.

Lemma quiet_inv {A} (m : M A) w a w1 :
  quiet m -> m w = (Ok a, w1) -> jobs w1 = jobs w.
Proof.
  intros Hq Hrun. destruct (Hq w) as (a' & w' & Hrun' & Hjobs & _). congruence.
Qed.

Lemma handle_failure_ok_inv settings picked attempts' exit_code error_message
    w w2 :
  handle_failure settings picked attempts' exit_code error_message w
  = (Ok tt, w2) ->
  exists now next_available,
    jobs w2
    = alter (fail (failure_state attempts' (AcquiredJob.max_retries picked))
                  attempts' now next_available
                  (error_text exit_code error_message))
            (AcquiredJob.id picked) (jobs w).
Proof.
  intros Hrun.
  destruct (handle_failure_cases settings picked attempts' exit_code
              error_message w)
    as [(w' & next & Hok & Hjobs & _)|(e & w' & Hraise & _)]; [|congruence].
  rewrite Hok in Hrun. injection Hrun as <-. eexists _, _. exact Hjobs.
Qed.

(** [execute] settles a success, or leaves a failure to be handled, with a
    message and every row as it was: the command failed, or the UPDATE of
    [mark_job_completed] was refused. *)
Lemma execute_run job attempts' out w :
  (exists stdout stderr w1,
     out = Returned 0 stdout stderr
     /\ execute job attempts' out w = (Ok (0, None), w1)
     /\ jobs w1 = alter (complete attempts' (isoformat_z (clock w (ticks w))))
                        (AcquiredJob.id job) (jobs w)
     /\ int64 attempts' = true)
  \/ (exists exit_code msg w1,
        execute job attempts' out w = (Ok (exit_code, Some msg), w1)
        /\ exit_code <> 0
        /\ jobs w1 = jobs w /\ config w1 = config w).
Proof.
  assert (failed_run out ->
          exists exit_code msg w1,
            execute job attempts' out w = (Ok (exit_code, Some msg), w1)
            /\ exit_code <> 0
            /\ jobs w1 = jobs w /\ config w1 = config w) as Hfailed.
  { intros Hfail.
    destruct (execute_failed job attempts' out w Hfail)
      as (code & msg & Hexec & Hcode).
    now exists code, msg, w. }
  destruct out as [code stdout stderr| | | |text]; try (right; now apply Hfailed).
  destruct (Z.eqb_spec code 0) as [->|Hcode]; [|right; now apply Hfailed].
  destruct (int64 attempts') eqn:Hwide.
  - left. exists stdout, stderr. unfold execute. cbn [Z.eqb].
    unfold catch, bind at 1. unfold bind at 1. rewrite utc_now_str_run.
    unfold bind at 1. rewrite mark_job_completed_run, Hwide.
    destruct (String.eqb stdout ""); eexists; repeat split; reflexivity.
  - right. unfold execute. cbn [Z.eqb].
    unfold catch, bind at 1. unfold bind at 1. rewrite utc_now_str_run.
    unfold bind at 1. rewrite mark_job_completed_run, Hwide.
    eexists _, _, _. split; [reflexivity|]. split; [discriminate|].
    split; reflexivity.
Qed.

Lemma process_ok_settles settings picked out w w2 j :
  process settings picked out w = (Ok tt, w2) ->
  jobs w !! AcquiredJob.id picked = Some j ->
  exists j', jobs w2 !! AcquiredJob.id picked = Some j' /\ settled j'.
Proof.
  unfold process. intros Hrun Hj.
  destruct (execute_run picked (AcquiredJob.attempts picked + 1) out w)
    as [(stdout & stderr & w1 & -> & Hexec & Hjobs & _)
       |(code & msg & w1 & Hexec & Hcode & Hjobs & _)].
  - rewrite (bind_ok _ _ _ _ _ Hexec) in Hrun. cbn in Hrun.
    injection Hrun as <-. rewrite Hjobs, lookup_alter_eq, Hj.
    eexists. split; [reflexivity|]. now left.
  - rewrite (bind_ok _ _ _ _ _ Hexec) in Hrun.
    apply Z.eqb_neq in Hcode. rewrite Hcode in Hrun. cbn [negb when] in Hrun.
    apply handle_failure_ok_inv in Hrun as (now & next & ->).
    rewrite Hjobs, lookup_alter_eq, Hj. eexists. split; [reflexivity|].
    right. cbn [fail state]. unfold failure_state.
    destruct (_ <? _); [now left|now right].
Qed.

Lemma write_log_run line w :
  write_log line w
  = (Ok tt, World (jobs w) (config w) (clock w) (ticks w) (uuids w) (drawn w)
                  (log w ++ [line]) (libm_pow w) (other_timestamps w)).
Proof. reflexivity. Qed.

(** One turn of the loop, taken apart: nothing to pick, or a row is claimed
    and then processed. *)
Lemma iteration_run settings out w :
  (select_next (isoformat_z (clock w (ticks w))) (jobs w) = None
   /\ iteration settings out w = (Ok tt, ticked w))
  \/ exists row_id row w1,
       jobs w !! row_id = Some row
       /\ claimable (isoformat_z (clock w (ticks w))) row
       /\ jobs w1 = <[row_id := claim (isoformat_z (clock w (ticks w))) row]>
                      (jobs w)
       /\ config w1 = config w
       /\ iteration settings out w
          = process settings
              (AcquiredJob.Make row_id (command row) (attempts row)
                 (max_retries row)) out w1.
Proof.
  unfold iteration. rewrite (bind_ok _ _ _ _ _ (utc_now_str_run w)).
  set (now := isoformat_z (clock w (ticks w))).
  pose proof (acquire_next_job_run now (ticked w)) as Hacq.
  cbn [jobs ticked] in Hacq.
  destruct (select_next now (jobs w)) as [[row_id row]|] eqn:Hsel.
  - right. apply select_next_Some in Hsel as (Hrow & Hclaim & _).
    rewrite (bind_ok _ _ _ _ _ Hacq). cbv beta iota.
    rewrite (bind_ok _ _ _ _ _ (utc_now_str_run _)).
    rewrite (bind_ok _ _ _ _ _ (write_log_run _ _)).
    eexists row_id, row, _. split; [exact Hrow|]. split; [exact Hclaim|].
    split; [|split; [|reflexivity]].
    + cbn [jobs set_jobs ticked]. now rewrite (alter_present _ _ _ _ Hrow).
    + reflexivity.
  - left. split; [reflexivity|]. now rewrite (bind_ok _ _ _ _ _ Hacq).
Qed.

Lemma iteration_keeps_out_of_queue settings out w id j :
  jobs w !! id = Some j -> out_of_queue j ->
  jobs (snd (iteration settings out w)) !! id = Some j.
Proof.
  intros Hj [Hpending Hfailed].
  destruct (iteration_run settings out w)
    as [[_ ->]|(row_id & row & w1 & Hrow & [Hstate _] & Hjobs & _ & ->)];
    [exact Hj|].
  assert (id <> row_id) as Hne.
  { intros ->. rewrite Hrow in Hj. injection Hj as ->.
    destruct Hstate; contradiction. }
  destruct (touches_process settings
              (AcquiredJob.Make row_id (command row) (attempts row)
                 (max_retries row)) out w1) as [Hrows _].
  rewrite (Hrows id Hne), Hjobs. now rewrite lookup_insert_ne.
Qed.

Lemma iteration_leaves_none_processing settings out w w2 :
  iteration settings out w = (Ok tt, w2) ->
  none_processing (jobs w) -> none_processing (jobs w2).
Proof.
  intros Hrun Hnone.
  destruct (iteration_run settings out w)
    as [[_ Hidle]|(row_id & row & w1 & Hrow & _ & Hjobs & _ & Hstep)].
  - rewrite Hidle in Hrun. injection Hrun as <-. exact Hnone.
  - rewrite Hstep in Hrun.
    set (picked := AcquiredJob.Make row_id (command row) (attempts row)
                     (max_retries row)) in *.
    assert (jobs w1 !! AcquiredJob.id picked
            = Some (claim (isoformat_z (clock w (ticks w))) row)) as Hpicked
      by (rewrite Hjobs; apply lookup_insert_eq).
    destruct (process_ok_settles _ _ _ _ _ _ Hrun Hpicked)
      as (j' & Hj' & Hsettled).
    destruct (touches_process settings picked out w1) as [Hrows _].
    rewrite Hrun in Hrows. cbn [snd] in Hrows.
    intros id j Hid. destruct (decide (id = row_id)) as [->|Hne].
    + cbn [picked AcquiredJob.id] in Hj'. rewrite Hj' in Hid.
      injection Hid as <-. destruct Hsettled as [H|[H|H]]; rewrite H;
        discriminate.
    + rewrite (Hrows id Hne), Hjobs, lookup_insert_ne in Hid by congruence.
      exact (Hnone id j Hid).
Qed.

Import Loop.

(** X15. The worker loop never touches a job that is out of the queue: a
    row that is completed, dead or being processed (by another worker) when
    the loop starts is the same row when the loop ends, however many turns
    are taken, whatever the commands do, and also when the loop ends in an
    exception. *)
Theorem run_loop_leaves_jobs_out_of_the_queue_alone
    (settings : WorkerSettings) (script : list turn) (w : world)
    (id : string) (j : job) :
  jobs w !! id = Some j -> out_of_queue j ->
  jobs (snd (run_loop settings script w)) !! id = Some j.
Proof.
  revert w. induction script as [|[[flag file] out] rest IH]; intros w Hj Hout.
  - exact Hj.
  - cbn [run_loop]. destruct (_should_stop flag file) as [[|]|e];
      [exact Hj| |exact Hj].
    unfold bind.
    pose proof (iteration_keeps_out_of_queue settings out w id j Hj Hout)
      as Hstep.
    destruct (iteration settings out w) as [[[]|e] w1]; [|exact Hstep].
    now apply IH.
Qed.

Lemma run_loop_leaves_jobs_out_of_the_queue_alone_witness :
  jobs (snd (run_loop (Settings "w1" (Finite 2) (Finite 2))
               [(false, Missing, Returned 1 "" "boom");
                (false, Missing, Returned 0 "done" "");
                (false, Missing, TimeoutExpired)]
               (example_world waiting_jobs))) !! "c"
  = Some (example_job STATE_DEAD 3 3
            "2024-01-02T03:00:02Z" "2024-01-02T03:00:02Z").
Proof.
  apply (run_loop_leaves_jobs_out_of_the_queue_alone (Settings "w1" (Finite 2) (Finite 2))
           [(false, Missing, Returned 1 "" "boom");
            (false, Missing, Returned 0 "done" "");
            (false, Missing, TimeoutExpired)]
           (example_world waiting_jobs) "c").
  - reflexivity.
  - split; discriminate.
Defined.

(** X16. A worker that starts with no job in [processing] and whose loop
    ends without an exception --- by a stop request or because nothing more
    happens --- leaves no job in [processing]. *)
Theorem run_loop_leaves_none_processing
    (settings : WorkerSettings) (script : list turn) (w : world) (left : bool) :
  fst (run_loop settings script w) = Ok left ->
  none_processing (jobs w) ->
  none_processing (jobs (snd (run_loop settings script w))).
Proof.
  revert w. induction script as [|[[flag file] out] rest IH]; intros w Hret Hnone.
  - exact Hnone.
  - cbn [run_loop] in *. destruct (_should_stop flag file) as [[|]|e];
      [exact Hnone| |discriminate].
    unfold bind in *.
    destruct (iteration settings out w) as [[[]|e] w1] eqn:Hstep;
      [|discriminate].
    apply IH; [exact Hret|].
    now apply (iteration_leaves_none_processing settings out w).
Qed.

Lemma run_loop_leaves_none_processing_witness :
  none_processing
    (jobs (snd (run_loop (Settings "w1" (Finite 2) (Finite 2))
                  [(false, Missing, Returned 1 "" "boom");
                   (false, Missing, Returned 0 "done" "");
                   (true, Missing, TimeoutExpired)]
                  (example_world waiting_jobs)))).
Proof.
  apply (run_loop_leaves_none_processing (Settings "w1" (Finite 2) (Finite 2))
           [(false, Missing, Returned 1 "" "boom");
            (false, Missing, Returned 0 "done" "");
            (true, Missing, TimeoutExpired)]
           (example_world waiting_jobs) true).
  - vm_compute. reflexivity.
  - intros id j Hj. simpl in Hj. unfold waiting_jobs in Hj.
    apply lookup_insert_Some in Hj as [[_ <-]|[_ Hj]]; [discriminate|].
    apply lookup_insert_Some in Hj as [[_ <-]|[_ Hj]]; [discriminate|].
    apply lookup_insert_Some in Hj as [[_ <-]|[_ Hj]]; [discriminate|].
    rewrite lookup_empty in Hj. discriminate.
Defined.

(** ** The error text is visible *)

Lemma blank_nonempty s : blank s = false -> s <> "".
Proof. now intros Hb ->. Qed.

(** X17. Whatever way a run fails --- a non-zero exit code, a timeout, a
    missing command, a refused permission or another exception --- the
    worker has an error message for it that is not blank: it holds a
    character that is no white space.  The text handed to [mark_job_failed]
    is therefore this message, and the fallback "Command failed with exit
    code N" of that call is never used. *)
Theorem failed_run_error_text_is_not_blank
    (picked : AcquiredJob.t) (attempts' : Z) (out : run_outcome) (w : world) :
  failed_run out ->
  exists exit_code msg,
    execute picked attempts' out w = (Ok (exit_code, Some msg), w)
    /\ exit_code <> 0
    /\ error_text exit_code (Some msg) = msg
    /\ blank msg = false.
Proof.
  assert (forall code msg, blank msg = false ->
                           error_text code (Some msg) = msg) as Htext.
  { intros code msg Hb. unfold error_text, or_else. cbn [Storage.get_or].
    destruct (String.eqb_spec msg ""); [|reflexivity].
    now destruct (blank_nonempty msg Hb). }
  destruct out as [code stdout stderr| | | |text]; cbn [failed_run];
    intros Hfail; unfold execute.
  - apply Z.eqb_neq in Hfail. rewrite Hfail.
    set (em := or_else stderr (or_else stdout _)).
    destruct (blank em) eqn:Hblank; eexists _, _;
      (split; [reflexivity|]); (split; [now apply Z.eqb_neq|]).
    + split; [now apply Htext|reflexivity].
    + split; [now apply Htext|exact Hblank].
  - eexists _, _. split; [reflexivity|]. split; [discriminate|].
    split; [now apply Htext|reflexivity].
  - eexists _, _. split; [reflexivity|]. split; [discriminate|].
    split; [now apply Htext|reflexivity].
  - eexists _, _. split; [reflexivity|]. split; [discriminate|].
    split; [now apply Htext|reflexivity].
  - eexists _, _. split; [reflexivity|]. split; [discriminate|].
    split; [now apply Htext|reflexivity].
Qed.

Lemma failed_run_error_text_is_not_blank_witness :
  exists exit_code msg,
    execute (AcquiredJob.Make "j1" "exit 2" 0 3) 1 (Returned 2 "  " "")
      (example_world busy_jobs)
    = (Ok (exit_code, Some msg), example_world busy_jobs)
    /\ exit_code <> 0
    /\ error_text exit_code (Some msg) = msg
    /\ blank msg = false.
Proof.
  apply (failed_run_error_text_is_not_blank
           (AcquiredJob.Make "j1" "exit 2" 0 3) 1 (Returned 2 "  " "")
           (example_world busy_jobs)).
  simpl. lia.
Defined.

(** ** Adding seconds to a timestamp *)

(** X18. [_add_seconds] on a timestamp as [utc_now_str] writes it, with a
    float for the seconds, leaves the world as it is.  It raises what
    [timedelta] raises: [ValueError] for a NaN, [OverflowError] for an
    infinity or a duration of more than 999999999 days.  Otherwise the
    seconds are rounded to microseconds, and when the instant moved by them
    is a date Python can hold, the result is the timestamp of that instant;
    when it is not, [OverflowError] is raised.  A result is again such a
    timestamp, so seconds can be added to it in turn. *)
Theorem _add_seconds_of_a_timestamp (t : Z) (seconds : Float.float) (w : world) :
  in_range t = true ->
  _add_seconds (isoformat_z t) seconds w
  = (match timedelta seconds with
     | Ok delta =>
         if in_range (t + delta) then Ok (isoformat_z (t + delta))
         else Raise (OverflowError "date value out of range")
     | Raise e => Raise e
     end, w)
  /\ (forall next,
        fst (_add_seconds (isoformat_z t) seconds w) = Ok next ->
        exists t', next = isoformat_z t' /\ in_range t' = true
                   /\ fromisoformat_z next = Some t').
Proof.
  intros Ht.
  assert (_add_seconds (isoformat_z t) seconds w
          = (match timedelta seconds with
             | Ok delta =>
                 if in_range (t + delta) then Ok (isoformat_z (t + delta))
                 else Raise (OverflowError "date value out of range")
             | Raise e => Raise e
             end, w)) as Hrun.
  { unfold _add_seconds. rewrite (isoformat_z_roundtrip t Ht).
    unfold bind, lift, ret, datetime_add.
    destruct (timedelta seconds) as [delta|e]; [|reflexivity].
    now destruct (in_range (t + delta)). }
  split; [exact Hrun|]. intros next. rewrite Hrun. cbn [fst].
  destruct (timedelta seconds) as [delta|e]; [|discriminate].
  destruct (in_range (t + delta)) eqn:Hin; [|discriminate].
  intros [= <-]. exists (t + delta). split; [reflexivity|].
  split; [exact Hin|now apply isoformat_z_roundtrip].
Qed.

Lemma _add_seconds_of_a_timestamp_witness :
  _add_seconds (isoformat_z (example_clock 0)) (Finite 4)
    (example_world idle_jobs)
  = (match timedelta (Finite 4) with
     | Ok delta =>
         if in_range (example_clock 0 + delta)
         then Ok (isoformat_z (example_clock 0 + delta))
         else Raise (OverflowError "date value out of range")
     | Raise e => Raise e
     end, example_world idle_jobs)
  /\ (forall next,
        fst (_add_seconds (isoformat_z (example_clock 0)) (Finite 4)
               (example_world idle_jobs)) = Ok next ->
        exists t', next = isoformat_z t' /\ in_range t' = true
                   /\ fromisoformat_z next = Some t').
Proof.
  apply (_add_seconds_of_a_timestamp (example_clock 0) (Finite 4)
           (example_world idle_jobs)).
  reflexivity.
Defined.

(** ** Enqueueing over HTTP *)

(** The body of the handler on a new id with a command, the configured
    default being [d]. *)
Lemma api_enqueue_job_fresh_run
    (w : world) (job_id cmd : string) (max_retries' : option Z) (d : Z) :
  job_id <> "" -> cmd <> "" ->
  jobs w !! job_id = None ->
  fst (Cli.configured_max_retries w) = Ok d ->
  int64 d = true ->
  (forall n, max_retries' = Some n -> int64 n = true) ->
  Web.api_enqueue_job (Some job_id) (Some cmd) max_retries' w
  = (Ok 200,
     set_jobs (<[job_id := Job cmd STATE_PENDING 0
                               (match max_retries' with
                                | Some n => if n =? 0 then d else n
                                | None => d
                                end)
                               (isoformat_z (clock w (ticks w)))
                               (isoformat_z (clock w (ticks w)))
                               (isoformat_z (clock w (ticks w)))
                               None None None]> (jobs w))
              (ticked (ticked w))).
Proof.
  intros Hid Hcmd Hfresh Hconfig Hd Hwide. unfold Web.api_enqueue_job.
  rewrite (given_true _ Hid), (given_true _ Hcmd).
  unfold bind at 1. cbn [ret negb Storage.get_or].
  rewrite (bind_ok _ _ _ _ _ (get_job_run job_id w)), Hfresh.
  rewrite (bind_ok _ _ _ _ _ (utc_now_str_run w)).
  assert (Cli.configured_max_retries (ticked w) = (Ok d, ticked w))
    as Hdefault.
  { revert Hconfig. unfold Cli.configured_max_retries, get_config, bind.
    cbn [config ticked fst]. destruct (Cli.given _); [|now intros [= <-]].
    unfold lift. cbn [fst]. now intros ->. }
  assert (forall n, int64 n = true -> enqueue_job
            (JobDict (Some job_id) (Some cmd) (Some STATE_PENDING) (Some 0)
               (Some n) (Some (isoformat_z (clock w (ticks w))))
               (Some (isoformat_z (clock w (ticks w))))
               (Some (isoformat_z (clock w (ticks w)))) None None None)
            (ticked w)
          = (Ok tt, set_jobs (<[job_id :=
               Job cmd STATE_PENDING 0 n (isoformat_z (clock w (ticks w)))
                   (isoformat_z (clock w (ticks w)))
                   (isoformat_z (clock w (ticks w))) None None None]> (jobs w))
               (ticked (ticked w)))) as Hinsert.
  { intros n Hn. unfold enqueue_job.
    rewrite (bind_ok _ _ _ _ _ (utc_now_str_run (ticked w))).
    cbn [Storage.get_or d_id d_command d_state d_attempts d_max_retries
      d_created_at d_updated_at d_available_at d_processing_started_at
      d_completed_at d_last_error attempts max_retries].
    rewrite bind_int_then. change (int64 0) with true. cbv iota.
    rewrite bind_int_then, Hn.
    now rewrite str_or_timestamp, insert_job_fresh by exact Hfresh. }
  destruct max_retries' as [n|]; [destruct (n =? 0)|].
  - now rewrite (bind_ok _ _ _ _ _ Hdefault),
      (bind_ok _ _ _ _ _ (Hinsert _ Hd)).
  - unfold bind at 1. cbn [ret].
    now rewrite (bind_ok _ _ _ _ _ (Hinsert _ (Hwide n eq_refl))).
  - now rewrite (bind_ok _ _ _ _ _ Hdefault),
      (bind_ok _ _ _ _ _ (Hinsert _ Hd)).
Qed.

(** X19. [POST /api/jobs] on a database without a configured retry limit,
    with a non-empty command, an id that is not in the table and, if any, a
    [max_retries] that fits the 64 bits of an SQLite INTEGER: the handler
    first fills in the config defaults, then answers 200 and inserts one
    row --- the command, [pending], no attempts, all three timestamps the
    time read after the defaults were written.  [max_retries] is the number
    given, and [DEFAULT_MAX_RETRIES], read back from the default just
    written, when none is given --- or when 0 is given, which the handler
    takes for none.  No config value that could be read before is lost. *)
Theorem api_enqueue_job_inserts_a_pending_job
    (w : world) (job_id cmd : string) (max_retries' : option Z) :
  job_id <> "" -> cmd <> "" ->
  jobs w !! job_id = None ->
  config w !! CONFIG_MAX_RETRIES = None ->
  (forall n, max_retries' = Some n -> int64 n = true) ->
  exists w0 w1,
    Routes._initialise w = (Ok tt, w0)
    /\ Routes.api_enqueue_job (Some job_id) (Some cmd) max_retries' w
       = (Ok 200, w1)
    /\ jobs w1
       = <[job_id := Job cmd STATE_PENDING 0
                         (match max_retries' with
                          | Some n => if n =? 0 then DEFAULT_MAX_RETRIES else n
                          | None => DEFAULT_MAX_RETRIES
                          end)
                         (isoformat_z (clock w0 (ticks w0)))
                         (isoformat_z (clock w0 (ticks w0)))
                         (isoformat_z (clock w0 (ticks w0)))
                         None None None]> (jobs w)
    /\ (forall key value, fst (get_config key w) = Ok (Some value) ->
                          fst (get_config key w1) = Ok (Some value)).
Proof.
  intros Hid Hcmd Hfresh Hconfig Hwide. unfold Routes.api_enqueue_job.
  unfold Routes._initialise.
  destruct (init_db_spec w) as (w0 & Hrun & Hjobs & Hkeep & _ & Hnew).
  exists w0. rewrite (bind_ok _ _ _ _ _ Hrun).
  rewrite (api_enqueue_job_fresh_run w0 job_id cmd max_retries'
             DEFAULT_MAX_RETRIES Hid Hcmd).
  - eexists. split; [exact Hrun|]. split; [reflexivity|].
    cbn [jobs config set_jobs ticked]. rewrite Hjobs. split; [reflexivity|].
    intros key value. rewrite !get_config_run. cbn [fst config].
    intros [= Hv]. f_equal. auto.
  - now rewrite Hjobs.
  - rewrite (configured_max_retries_run w0 (str_of_int DEFAULT_MAX_RETRIES)
               (Hnew Hconfig)); [reflexivity|discriminate].
  - reflexivity.
  - exact Hwide.
Qed.

Lemma api_enqueue_job_inserts_a_pending_job_witness :
  exists w0 w1,
    Routes._initialise (example_world idle_jobs) = (Ok tt, w0)
    /\ Routes.api_enqueue_job (Some "j9") (Some "echo hi") (Some 0)
         (example_world idle_jobs) = (Ok 200, w1)
    /\ jobs w1
       = <["j9" := Job "echo hi" STATE_PENDING 0
                       (if 0 =? 0 then DEFAULT_MAX_RETRIES else 0)
                       (isoformat_z (clock w0 (ticks w0)))
                       (isoformat_z (clock w0 (ticks w0)))
                       (isoformat_z (clock w0 (ticks w0)))
                       None None None]> idle_jobs
    /\ (forall key value,
          fst (get_config key (example_world idle_jobs)) = Ok (Some value) ->
          fst (get_config key w1) = Ok (Some value)).
Proof.
  apply (api_enqueue_job_inserts_a_pending_job (example_world idle_jobs)
           "j9" "echo hi" (Some 0));
    [discriminate|discriminate|reflexivity|reflexivity|].
  intros n [= <-]. reflexivity.
Defined.

(** X20. [POST /api/jobs] answers 400 and stores no job when the command is
    missing or empty, and when the id given is already in the table; no
    exception escapes, no row is overwritten, and no config value that could
    be read before is lost. *)
Theorem api_enqueue_job_refuses (w : world) (id command : option string)
    (max_retries' : option Z) :
  Cli.given command = false
  \/ (exists job_id j, id = Some job_id /\ job_id <> ""
                       /\ jobs w !! job_id = Some j) ->
  exists w1,
    Routes.api_enqueue_job id command max_retries' w = (Ok 400, w1)
    /\ jobs w1 = jobs w
    /\ (forall key value, fst (get_config key w) = Ok (Some value) ->
                          fst (get_config key w1) = Ok (Some value)).
Proof.
  intros Hcase. unfold Routes.api_enqueue_job, Routes._initialise.
  destruct (init_db_spec w) as (w0 & Hrun & Hjobs & Hkeep & _).
  rewrite (bind_ok _ _ _ _ _ Hrun).
  assert (exists w1, Web.api_enqueue_job id command max_retries' w0
                     = (Ok 400, w1)
                     /\ jobs w1 = jobs w0 /\ config w1 = config w0)
    as (w1 & Hbody & Hjobs1 & Hconfig1).
  { unfold Web.api_enqueue_job.
    destruct Hcase as [Hcmd|(job_id & j & -> & Hid & Hknown)].
    - rewrite Hcmd. destruct (Cli.given id); now eexists.
    - rewrite (given_true _ Hid). unfold bind at 1. cbn [ret Storage.get_or].
      destruct (Cli.given command); [|now eexists].
      cbn [negb]. rewrite (bind_ok _ _ _ _ _ (get_job_run job_id w0)).
      rewrite Hjobs, Hknown. now eexists. }
  exists w1. split; [exact Hbody|]. split; [congruence|].
  intros key value. rewrite !get_config_run. cbn [fst]. rewrite Hconfig1.
  intros [= Hv]. f_equal. auto.
Qed.

Lemma api_enqueue_job_refuses_witness :
  exists w1,
    Routes.api_enqueue_job (Some "j1") (Some "echo hi") None
      (example_world idle_jobs) = (Ok 400, w1)
    /\ jobs w1 = idle_jobs
    /\ (forall key value,
          fst (get_config key (example_world idle_jobs)) = Ok (Some value) ->
          fst (get_config key w1) = Ok (Some value)).
Proof.
  apply (api_enqueue_job_refuses (example_world idle_jobs) (Some "j1")
           (Some "echo hi") None).
  right. exists "j1", (example_job STATE_COMPLETED 1 3
                         "2024-01-02T03:00:00Z" "2024-01-02T03:00:00Z").
  split; [reflexivity|]. split; [discriminate|reflexivity].
Defined.

(** ** The stop request *)

Import Control.

Lemma ltb_trans a b c :
  String.ltb a b = true -> String.ltb b c = true -> String.ltb a c = true.
Proof.
  unfold String.ltb. intros Hab Hbc.
  destruct (String.compare a b) eqn:E1; try discriminate.
  destruct (String.compare b c) eqn:E2; try discriminate.
  now rewrite (string_compare_trans_lt _ _ _ E1 E2).
Qed.

Lemma ltb_irrefl a : String.ltb a a = false.
Proof. unfold String.ltb. now rewrite string_compare_refl. Qed.

Lemma ltb_not_eqb a b : String.ltb a b = true -> String.eqb b a = false.
Proof.
  intros Hlt. apply String.eqb_neq. intros ->. now rewrite ltb_irrefl in Hlt.
Qed.

(** Below the first key of a rising list there is nothing to find. *)
Lemma dict_get_below key k v rest :
  keys_rise ((k, v) :: rest) -> String.ltb key k = true ->
  dict_get key ((k, v) :: rest) = None.
Proof.
  revert k v. induction rest as [|[k' v'] rest IH]; intros k v Hrise Hlt.
  - cbn. now rewrite (ltb_not_eqb _ _ Hlt).
  - destruct Hrise as [Hkk' Hrise].
    specialize (IH k' v' Hrise (ltb_trans _ _ _ Hlt Hkk')).
    cbn [dict_get] in *. destruct (dict_get key rest); [discriminate|].
    destruct (String.eqb k' key); [discriminate|].
    now rewrite (ltb_not_eqb _ _ Hlt).
Qed.

Lemma keys_rise_tail kv rest : keys_rise (kv :: rest) -> keys_rise rest.
Proof. destruct kv. now intros [_ H]. Qed.

Lemma put_sorted_head key v members :
  exists k' v' rest', put_sorted key v members = (k', v') :: rest'
    /\ (k' = key \/ exists v0 rest, members = (k', v0) :: rest).
Proof.
  destruct members as [|[k v0] rest]; cbn [put_sorted].
  - eexists _, _, _. split; [reflexivity|now left].
  - destruct (String.eqb key k); [|destruct (String.ltb key k)];
      eexists _, _, _; (split; [reflexivity|]); eauto.
Qed.

Lemma put_sorted_spec key v members :
  keys_rise members ->
  keys_rise (put_sorted key v members)
  /\ forall other,
       dict_get other (put_sorted key v members)
       = if String.eqb key other then Some v else dict_get other members.
Proof.
  induction members as [|[k v0] rest IH]; intros Hrise.
  - cbn. split; [tauto|]. intros other. now destruct (String.eqb key other).
  - cbn [put_sorted]. destruct (String.eqb_spec key k) as [->|Hne].
    + split; [exact Hrise|]. intros other. cbn [dict_get].
      destruct (dict_get other rest) eqn:Hrest.
      * destruct (String.eqb_spec k other) as [->|]; [|reflexivity].
        destruct rest as [|[k1 v1] rest1]; [discriminate|].
        destruct Hrise as [Hlt Hrise].
        now rewrite (dict_get_below _ _ _ _ Hrise Hlt) in Hrest.
      * now destruct (String.eqb k other).
    + destruct (String.ltb key k) eqn:Hlt.
      * split; [split; [exact Hlt|exact Hrise]|]. intros other.
        change (dict_get other ((key, v) :: (k, v0) :: rest))
          with (match dict_get other ((k, v0) :: rest) with
                | Some v' => Some v'
                | None => if String.eqb key other then Some v else None
                end).
        destruct (String.eqb_spec key other) as [<-|_].
        -- now rewrite (dict_get_below _ _ _ _ Hrise Hlt).
        -- now destruct (dict_get other ((k, v0) :: rest)).
      * destruct (IH (keys_rise_tail _ _ Hrise)) as [IHrise IHget].
        assert (String.ltb k key = true) as Hgt.
        { unfold String.ltb in *. rewrite String.compare_antisym.
          destruct (String.compare key k) eqn:E; try discriminate;
            [|reflexivity].
          apply String.compare_eq_iff in E. contradiction. }
        split.
        -- destruct (put_sorted_head key v rest)
             as (k' & v' & rest' & Hput & Hhead).
           rewrite Hput in *. split; [|exact IHrise].
           destruct Hhead as [->|(v1 & rest1 & ->)]; [exact Hgt|].
           now destruct Hrise.
        -- intros other. cbn [dict_get]. rewrite IHget.
           destruct (String.eqb_spec key other) as [<-|_]; [reflexivity|].
           reflexivity.
Qed.

Lemma sort_members_gen members : forall acc,
  keys_rise acc ->
  keys_rise (fold_left (fun acc kv => put_sorted (fst kv) (snd kv) acc)
                       members acc)
  /\ forall key,
       dict_get key (fold_left (fun acc kv => put_sorted (fst kv) (snd kv) acc)
                               members acc)
       = match dict_get key members with
         | Some v => Some v
         | None => dict_get key acc
         end.
Proof.
  induction members as [|[k v] rest IH]; intros acc Hrise.
  - now split.
  - cbn [fold_left fst snd].
    destruct (put_sorted_spec k v acc Hrise) as [Hrise' Hget'].
    destruct (IH _ Hrise') as [Hrise'' Hget'']. split; [exact Hrise''|].
    intros key. rewrite Hget'', Hget'. cbn [dict_get].
    destruct (dict_get key rest); [reflexivity|].
    now destruct (String.eqb k key).
Qed.

Lemma dict_get_nil key : dict_get key [] = None.
Proof. reflexivity. Qed.

Lemma dict_get_sort_members key members :
  dict_get key (sort_members members) = dict_get key members.
Proof.
  unfold sort_members.
  destruct (sort_members_gen members [] I) as [_ Hget]. rewrite Hget.
  now destruct (dict_get key members).
Qed.

Lemma dict_get_map key (f : json -> json) members :
  dict_get key (List.map (fun kv => (fst kv, f (snd kv))) members)
  = f <$> dict_get key members.
Proof.
  induction members as [|[k v] rest IH]; [reflexivity|].
  cbn [List.map dict_get fst snd]. rewrite IH.
  destruct (dict_get key rest); [reflexivity|].
  now destruct (String.eqb k key).
Qed.

Lemma dict_get_app_last key members v :
  forall other,
    dict_get other (members ++ [(key, v)])
    = if String.eqb key other then Some v else dict_get other members.
Proof.
  intros other. induction members as [|[k v0] rest IH].
  - cbn. now destruct (String.eqb key other).
  - cbn [app dict_get]. rewrite IH.
    destruct (String.eqb key other); [reflexivity|].
    reflexivity.
Qed.

(** What a reader finds under a key after [write_json]. *)
Lemma dict_get_dumped key members :
  exists members',
    dumped (JObject members) = JObject members'
    /\ keys_rise members'
    /\ dict_get key members' = dumped <$> dict_get key members.
Proof.
  eexists. split; [reflexivity|]. split.
  - unfold sort_members. now apply sort_members_gen.
  - now rewrite dict_get_sort_members, dict_get_map.
Qed.

(** X21. What [_request_worker_stop] does to the control file of a worker.
    A file that holds a JSON object is rewritten with [stop] set: the worker
    that reads it next stops, and every other entry holds the value it held
    (written with its keys in order).  A
    missing file is created with the worker id and the stop request.  A file
    that is no UTF-8 or no JSON, or holds another JSON value than an object,
    makes the call raise, and the file stays as it is. *)
Theorem stop_request_is_seen_by_the_worker
    (worker_id : string) (file : control_file) :
  worker_id <> "" ->
  match file with
  | Missing =>
      _request_worker_stop (Some worker_id) file
      = inr (Document (JObject [("id", JString worker_id);
                                ("stop", JBool true)]))
  | NotUtf8 => _request_worker_stop (Some worker_id) file = inl NotUtf8Error
  | NotJson => _request_worker_stop (Some worker_id) file = inl JSONDecodeError
  | Document (JObject members) =>
      exists members',
        _request_worker_stop (Some worker_id) file
        = inr (Document (JObject members'))
        /\ _should_stop false (Document (JObject members')) = Ok true
        /\ forall key, key <> "stop" ->
             dict_get key members' = dumped <$> dict_get key members
  | Document _ => _request_worker_stop (Some worker_id) file = inl TypeError
  end.
Proof.
  intros Hid. unfold _request_worker_stop. rewrite (given_true _ Hid).
  cbn [negb]. destruct file as [| | |[| | | | | |members]]; try reflexivity.
  cbn [load_json setitem write_json].
  destruct (dict_get_dumped "stop" (members ++ [("stop", JBool true)]))
    as (members' & Hdump & _ & Hstop).
  exists members'. unfold write_json. rewrite Hdump. split; [reflexivity|].
  rewrite dict_get_app_last in Hstop. cbn in Hstop. split.
  - cbn [_should_stop]. now rewrite Hstop.
  - intros key Hkey.
    destruct (dict_get_dumped key (members ++ [("stop", JBool true)]))
      as (members'' & Hdump' & _ & Hget).
    rewrite Hdump in Hdump'. injection Hdump' as <-.
    rewrite Hget, dict_get_app_last.
    destruct (String.eqb_spec "stop" key); [congruence|reflexivity].
Qed.

Lemma stop_request_is_seen_by_the_worker_witness :
  exists members',
    _request_worker_stop (Some "w1")
      (Document (JObject [("stop", JBool false); ("id", JString "w1")]))
    = inr (Document (JObject members'))
    /\ _should_stop false (Document (JObject members')) = Ok true
    /\ forall key, key <> "stop" ->
         dict_get key members'
         = dumped <$> dict_get key [("stop", JBool false); ("id", JString "w1")].
Proof.
  apply (stop_request_is_seen_by_the_worker "w1"
           (Document (JObject [("stop", JBool false); ("id", JString "w1")]))).
  discriminate.
Defined.

(** X22. The control file [_spawn_worker] writes does not stop the worker;
    after [_request_worker_stop] on that file the worker stops, and the
    file holds the three entries [created_at], [id] and [stop], in this
    order, with [stop] true. *)
Theorem spawned_worker_runs_until_asked_to_stop (worker_id now : string) :
  worker_id <> "" ->
  _should_stop false (spawned_control worker_id now) = Ok false
  /\ exists file',
       _request_worker_stop (Some worker_id) (spawned_control worker_id now)
       = inr file'
       /\ _should_stop false file' = Ok true
       /\ file' = Document (JObject [("created_at", JString now);
                                     ("id", JString worker_id);
                                     ("stop", JBool true)]).
Proof.
  intros Hid. split; [reflexivity|]. unfold _request_worker_stop.
  rewrite (given_true _ Hid). eexists. split; [reflexivity|].
  split; reflexivity.
Qed.

Lemma spawned_worker_runs_until_asked_to_stop_witness :
  _should_stop false (spawned_control "worker-3f2a9c0e" "2024-01-02T03:04:05Z")
  = Ok false
  /\ exists file',
       _request_worker_stop (Some "worker-3f2a9c0e")
         (spawned_control "worker-3f2a9c0e" "2024-01-02T03:04:05Z")
       = inr file'
       /\ _should_stop false file' = Ok true
       /\ file' = Document (JObject [("created_at", JString "2024-01-02T03:04:05Z");
                                     ("id", JString "worker-3f2a9c0e");
                                     ("stop", JBool true)]).
Proof.
  apply (spawned_worker_runs_until_asked_to_stop "worker-3f2a9c0e"
           "2024-01-02T03:04:05Z").
  discriminate.
Defined.

(** ** Timestamps sort as instants *)

Lemma year_start_monotone y1 y2 :
  y1 <= y2 -> days_from_civil y1 1 1 <= days_from_civil y2 1 1.
Proof.
  unfold days_from_civil. cbn [Z.leb Z.ltb Z.compare Pos.compare Pos.compare_cont].
  intros H. Z.div_mod_to_equations. lia.
Qed.

Lemma next_year_start y :
  days_from_civil y 12 31 + 1 = days_from_civil (y + 1) 1 1.
Proof.
  unfold days_from_civil. cbn [Z.leb Z.ltb Z.compare Pos.compare Pos.compare_cont].
  replace (y + 1 - 1) with y by lia. Z.div_mod_to_equations. lia.
Qed.

Lemma march_first y :
  days_from_civil y 3 1
  = days_from_civil y 2 (days_in_month y 2) + 1.
Proof.
  unfold days_from_civil, days_in_month.
  cbn [Z.leb Z.ltb Z.eqb Z.compare Pos.compare Pos.compare_cont Pos.eqb].
  destruct (is_leap y) eqn:Hleap.
  - apply is_leap_spec in Hleap. Z.div_mod_to_equations. lia.
  - assert (~ ((y mod 4 = 0 /\ y mod 100 <> 0) \/ y mod 400 = 0)) as Hn.
    { intros H. apply is_leap_spec in H. congruence. }
    Z.div_mod_to_equations. lia.
Qed.

Lemma days_from_civil_day y m d1 d2 :
  days_from_civil y m d2 - days_from_civil y m d1 = d2 - d1.
Proof. unfold days_from_civil. lia. Qed.

(** Within January and February, and within March to December. *)
Lemma days_from_civil_month_early y m1 d1 m2 d2 :
  1 <= m1 -> m1 < m2 -> m2 <= 2 -> d1 <= 31 -> 1 <= d2 ->
  days_from_civil y m1 d1 < days_from_civil y m2 d2.
Proof.
  intros H1 H2 H3 H4 H5. assert (m1 = 1) as -> by lia. assert (m2 = 2) as -> by lia.
  unfold days_from_civil.
  cbn [Z.leb Z.ltb Z.compare Pos.compare Pos.compare_cont].
  Z.div_mod_to_equations. lia.
Qed.

Lemma days_from_civil_month_late y m1 d1 m2 d2 :
  3 <= m1 -> m1 < m2 -> m2 <= 12 -> d1 <= days_in_month y m1 -> 1 <= d2 ->
  days_from_civil y m1 d1 < days_from_civil y m2 d2.
Proof.
  intros H1 H2 H3 H4 H5. unfold days_from_civil.
  assert ((m1 <=? 2) = false) as -> by lia.
  assert ((m2 <=? 2) = false) as -> by lia.
  assert ((2 <? m1) = true) as -> by lia.
  assert ((2 <? m2) = true) as -> by lia.
  assert (d1 <= (153 * (m1 + 1 - 3) + 2) / 5 - (153 * (m1 - 3) + 2) / 5) as Hlen.
  { assert (m1 = 3 \/ m1 = 4 \/ m1 = 5 \/ m1 = 6 \/ m1 = 7 \/ m1 = 8 \/ m1 = 9
            \/ m1 = 10 \/ m1 = 11) as Hcases by lia.
    unfold days_in_month in H4.
    destruct Hcases as [->|[->|[->|[->|[->|[->|[->|[->| ->]]]]]]]];
      cbn in H4; Z.div_mod_to_equations; lia. }
  assert ((153 * (m1 + 1 - 3) + 2) / 5 <= (153 * (m2 - 3) + 2) / 5) as Hmono.
  { apply Z.div_le_mono; lia. }
  lia.
Qed.

Lemma days_from_civil_month y m1 d1 m2 d2 :
  1 <= m1 -> m1 < m2 -> m2 <= 12 ->
  1 <= d1 <= days_in_month y m1 -> 1 <= d2 ->
  days_from_civil y m1 d1 < days_from_civil y m2 d2.
Proof.
  intros H1 H2 H3 Hd1 Hd2. pose proof (days_in_month_le y m1) as Hdim.
  destruct (Z.le_gt_cases m2 2) as [Hearly|Hlate].
  - apply days_from_civil_month_early; lia.
  - destruct (Z.le_gt_cases 3 m1) as [Hm1|Hm1].
    + apply days_from_civil_month_late; lia.
    + (* m1 <= 2 < m2 *)
      assert (days_from_civil y m1 d1
              <= days_from_civil y 2 (days_in_month y 2)) as Hfeb.
      { destruct (Z.eq_dec m1 2) as [->|Hne].
        - pose proof (days_from_civil_day y 2 d1 (days_in_month y 2)). lia.
        - apply Z.lt_le_incl, days_from_civil_month_early; try lia.
          unfold days_in_month. cbn. destruct (is_leap y); lia. }
      assert (days_from_civil y 3 1 <= days_from_civil y m2 d2) as Hmar.
      { destruct (Z.eq_dec m2 3) as [->|Hne].
        - pose proof (days_from_civil_day y 3 1 d2). lia.
        - apply Z.lt_le_incl, days_from_civil_month_late; try lia.
          unfold days_in_month. cbn. lia. }
      pose proof (march_first y). lia.
Qed.

(** The day number rises with the date. *)
Lemma days_from_civil_lex y1 m1 d1 y2 m2 d2 :
  1 <= m1 <= 12 -> 1 <= d1 <= days_in_month y1 m1 ->
  1 <= m2 <= 12 -> 1 <= d2 <= days_in_month y2 m2 ->
  y1 < y2 \/ (y1 = y2 /\ (m1 < m2 \/ (m1 = m2 /\ d1 < d2))) ->
  days_from_civil y1 m1 d1 < days_from_civil y2 m2 d2.
Proof.
  intros Hm1 Hd1 Hm2 Hd2 [Hy|[<- [Hm|[<- Hd]]]].
  - assert (days_from_civil y1 m1 d1 <= days_from_civil y1 12 31) as Hend.
    { destruct (Z.eq_dec m1 12) as [->|Hne].
      - pose proof (days_from_civil_day y1 12 d1 31).
        unfold days_in_month in Hd1. cbn in Hd1. lia.
      - apply Z.lt_le_incl, days_from_civil_month; lia. }
    assert (days_from_civil y2 1 1 <= days_from_civil y2 m2 d2) as Hstart.
    { destruct (Z.eq_dec m2 1) as [->|Hne].
      - pose proof (days_from_civil_day y2 1 1 d2). lia.
      - apply Z.lt_le_incl, days_from_civil_month; try lia.
        unfold days_in_month. cbn. lia. }
    pose proof (next_year_start y1).
    pose proof (year_start_monotone (y1 + 1) y2 ltac:(lia)). lia.
  - apply days_from_civil_month; lia.
  - pose proof (days_from_civil_day y1 m1 d1 d2). lia.
Qed.

(** *** Comparing the text *)

Lemma digit_char_compare x y :
  0 <= x < 10 -> 0 <= y < 10 ->
  Ascii.compare (digit_char x) (digit_char y) = (x ?= y).
Proof.
  intros Hx Hy.
  assert (In x [0; 1; 2; 3; 4; 5; 6; 7; 8; 9]) as Hx' by (cbn; lia).
  assert (In y [0; 1; 2; 3; 4; 5; 6; 7; 8; 9]) as Hy' by (cbn; lia).
  clear Hx Hy. cbn [In] in Hx', Hy'.
  destruct Hx' as [<-|[<-|[<-|[<-|[<-|[<-|[<-|[<-|[<-|[<-|[]]]]]]]]]]];
    destruct Hy' as [<-|[<-|[<-|[<-|[<-|[<-|[<-|[<-|[<-|[<-|[]]]]]]]]]]];
    vm_compute; reflexivity.
Qed.

Lemma compare_cons c s1 s2 :
  String.compare (String c "" ++ s1) (String c "" ++ s2) = String.compare s1 s2.
Proof.
  change (String c "" ++ s1) with (String c s1).
  change (String c "" ++ s2) with (String c s2).
  cbn [String.compare]. now rewrite ascii_compare_refl.
Qed.

Lemma zero_padded_acc k n acc :
  zero_padded k n acc = zero_padded k n "" ++ acc.
Proof. exact (zero_padded_app k n "" acc). Qed.

(** Numbers of equal width compare as their digits do. *)
Lemma compare_zero_padded k : forall a b s1 s2,
  0 <= a < 10 ^ Z.of_nat k -> 0 <= b < 10 ^ Z.of_nat k ->
  String.compare (zero_padded k a "" ++ s1) (zero_padded k b "" ++ s2)
  = match a ?= b with
    | Eq => String.compare s1 s2
    | c => c
    end.
Proof.
  induction k as [|k IH]; intros a b s1 s2 Ha Hb.
  - cbn in Ha, Hb. assert (a = 0) as -> by lia. assert (b = 0) as -> by lia.
    reflexivity.
  - rewrite Nat2Z.inj_succ, Z.pow_succ_r in Ha, Hb by lia.
    cbn [zero_padded].
    rewrite (zero_padded_acc k (a / 10) (String (digit_char (a mod 10)) "")).
    rewrite (zero_padded_acc k (b / 10) (String (digit_char (b mod 10)) "")).
    rewrite !string_app_assoc.
    rewrite IH by (Z.div_mod_to_equations; lia).
    change (String (digit_char (a mod 10)) "" ++ s1)
      with (String (digit_char (a mod 10)) s1).
    change (String (digit_char (b mod 10)) "" ++ s2)
      with (String (digit_char (b mod 10)) s2).
    cbn [String.compare].
    rewrite digit_char_compare by (Z.div_mod_to_equations; lia).
    destruct (Z.compare_spec (a / 10) (b / 10));
      destruct (Z.compare_spec (a mod 10) (b mod 10));
      destruct (Z.compare_spec a b); try reflexivity;
      exfalso; Z.div_mod_to_equations; lia.
Qed.

(** The fields a timestamp prints, and the instant they stand for. *)
Lemma isoformat_z_fields t :
  in_range t = true ->
  exists y m d hh mi ss us,
    isoformat_z t
    = zero_padded 4 y "" ++ "-" ++ zero_padded 2 m "" ++ "-"
        ++ zero_padded 2 d "" ++ "T" ++ zero_padded 2 hh "" ++ ":"
        ++ zero_padded 2 mi "" ++ ":" ++ zero_padded 2 ss ""
        ++ (if us =? 0 then "Z" else "." ++ zero_padded 6 us "" ++ "Z")
    /\ 1 <= y <= 9999 /\ 1 <= m <= 12 /\ 1 <= d <= days_in_month y m
    /\ 0 <= hh <= 23 /\ 0 <= mi <= 59 /\ 0 <= ss <= 59 /\ 0 <= us <= 999999
    /\ t = days_from_civil y m d * 86400000000
           + ((hh * 60 + mi) * 60 + ss) * 1000000 + us.
Proof.
  intros Hrange. pose proof (in_range_days t Hrange) as Hdays.
  unfold isoformat_z, isoformat.
  pose proof (civil_from_days_sound (t / us_per_day)) as Hcivil.
  destruct (civil_from_days (t / us_per_day)) as [[y m] d].
  destruct Hcivil as (Hm & Hd & Hback).
  pose proof (days_in_month_le y m) as Hdim.
  assert (1 <= y <= 9999) as Hy.
  { apply (days_from_civil_year y m d); [lia|lia|]. now rewrite Hback. }
  exists y, m, d, (t mod us_per_day / us_per_second / 3600),
    (t mod us_per_day / us_per_second / 60 mod 60),
    (t mod us_per_day / us_per_second mod 60),
    (t mod us_per_day mod us_per_second).
  split; [|split; [exact Hy|]; split; [exact Hm|]; split; [exact Hd|]].
  - repeat (rewrite replace_offset_app
              by (first [apply plainb_zero_padded; reflexivity | reflexivity])).
    destruct (t mod us_per_day mod us_per_second =? 0).
    + reflexivity.
    + rewrite (string_app_assoc "." _ "+00:00").
      repeat (rewrite replace_offset_app
                by (first [apply plainb_zero_padded; reflexivity | reflexivity])).
      reflexivity.
  - rewrite Hback. unfold us_per_day, us_per_second.
    Z.div_mod_to_equations. lia.
Qed.

Ltac width :=
  first [ change (10 ^ Z.of_nat 4) with 10000
        | change (10 ^ Z.of_nat 2) with 100
        | change (10 ^ Z.of_nat 6) with 1000000 ]; lia.

(** The text of the earlier instant comes first, if it comes apart. *)
Lemma stamp_lt_sound t1 t2 :
  in_range t1 = true -> in_range t2 = true ->
  t1 / 1000000 <> t2 / 1000000
  \/ (t1 mod 1000000 =? 0) = (t2 mod 1000000 =? 0) ->
  String.compare (isoformat_z t1) (isoformat_z t2) = Lt -> t1 < t2.
Proof.
  intros Hr1 Hr2 Hshape.
  destruct (isoformat_z_fields t1 Hr1)
    as (y1 & m1 & d1 & hh1 & mi1 & ss1 & us1 & -> & Hy1 & Hm1 & Hd1 & Hhh1
        & Hmi1 & Hss1 & Hus1 & Ht1).
  destruct (isoformat_z_fields t2 Hr2)
    as (y2 & m2 & d2 & hh2 & mi2 & ss2 & us2 & -> & Hy2 & Hm2 & Hd2 & Hhh2
        & Hmi2 & Hss2 & Hus2 & Ht2).
  pose proof (days_in_month_le y1 m1) as Hdim1.
  pose proof (days_in_month_le y2 m2) as Hdim2.
  rewrite compare_zero_padded by width. rewrite compare_cons.
  rewrite compare_zero_padded by width. rewrite compare_cons.
  rewrite compare_zero_padded by width. rewrite compare_cons.
  rewrite compare_zero_padded by width. rewrite compare_cons.
  rewrite compare_zero_padded by width. rewrite compare_cons.
  rewrite compare_zero_padded by width.
  pose proof (days_from_civil_lex y1 m1 d1 y2 m2 d2 Hm1 Hd1 Hm2 Hd2) as Hlex.
  destruct (Z.compare_spec y1 y2) as [Hy|Hy|Hy]; [|intros _; lia|discriminate].
  destruct (Z.compare_spec m1 m2) as [Hm|Hm|Hm]; [|intros _; lia|discriminate].
  destruct (Z.compare_spec d1 d2) as [Hd|Hd|Hd]; [|intros _; lia|discriminate].
  assert (days_from_civil y1 m1 d1 = days_from_civil y2 m2 d2) as Hdays
    by congruence.
  clear Hlex.
  destruct (Z.compare_spec hh1 hh2) as [Hhh|Hhh|Hhh];
    [|intros _; lia|discriminate].
  destruct (Z.compare_spec mi1 mi2) as [Hmi|Hmi|Hmi];
    [|intros _; lia|discriminate].
  destruct (Z.compare_spec ss1 ss2) as [Hss|Hss|Hss];
    [|intros _; lia|discriminate].
  assert ((us1 =? 0) = (us2 =? 0)) as Hsame.
  { destruct Hshape as [Hsec|Hsame].
    - exfalso. apply Hsec. Z.div_mod_to_equations. lia.
    - replace us1 with (t1 mod 1000000) by (Z.div_mod_to_equations; lia).
      replace us2 with (t2 mod 1000000) by (Z.div_mod_to_equations; lia).
      exact Hsame. }
  destruct (us1 =? 0) eqn:Hz1; rewrite <- Hsame.
  - discriminate.
  - rewrite compare_cons. rewrite compare_zero_padded by width.
    destruct (Z.compare_spec us1 us2) as [Hus|Hus|Hus];
      [discriminate|intros _; lia|discriminate].
Qed.

(** Text order implies the order of the instants. *)
Lemma text_le_sound t1 t2 :
  in_range t1 = true -> in_range t2 = true ->
  t1 / 1000000 <> t2 / 1000000
  \/ (t1 mod 1000000 =? 0) = (t2 mod 1000000 =? 0) ->
  text_le (isoformat_z t1) (isoformat_z t2) -> t1 <= t2.
Proof.
  intros Hr1 Hr2 Hshape. unfold text_le, String.leb.
  destruct (String.compare (isoformat_z t1) (isoformat_z t2)) eqn:Hcmp.
  - intros _. apply String.compare_eq_iff in Hcmp.
    apply (f_equal fromisoformat_z) in Hcmp.
    rewrite !isoformat_z_roundtrip in Hcmp by assumption.
    injection Hcmp as ->. lia.
  - intros _. apply Z.lt_le_incl. apply stamp_lt_sound; assumption.
  - discriminate.
Qed.

(** X23. The timestamps the program writes sort as text the way the
    instants sort in time, for any two of them that lie in different
    seconds or are of one shape --- both with a microsecond part or both
    without.  So the comparisons of [acquire_next_job], which SQLite makes
    on text, are comparisons of time for such timestamps. *)
Theorem timestamps_sort_as_instants (t1 t2 : Z) :
  in_range t1 = true -> in_range t2 = true ->
  t1 / 1000000 <> t2 / 1000000
  \/ (t1 mod 1000000 =? 0) = (t2 mod 1000000 =? 0) ->
  (text_le (isoformat_z t1) (isoformat_z t2) <-> t1 <= t2).
Proof.
  intros Hr1 Hr2 Hshape. split; [apply text_le_sound; assumption|].
  intros Hle. unfold text_le, String.leb.
  destruct (String.compare (isoformat_z t1) (isoformat_z t2)) eqn:Hcmp;
    try reflexivity.
  exfalso. rewrite String.compare_antisym in Hcmp.
  assert (String.compare (isoformat_z t2) (isoformat_z t1) = Lt) as Hlt
    by (destruct (String.compare (isoformat_z t2) (isoformat_z t1));
        [discriminate|reflexivity|discriminate]).
  apply stamp_lt_sound in Hlt; [lia|assumption|assumption|].
  destruct Hshape as [Hsec|Hsame]; [left; congruence|right; congruence].
Qed.

Lemma timestamps_sort_as_instants_witness :
  text_le (isoformat_z (example_clock 0)) (isoformat_z (example_clock 1))
  <-> example_clock 0 <= example_clock 1.
Proof.
  apply (timestamps_sort_as_instants (example_clock 0) (example_clock 1)).
  - reflexivity.
  - reflexivity.
  - right. reflexivity.
Defined.

(** X24. A job is not handed out before it is due: when [available_at] is
    the timestamp of an instant still to come, the job is not claimable
    and [acquire_next_job] hands out another job or none --- provided the
    time of the call has a microsecond part or lies in an earlier second
    than the due time. *)
Theorem job_is_not_handed_out_before_it_is_due
    (w : world) (id : string) (j : job) (due now' : Z) :
  jobs w !! id = Some j ->
  available_at j = isoformat_z due ->
  in_range due = true -> in_range now' = true ->
  now' < due ->
  now' mod 1000000 <> 0 \/ now' / 1000000 <> due / 1000000 ->
  ~ claimable (isoformat_z now') j
  /\ forall a w', acquire_next_job (isoformat_z now') w = (Ok (Some a), w') ->
                  AcquiredJob.id a <> id.
Proof.
  intros Hj Havailable Hdue Hnow Hlt Hshape.
  assert (~ claimable (isoformat_z now') j) as Hearly.
  { intros [_ Hle]. rewrite Havailable in Hle.
    apply text_le_sound in Hle; [lia|assumption|assumption|].
    destruct (Z.eq_dec (due / 1000000) (now' / 1000000)) as [Hsec|Hsec];
      [right|now left].
    destruct Hshape as [Hfrac|Hother]; [|congruence].
    assert (due mod 1000000 <> 0) as Hfrac'
      by (Z.div_mod_to_equations; lia).
    apply Z.eqb_neq in Hfrac, Hfrac'. congruence. }
  split; [exact Hearly|]. intros a w' Hrun Hid.
  apply acquire_next_job_Some in Hrun as (j' & Hj' & Hclaim & _).
  rewrite Hid, Hj in Hj'. injection Hj' as <-. contradiction.
Qed.

Lemma job_is_not_handed_out_before_it_is_due_witness :
  ~ claimable (isoformat_z (example_clock 0))
      (example_job STATE_FAILED 1 3
         "2024-01-02T03:00:01Z" "2024-01-02T03:04:07Z")
  /\ forall a w',
       acquire_next_job (isoformat_z (example_clock 0))
         (example_world idle_jobs) = (Ok (Some a), w') ->
       AcquiredJob.id a <> "j2".
Proof.
  apply (job_is_not_handed_out_before_it_is_due (example_world idle_jobs)
           "j2"
           (example_job STATE_FAILED 1 3
              "2024-01-02T03:00:01Z" "2024-01-02T03:04:07Z")
           1704164647000000 (example_clock 0)).
  - reflexivity.
  - reflexivity.
  - reflexivity.
  - reflexivity.
  - reflexivity.
  - left. vm_compute. discriminate.
Defined.

Lemma compare_app_same p s1 s2 :
  String.compare (p ++ s1) (p ++ s2) = String.compare s1 s2.
Proof.
  induction p as [|c p IH]; [reflexivity|].
  change (String c p ++ s1) with (String c (p ++ s1)).
  change (String c p ++ s2) with (String c (p ++ s2)).
  cbn [String.compare]. now rewrite ascii_compare_refl.
Qed.

(** Two timestamps of one second differ in what follows the seconds. *)
Lemma isoformat_z_same_second t1 t2 :
  t1 / 1000000 = t2 / 1000000 ->
  exists prefix,
    isoformat_z t1
    = prefix ++ (if t1 mod 1000000 =? 0 then "Z"
                 else "." ++ zero_padded 6 (t1 mod 1000000) "" ++ "Z")
    /\ isoformat_z t2
       = prefix ++ (if t2 mod 1000000 =? 0 then "Z"
                    else "." ++ zero_padded 6 (t2 mod 1000000) "" ++ "Z").
Proof.
  intros Hsec.
  assert (forall t, isoformat_z t
            = (let '(y, m, d) := civil_from_days (t / 1000000 / 86400) in
               zero_padded 4 y "" ++ "-" ++ zero_padded 2 m "" ++ "-"
                 ++ zero_padded 2 d "" ++ "T"
                 ++ zero_padded 2 (t / 1000000 mod 86400 / 3600) "" ++ ":"
                 ++ zero_padded 2 (t / 1000000 mod 86400 / 60 mod 60) "" ++ ":"
                 ++ zero_padded 2 (t / 1000000 mod 86400 mod 60) "")
              ++ (if t mod 1000000 =? 0 then "Z"
                  else "." ++ zero_padded 6 (t mod 1000000) "" ++ "Z"))
    as Hsplit.
  { intros t. unfold isoformat_z, isoformat.
    replace (t / us_per_day) with (t / 1000000 / 86400)
      by (unfold us_per_day, us_per_second; Z.div_mod_to_equations; lia).
    replace (t mod us_per_day / us_per_second) with (t / 1000000 mod 86400)
      by (unfold us_per_day, us_per_second; Z.div_mod_to_equations; lia).
    replace (t mod us_per_day mod us_per_second) with (t mod 1000000)
      by (unfold us_per_day, us_per_second; Z.div_mod_to_equations; lia).
    destruct (civil_from_days (t / 1000000 / 86400)) as [[y m] d].
    repeat (rewrite replace_offset_app
              by (first [apply plainb_zero_padded; reflexivity | reflexivity])).
    rewrite !string_app_assoc.
    destruct (t mod 1000000 =? 0).
    - reflexivity.
    - rewrite (string_app_assoc "." _ "+00:00").
      repeat (rewrite replace_offset_app
                by (first [apply plainb_zero_padded; reflexivity | reflexivity])).
      reflexivity. }
  rewrite (Hsplit t1), (Hsplit t2), Hsec. eexists. split; reflexivity.
Qed.

(** X25. Within one second the text order is not the order of time: the
    timestamp of the whole second, which prints no microseconds, sorts
    after the timestamp of every later instant of that second.  So a job
    due at a whole second is not claimable in the rest of that second
    although it is due, and a job due later in a second is claimable at
    the whole second before it is due. *)
Theorem whole_second_sorts_after_its_fractions (t1 t2 : Z) (j : job) :
  in_range t1 = true -> in_range t2 = true ->
  t1 / 1000000 = t2 / 1000000 ->
  t1 mod 1000000 = 0 -> t2 mod 1000000 <> 0 ->
  t1 < t2
  /\ ~ text_le (isoformat_z t1) (isoformat_z t2)
  /\ text_le (isoformat_z t2) (isoformat_z t1)
  /\ (available_at j = isoformat_z t1 -> ~ claimable (isoformat_z t2) j)
  /\ (available_at j = isoformat_z t2 ->
      state j = STATE_PENDING \/ state j = STATE_FAILED ->
      claimable (isoformat_z t1) j).
Proof.
  intros _ _ Hsec Hwhole Hfrac.
  assert (String.compare (isoformat_z t1) (isoformat_z t2) = Gt) as Hcmp.
  { destruct (isoformat_z_same_second t1 t2 Hsec) as (prefix & -> & ->).
    rewrite compare_app_same, Hwhole.
    apply Z.eqb_neq in Hfrac. rewrite Hfrac. cbn [Z.eqb].
    change ("." ++ zero_padded 6 (t2 mod 1000000) "" ++ "Z")
      with (String "." (zero_padded 6 (t2 mod 1000000) "" ++ "Z")).
    reflexivity. }
  assert (~ text_le (isoformat_z t1) (isoformat_z t2)) as Hafter.
  { unfold text_le, String.leb. rewrite Hcmp. discriminate. }
  assert (text_le (isoformat_z t2) (isoformat_z t1)) as Hbefore.
  { unfold text_le, String.leb. rewrite String.compare_antisym, Hcmp.
    reflexivity. }
  split; [Z.div_mod_to_equations; lia|]. split; [exact Hafter|].
  split; [exact Hbefore|]. split.
  - intros Havailable [_ Hdue]. rewrite Havailable in Hdue. contradiction.
  - intros Havailable Hstate. split; [exact Hstate|]. now rewrite Havailable.
Qed.

Lemma whole_second_sorts_after_its_fractions_witness :
  1704164645000000 < 1704164645500000
  /\ ~ text_le (isoformat_z 1704164645000000) (isoformat_z 1704164645500000)
  /\ text_le (isoformat_z 1704164645500000) (isoformat_z 1704164645000000)
  /\ (available_at (example_job STATE_PENDING 0 3
                      "2024-01-02T03:00:00Z" "2024-01-02T03:04:05Z")
      = isoformat_z 1704164645000000 ->
      ~ claimable (isoformat_z 1704164645500000)
          (example_job STATE_PENDING 0 3
             "2024-01-02T03:00:00Z" "2024-01-02T03:04:05Z"))
  /\ (available_at (example_job STATE_PENDING 0 3
                      "2024-01-02T03:00:00Z" "2024-01-02T03:04:05Z")
      = isoformat_z 1704164645500000 ->
      state (example_job STATE_PENDING 0 3
               "2024-01-02T03:00:00Z" "2024-01-02T03:04:05Z") = STATE_PENDING
      \/ state (example_job STATE_PENDING 0 3
                  "2024-01-02T03:00:00Z" "2024-01-02T03:04:05Z") = STATE_FAILED ->
      claimable (isoformat_z 1704164645000000)
        (example_job STATE_PENDING 0 3
           "2024-01-02T03:00:00Z" "2024-01-02T03:04:05Z")).
Proof.
  apply (whole_second_sorts_after_its_fractions 1704164645000000
           1704164645500000
           (example_job STATE_PENDING 0 3
              "2024-01-02T03:00:00Z" "2024-01-02T03:04:05Z")).
  - reflexivity.
  - reflexivity.
  - reflexivity.
  - reflexivity.
  - vm_compute. discriminate.
Defined.

(** ** The retry limit *)

Lemma quiet_jobs {A} (m : M A) w : quiet m -> jobs (snd (m w)) = jobs w.
Proof. intros Hq. destruct (Hq w) as (a & w' & -> & Hjobs & _). exact Hjobs. Qed.

(** What [handle_failure] leaves of the table, return or raise. *)
Lemma handle_failure_jobs settings picked attempts' exit_code error_message w :
  jobs (snd (handle_failure settings picked attempts' exit_code error_message w))
  = jobs w
  \/ exists now next_available error,
       jobs (snd (handle_failure settings picked attempts' exit_code
                    error_message w))
       = alter (fail (failure_state attempts' (AcquiredJob.max_retries picked))
                     attempts' now next_available error)
               (AcquiredJob.id picked) (jobs w).
Proof.
  destruct (handle_failure_cases settings picked attempts' exit_code
              error_message w)
    as [(w' & next & -> & Hjobs & _)|(e & w' & -> & Hjobs & _)].
  - right. eexists _, _, _. exact Hjobs.
  - left. exact Hjobs.
Qed.

(** What [process] leaves of the table, return or raise. *)
Lemma process_jobs settings picked out w :
  jobs (snd (process settings picked out w)) = jobs w
  \/ (exists now,
        jobs (snd (process settings picked out w))
        = alter (complete (AcquiredJob.attempts picked + 1) now)
                (AcquiredJob.id picked) (jobs w))
  \/ exists now next_available error,
       jobs (snd (process settings picked out w))
       = alter (fail (failure_state (AcquiredJob.attempts picked + 1)
                        (AcquiredJob.max_retries picked))
                     (AcquiredJob.attempts picked + 1) now next_available error)
               (AcquiredJob.id picked) (jobs w).
Proof.
  unfold process.
  destruct (execute_run picked (AcquiredJob.attempts picked + 1) out w)
    as [(stdout & stderr & w1 & -> & Hexec & Hjobs & _)
       |(code & msg & w1 & Hexec & Hcode & Hjobs & _)].
  - right. left. exists (isoformat_z (clock w (ticks w))).
    rewrite (bind_ok _ _ _ _ _ Hexec). cbn. exact Hjobs.
  - rewrite (bind_ok _ _ _ _ _ Hexec).
    apply Z.eqb_neq in Hcode. rewrite Hcode. cbn [negb when].
    rewrite <- Hjobs.
    destruct (handle_failure_jobs settings picked
                (AcquiredJob.attempts picked + 1) code (Some msg) w1)
      as [Hsame|Hfail]; [now left|now right; right].
Qed.

Lemma in_queue_claimable now j : claimable now j -> in_queue j = true.
Proof.
  intros [[Hstate|Hstate] _]; unfold in_queue; rewrite Hstate; reflexivity.
Qed.

(** One turn of the loop raises no bound. *)
Lemma iteration_bounds settings out w id j :
  jobs w !! id = Some j ->
  exists j',
    jobs (snd (iteration settings out w)) !! id = Some j'
    /\ attempts j <= attempts j'
    /\ attempts_bound j' <= attempts_bound j
    /\ max_retries j' = max_retries j.
Proof.
  intros Hj.
  destruct (iteration_run settings out w)
    as [[_ ->]|(row_id & row & w1 & Hrow & Hclaim & Hjobs & _ & ->)].
  - exists j. cbn. split; [exact Hj|]. lia.
  - set (picked := AcquiredJob.Make row_id (command row) (attempts row)
                     (max_retries row)).
    destruct (decide (id = row_id)) as [->|Hne].
    + rewrite Hrow in Hj. injection Hj as <-.
      pose proof (in_queue_claimable _ _ Hclaim) as Hin.
      assert (attempts_bound row
              = Z.max (attempts row + 1) (max_retries row)) as Hbound
        by (unfold attempts_bound; now rewrite Hin).
      destruct (process_jobs settings picked out w1)
        as [Hsame|[(now & Hdone)|(now & next & error & Hfail)]].
      * rewrite Hsame, Hjobs, lookup_insert_eq. eexists. split; [reflexivity|].
        rewrite Hbound. unfold attempts_bound. cbn. lia.
      * rewrite Hdone, Hjobs, lookup_alter_eq, lookup_insert_eq.
        eexists. split; [reflexivity|]. rewrite Hbound.
        unfold attempts_bound. cbn. lia.
      * rewrite Hfail, Hjobs, lookup_alter_eq, lookup_insert_eq.
        eexists. split; [reflexivity|]. rewrite Hbound.
        unfold attempts_bound, failure_state, in_queue.
        cbn [fmap option_fmap option_map fail attempts max_retries state
             picked AcquiredJob.attempts AcquiredJob.max_retries].
        destruct (attempts row + 1 <? max_retries row) eqn:Hlt; cbn; lia.
    + destruct (touches_process settings picked out w1) as [Hrows _].
      rewrite (Hrows id Hne), Hjobs, lookup_insert_ne by congruence.
      exists j. split; [exact Hj|]. lia.
Qed.

(** X26. However long the worker loop runs and whatever the commands do,
    also when it ends in an exception, every job stays in the table with
    the [max_retries] it had, its attempts never go down, and they never
    exceed the larger of [max_retries] and the attempts at the start plus
    one. *)
Theorem run_loop_keeps_the_retry_limit
    (settings : WorkerSettings) (script : list turn) (w : world)
    (id : string) (j : job) :
  jobs w !! id = Some j ->
  exists j',
    jobs (snd (run_loop settings script w)) !! id = Some j'
    /\ max_retries j' = max_retries j
    /\ attempts j <= attempts j'
    /\ attempts j' <= Z.max (attempts j + 1) (max_retries j).
Proof.
  assert (forall j0, attempts j0 <= attempts_bound j0) as Hle
    by (intros j0; unfold attempts_bound; destruct (in_queue j0); lia).
  assert (forall j0, attempts_bound j0
                     <= Z.max (attempts j0 + 1) (max_retries j0)) as Hmax
    by (intros j0; unfold attempts_bound; destruct (in_queue j0); lia).
  intros Hj.
  assert (exists j',
            jobs (snd (run_loop settings script w)) !! id = Some j'
            /\ max_retries j' = max_retries j
            /\ attempts j <= attempts j'
            /\ attempts_bound j' <= attempts_bound j) as Hinv.
  { revert w j Hj.
    induction script as [|[[flag file] out] rest IH]; intros w j Hj.
    - exists j. cbn. split; [exact Hj|]. lia.
    - cbn [run_loop]. destruct (_should_stop flag file) as [[|]|e];
        try (exists j; cbn; split; [exact Hj|lia]).
      unfold bind.
      destruct (iteration_bounds settings out w id j Hj)
        as (j1 & Hj1 & Hup & Hbound & Hretries).
      destruct (iteration settings out w) as [[[]|e] w1]; cbn [snd] in *.
      + destruct (IH w1 j1 Hj1) as (j' & Hj' & Hretries' & Hup' & Hbound').
        exists j'. split; [exact Hj'|]. lia.
      + exists j1. split; [exact Hj1|]. lia. }
  destruct Hinv as (j' & Hj' & Hretries & Hup & Hbound).
  exists j'. split; [exact Hj'|]. split; [exact Hretries|]. split; [exact Hup|].
  specialize (Hle j'). specialize (Hmax j). lia.
Qed.

Lemma run_loop_keeps_the_retry_limit_witness :
  exists j',
    jobs (snd (run_loop (Settings "w1" (Finite 2) (Finite 2))
                 [(false, Missing, Returned 1 "" "boom");
                  (false, Missing, TimeoutExpired);
                  (false, Missing, Returned 2 "" "");
                  (false, Missing, Returned 1 "" "boom");
                  (false, Missing, Returned 1 "" "boom")]
                 (example_world waiting_jobs))) !! "a" = Some j'
    /\ max_retries j' = 3
    /\ 0 <= attempts j'
    /\ attempts j' <= Z.max (0 + 1) 3.
Proof.
  apply (run_loop_keeps_the_retry_limit (Settings "w1" (Finite 2) (Finite 2))
           [(false, Missing, Returned 1 "" "boom");
            (false, Missing, TimeoutExpired);
            (false, Missing, Returned 2 "" "");
            (false, Missing, Returned 1 "" "boom");
            (false, Missing, Returned 1 "" "boom")]
           (example_world waiting_jobs) "a"
           (example_job STATE_PENDING 0 3
              "2024-01-02T03:00:00Z" "2024-01-02T03:00:00Z")).
  reflexivity.
Defined.
